(** * pelican/contents.py: the content model, its URLs and its link rewriting

    A shallow embedding of [pelican/contents.py] (Python 2) and the
    properties its specification states about it.

    Conventions of the embedding:
    - Python text is a Rocq [string] of ASCII characters; case mapping and
      blanks are those of ASCII, and the functions on text leave any other
      character as it is.
    - A Python dict with string keys is a [gmap string _].
    - A call that may raise returns a [result]; [Raise e] carries the
      exception.  [Unmodelled] marks a run that leaves the fragment of Python
      covered here (for instance a metadata key that shadows a method of the
      class); nothing is stated about such runs.
    - What the module imports from outside this file ([slugify],
      [truncate_html_words], [_DEFAULT_CONFIG], the clock, the locale, the
      interpreter's rendering of builtin objects, [hash]) is a [Variable] of
      the section that uses it. *)

From Stdlib Require Import Ascii ZArith Lia.
From stdpp Require Import base option list gmap strings fin_maps.


(** ** Exceptions and results *)

Inductive exn :=
| NameError (name : string)
| KeyError (key : string)
| AttributeError (attr : string)
| TypeError (what : string)
| ValueError (what : string)
| IndexError
| LocaleError
| Unmodelled (what : string).

Inductive result (A : Type) :=
| Ok (a : A)
| Raise (e : exn).
Arguments Ok {A} a.
Arguments Raise {A} e.

(** Sequencing: the first exception raised is the one that propagates. *)
#[global] Instance result_bind : MBind result := fun A B f r =>
  match r with
  | Ok a => f a
  | Raise e => Raise e
  end.

#[global] Instance result_ret : MRet result := fun A a => Ok a.

(** ** Text *)

Module Text.

Definition eqb (s t : string) : bool := bool_decide (s = t).

(** [str.lower] and [str.upper]: the letters A-Z and a-z change case. *)
Definition lower_char (c : ascii) : ascii :=
  let n := nat_of_ascii c in
  if (65 <=? n) && (n <=? 90) then ascii_of_nat (n + 32) else c.

Definition upper_char (c : ascii) : ascii :=
  let n := nat_of_ascii c in
  if (97 <=? n) && (n <=? 122) then ascii_of_nat (n - 32) else c.

Fixpoint map (f : ascii -> ascii) (s : string) : string :=
  match s with
  | "" => ""
  | String c s' => String (f c) (map f s')
  end.

Definition lower : string -> string := map lower_char.
Definition upper : string -> string := map upper_char.

(** [s.startswith(p)], and the rest of [s] after [p]. *)
Fixpoint strip_prefix (p s : string) : option string :=
  match p, s with
  | "", _ => Some s
  | String a p', String b s' => if bool_decide (a = b) then strip_prefix p' s' else None
  | String _ _, "" => None
  end.

Definition startswith (s p : string) : bool :=
  match strip_prefix p s with Some _ => true | None => false end.

Fixpoint rev_onto (s acc : string) : string :=
  match s with
  | "" => acc
  | String c s' => rev_onto s' (String c acc)
  end.

Definition rev (s : string) : string := rev_onto s "".

Definition endswith (s p : string) : bool := startswith (rev s) (rev p).

(** The ASCII characters [unicode.strip] removes: tab to carriage return,
    the separators 0x1c-0x1f and the space. *)
Definition is_unicode_space (c : ascii) : bool :=
  let n := nat_of_ascii c in
  (9 <=? n) && (n <=? 13) || (28 <=? n) && (n <=? 32).

Fixpoint lstrip (s : string) : string :=
  match s with
  | "" => ""
  | String c s' => if is_unicode_space c then lstrip s' else s
  end.

Definition rstrip (s : string) : string := rev (lstrip (rev s)).

(** Every character of [s] is in the class [p]. *)
Fixpoint all (p : ascii -> bool) (s : string) : bool :=
  match s with
  | "" => true
  | String c s' => p c && all p s'
  end.

Definition strip (s : string) : string := rstrip (lstrip s).

End Text.

(** ** Python values

    The objects that occur as metadata values, settings values and
    attributes of a content object. *)

Inductive wrapper_class := URLWrapperC | CategoryC | TagC | AuthorC.

#[warning="-register-all"]
Inductive value :=
| VNone
| VBool (b : bool)
| VInt (n : Z)
| VStr (s : string)
| VDatetime (t : Z)                   (* a naive datetime, as an instant *)
| VDate (t : Z)                       (* a date, as the instant of its midnight *)
| VTuple (items : list value)
| VDict (items : list (string * value)) (* a dict literal with distinct string keys *)
| VWrapper (c : wrapper_class) (name slug : string). (* a Category, Tag or Author *)

(** Truth value of an object ([if x:], [not x]). *)
Definition truthy (v : value) : bool :=
  match v with
  | VNone => false
  | VBool b => b
  | VInt n => negb (n =? 0)%Z
  | VStr s => negb (Text.eqb s "")
  | VDatetime _ => true
  | VDate _ => true
  | VTuple l => match l with [] => false | _ => true end
  | VDict l => match l with [] => false | _ => true end
  | VWrapper _ _ _ => true
  end.

Abbreviation Settings := (gmap string value).

(** [d[key]] on a dict: [KeyError] when the key is missing. *)
Definition getitem {A} (d : gmap string A) (key : string) : result A :=
  match d !! key with
  | Some v => Ok v
  | None => Raise (KeyError key)
  end.

(** ** URLWrapper, Category, Tag, Author *)

Section URLWrapper.

(** [pelican.utils.slugify]. *)
Variable slugify : string -> string.
(** [unicode(x)] and [str(x)] of a builtin object that is not text. *)
Variable repr_builtin : value -> string.
(** The builtin [hash] on text. *)
Variable hash : string -> Z.

Record URLWrapper := mkURLWrapper {
  w_class : wrapper_class;
  name : string;
  slug : string;
  w_settings : Settings;
}.

(** [unicode(x)]: text is itself, a wrapper answers through
    [__unicode__] with its name. *)
Definition unicode_ (v : value) : string :=
  match v with
  | VStr s => s
  | VWrapper _ n _ => n
  | _ => repr_builtin v
  end.

(** [URLWrapper.__init__]. *)
Definition URLWrapper_init (c : wrapper_class) (name_ : value) (settings : Settings)
  : URLWrapper :=
  let n := unicode_ name_ in
  {| w_class := c; name := n; slug := slugify n; w_settings := settings |}.

Definition Category (name_ : value) (settings : Settings) : URLWrapper :=
  URLWrapper_init CategoryC name_ settings.

Definition Author (name_ : value) (settings : Settings) : URLWrapper :=
  URLWrapper_init AuthorC name_ settings.

(** [Tag.__init__]: [unicode.strip(name)] accepts text only. *)
Definition Tag (name_ : value) (settings : Settings) : result URLWrapper :=
  match name_ with
  | VStr s => Ok (URLWrapper_init TagC (VStr (Text.strip s)) settings)
  | _ => Raise (TypeError "descriptor 'strip' requires a 'unicode' object")
  end.

(** A wrapper stored as an attribute or passed as an operand. *)
Definition wrapper_value (w : URLWrapper) : value :=
  VWrapper (w_class w) (name w) (slug w).

(** [URLWrapper.__hash__]. *)
Definition URLWrapper_hash (w : URLWrapper) : Z := hash (name w).

(** [URLWrapper.__eq__]. *)
Definition URLWrapper_eq (w : URLWrapper) (other : value) : bool :=
  Text.eqb (name w) (unicode_ other).

(** [URLWrapper.__unicode__]. *)
Definition URLWrapper_unicode (w : URLWrapper) : string := name w.

End URLWrapper.

(** ** Regular expressions

    The fragment of Python's [re] that the pattern of [_update_content]
    uses, with the matching order of a backtracking matcher: alternatives
    left to right, a greedy star longest first, a lazy star shortest first,
    and the first complete match wins.  [k] is the rest of the pattern. *)

Module Re.

Inductive regex :=
| Chr (p : ascii -> bool)          (* one character of a class *)
| Lit (l : string)                 (* literal text *)
| Cat (r1 r2 : regex)
| Alt (r1 r2 : regex)
| Star (p : ascii -> bool)         (* [c*], greedy *)
| LazyStar (p : ascii -> bool)     (* [c*?] *)
| Group (g : string) (r : regex)   (* [(?P<g>r)] *)
| Backref (g : string).            (* the text group [g] matched *)

(** The groups of a match, latest first. *)
Definition groups := list (string * string).

Fixpoint lookup_group (g : string) (gs : groups) : option string :=
  match gs with
  | [] => None
  | (g', t) :: gs' => if bool_decide (g' = g) then Some t else lookup_group g gs'
  end.

Fixpoint take (n : nat) (s : string) : string :=
  match n, s with
  | S n', String c s' => String c (take n' s')
  | _, _ => ""
  end.

(** The text between a position [s] and a later position [s']. *)
Definition consumed (s s' : string) : string :=
  take (String.length s - String.length s') s.

Section Matcher.
Context {A : Type}.

Fixpoint star (p : ascii -> bool) (k : string -> option A) (s : string)
  : option A :=
  match s with
  | String c s' =>
      if p c then
        match star p k s' with
        | Some x => Some x
        | None => k s
        end
      else k s
  | "" => k s
  end.

Fixpoint lazy_star (p : ascii -> bool) (k : string -> option A) (s : string)
  : option A :=
  match k s with
  | Some x => Some x
  | None =>
      match s with
      | String c s' => if p c then lazy_star p k s' else None
      | "" => None
      end
  end.

Fixpoint rmatch (r : regex) (s : string) (gs : groups)
    (k : string -> groups -> option A) : option A :=
  match r with
  | Chr p =>
      match s with
      | String c s' => if p c then k s' gs else None
      | "" => None
      end
  | Lit l =>
      match Text.strip_prefix l s with
      | Some s' => k s' gs
      | None => None
      end
  | Cat r1 r2 => rmatch r1 s gs (fun s' gs' => rmatch r2 s' gs' k)
  | Alt r1 r2 =>
      match rmatch r1 s gs k with
      | Some x => Some x
      | None => rmatch r2 s gs k
      end
  | Star p => star p (fun s' => k s' gs) s
  | LazyStar p => lazy_star p (fun s' => k s' gs) s
  | Group g r => rmatch r s gs (fun s' gs' => k s' ((g, consumed s s') :: gs'))
  | Backref g =>
      match lookup_group g gs with
      | Some t =>
          match Text.strip_prefix t s with
          | Some s' => k s' gs
          | None => None
          end
      | None => None
      end
  end.
End Matcher.

(** What a pattern may read, whatever the order in which the matcher
    tries: [matches r gs w gs'] when [r] reads the text [w] and takes
    the groups from [gs] to [gs']. *)
Inductive matches : regex -> groups -> string -> groups -> Prop :=
| matches_chr p c gs :
    p c = true -> matches (Chr p) gs (String c "") gs
| matches_lit l gs :
    matches (Lit l) gs l gs
| matches_cat r1 r2 gs w1 gs1 w2 gs2 :
    matches r1 gs w1 gs1 -> matches r2 gs1 w2 gs2 ->
    matches (Cat r1 r2) gs (w1 +:+ w2) gs2
| matches_alt_l r1 r2 gs w gs' :
    matches r1 gs w gs' -> matches (Alt r1 r2) gs w gs'
| matches_alt_r r1 r2 gs w gs' :
    matches r2 gs w gs' -> matches (Alt r1 r2) gs w gs'
| matches_star p gs w :
    Text.all p w = true -> matches (Star p) gs w gs
| matches_lazy_star p gs w :
    Text.all p w = true -> matches (LazyStar p) gs w gs
| matches_group g r gs w gs' :
    matches r gs w gs' -> matches (Group g r) gs w ((g, w) :: gs')
| matches_backref g gs t :
    lookup_group g gs = Some t -> matches (Backref g) gs t gs.

(** [pattern.match(s)]: the groups and the text after the match. *)
Definition match_at (r : regex) (s : string) : option (groups * string) :=
  rmatch r s [] (fun s' gs => Some (gs, s')).

(** [m.group(g)]; a group that took no part in the match is [None], and
    using it as text is a [TypeError]. *)
Definition group (m : groups) (g : string) : result string :=
  match lookup_group g m with
  | Some t => Ok t
  | None => Raise (TypeError "unsupported operand type(s) for +")
  end.

(** [pattern.search(s)]: the leftmost position where the pattern
    matches, as the text before the match, the groups and the text
    after it. *)
Fixpoint search (r : regex) (s : string) : option (string * groups * string) :=
  match match_at r s with
  | Some (m, rest) => Some ("", m, rest)
  | None =>
      match s with
      | "" => None
      | String c s' =>
          match search r s' with
          | Some (pre, m, rest) => Some (String c pre, m, rest)
          | None => None
          end
      end
  end.

(** [pattern.sub(repl, s)] for a pattern that matches no empty text: the
    matches are found left to right and do not overlap, [repl] is called
    on each as it is found, the text between matches is copied.  Every
    match takes at least one character, so [fuel] above the length of [s]
    is never used up. *)
Fixpoint sub_fuel (fuel : nat) (r : regex) (repl : groups -> result string)
    (s : string) : result string :=
  match fuel with
  | O => Ok s
  | S fuel' =>
      match search r s with
      | Some (pre, m, rest) =>
          t ← repl m;
          out ← sub_fuel fuel' r repl rest;
          Ok (pre +:+ t +:+ out)
      | None => Ok s
      end
  end.

Definition sub (r : regex) (repl : groups -> result string) (s : string)
  : result string :=
  sub_fuel (S (String.length s)) r repl s.

(** [pattern.finditer(s)]: the matches [sub] visits, in order. *)
Fixpoint finditer_fuel (fuel : nat) (r : regex) (s : string) : list groups :=
  match fuel with
  | O => []
  | S fuel' =>
      match search r s with
      | Some (_, m, rest) => m :: finditer_fuel fuel' r rest
      | None => []
      end
  end.

Definition finditer (r : regex) (s : string) : list groups :=
  finditer_fuel (S (String.length s)) r s.

Definition chr (c : ascii) : ascii -> bool := fun x => bool_decide (x = c).
(** [\s] *)
Definition space : ascii -> bool := Ascii.is_space.
(** [.] without DOTALL: anything but a newline. *)
Definition dot : ascii -> bool := fun x => negb (bool_decide (x = "010"%char)).
Definition not_ (c : ascii) : ascii -> bool := fun x => negb (bool_decide (x = c)).
Definition one_of (c d : ascii) : ascii -> bool :=
  fun x => bool_decide (x = c) || bool_decide (x = d).

End Re.

Infix "·" := Re.Cat (at level 60, right associativity).

(** The pattern of [_update_content], compiled with [re.X] (blanks and
    comments of the pattern text are not part of it):
<<
    (?P<markup><\s*[^\>]*(?:href|src)\s*=)
    (?P<quote>[DQ\SQ])
    (?P<path>\|(?P<what>.*?)\|(?P<value>.*?))
    \2
>>
    where DQ and SQ stand for the double and the single quote character.
    Group 2 is [quote]. *)
Definition hrefs : Re.regex :=
  Re.Group "markup"
    (Re.Chr (Re.chr "<") · Re.Star Re.space · Re.Star (Re.not_ ">")
     · Re.Alt (Re.Lit "href") (Re.Lit "src") · Re.Star Re.space · Re.Chr (Re.chr "="))
  · Re.Group "quote" (Re.Chr (Re.one_of "034" "'"))
  · Re.Group "path"
      (Re.Chr (Re.chr "|") · Re.Group "what" (Re.LazyStar Re.dot)
       · Re.Chr (Re.chr "|") · Re.Group "value" (Re.LazyStar Re.dot))
  · Re.Backref "quote".

(** The groups of a match of [hrefs]. *)
Definition hrefs_groups (markup quote what value : string) : Re.groups :=
  [("path", "|" +:+ what +:+ "|" +:+ value); ("value", value); ("what", what);
   ("quote", quote); ("markup", markup)].


(** ** os.path (posixpath)

    The path functions of the standard library that [contents.py] calls,
    after posixpath.py of Python 2.7.  [cwd] is [os.getcwd()]. *)

Module posixpath.

Definition sep : ascii := "/"%char.

(** [s.split('/')] *)
Fixpoint split (s : string) : list string :=
  match s with
  | "" => [""]
  | String c s' =>
      if bool_decide (c = sep) then "" :: split s'
      else match split s' with
           | x :: xs => String c x :: xs
           | [] => [String c ""]
           end
  end.

(** ['/'.join(comps)] *)
Fixpoint join_sep (comps : list string) : string :=
  match comps with
  | [] => ""
  | [x] => x
  | x :: xs => x +:+ "/" +:+ join_sep xs
  end.

Definition isabs (s : string) : bool := Text.startswith s "/".

(** [join(a, b)] *)
Definition join (a b : string) : string :=
  if Text.startswith b "/" then b
  else if Text.eqb a "" || Text.endswith a "/" then a +:+ b
  else a +:+ "/" +:+ b.

(** [join(a, *p)] *)
Definition join_all (a : string) (p : list string) : string :=
  foldl join a p.

(** One round of the loop of [normpath]; [new_comps] is kept reversed. *)
Definition normpath_step (initial_slashes : nat) (new_comps : list string)
    (comp : string) : list string :=
  if Text.eqb comp "" || Text.eqb comp "." then new_comps
  else if negb (Text.eqb comp "..")
          || (bool_decide (initial_slashes = 0) && bool_decide (new_comps = []))
          || match new_comps with
             | last :: _ => Text.eqb last ".."
             | [] => false
             end
  then comp :: new_comps
  else match new_comps with
       | _ :: popped => popped
       | [] => new_comps
       end.

Definition normpath (path : string) : string :=
  if Text.eqb path "" then "."
  else
    let initial_slashes :=
      if Text.startswith path "/" then
        if Text.startswith path "//" && negb (Text.startswith path "///")
        then 2 else 1
      else 0 in
    let comps := rev (foldl (normpath_step initial_slashes) [] (split path)) in
    let path' := join_sep comps in
    let path'' :=
      match initial_slashes with
      | 0 => path'
      | 1 => "/" +:+ path'
      | _ => "//" +:+ path'
      end in
    if Text.eqb path'' "" then "." else path''.

Definition abspath (cwd path : string) : string :=
  normpath (if isabs path then path else join cwd path).

(** [len(commonprefix([l1, l2]))] on lists of components. *)
Fixpoint common (l1 l2 : list string) : nat :=
  match l1, l2 with
  | x :: l1', y :: l2' => if Text.eqb x y then S (common l1' l2') else 0
  | _, _ => 0
  end.

Definition nonempty (x : string) : bool := negb (Text.eqb x "").

Definition relpath (cwd path start : string) : result string :=
  if Text.eqb path "" then Raise (ValueError "no path specified")
  else
    let start_list := List.filter nonempty (split (abspath cwd start)) in
    let path_list := List.filter nonempty (split (abspath cwd path)) in
    let i := common start_list path_list in
    let rel_list := replicate (length start_list - i) ".." ++ drop i path_list in
    match rel_list with
    | [] => Ok "."
    | a :: p => Ok (join_all a p)
    end.

Fixpoint lstrip_sep (s : string) : string :=
  match s with
  | "" => ""
  | String c s' => if bool_decide (c = sep) then lstrip_sep s' else s
  end.

(** What is left of a reversed path from its first separator on. *)
Fixpoint from_sep (r : string) : string :=
  match r with
  | "" => ""
  | String c r' => if bool_decide (c = sep) then r else from_sep r'
  end.

(** [dirname(p)]: the text up to the last separator, without the
    separators that end it unless it holds nothing else. *)
Definition dirname (p : string) : string :=
  let head_rev := from_sep (Text.rev p) in
  match lstrip_sep head_rev with
  | "" => Text.rev head_rev
  | stripped => Text.rev stripped
  end.

(** The position of the last [c] in [s], counted from [i] on. *)
Fixpoint rfind_from (c : ascii) (s : string) (i : nat) (last : option nat)
  : option nat :=
  match s with
  | "" => last
  | String d s' =>
      rfind_from c s' (S i) (if bool_decide (d = c) then Some i else last)
  end.

(** [s.rfind(c)], [None] standing for -1. *)
Definition rfind (c : ascii) (s : string) : option nat := rfind_from c s 0 None.

Fixpoint drop_chars (n : nat) (s : string) : string :=
  match n, s with
  | S n', String _ s' => drop_chars n' s'
  | _, _ => s
  end.

Fixpoint take_chars (n : nat) (s : string) : string :=
  match n, s with
  | S n', String c s' => String c (take_chars n' s')
  | _, _ => ""
  end.

(** [splitext(p)]: the path is cut at its last dot when that dot comes
    after the last separator and some character between the two is not a
    dot; otherwise the extension is empty. *)
Definition splitext (p : string) : string * string :=
  let filename_index :=
    match rfind sep p with Some i => S i | None => 0 end in
  match rfind "."%char p with
  | Some dot_index =>
      if (filename_index <=? dot_index)
         && negb (Text.all (λ c, bool_decide (c = "."%char))
                    (take_chars (dot_index - filename_index)
                       (drop_chars filename_index p)))
      then (take_chars dot_index p, drop_chars dot_index p)
      else (p, "")
  | None => (p, "")
  end.

End posixpath.

(** ** str.format

    [template.format] with keyword arguments, for templates made of literal text, the
    escapes for the two braces and plain [{name}] fields.  A field with an
    attribute, an index, a conversion or a format specification is outside
    the fragment covered here. *)

Module Format.

Definition digit (c : ascii) : bool :=
  let n := nat_of_ascii c in (48 <=? n) && (n <=? 57).

Fixpoint all_digits (s : string) : bool :=
  match s with
  | "" => true
  | String c s' => digit c && all_digits s'
  end.

Definition special (c : ascii) : bool :=
  bool_decide (c = "."%char) || bool_decide (c = "["%char)
  || bool_decide (c = "!"%char) || bool_decide (c = ":"%char)
  || bool_decide (c = "{"%char).

Fixpoint lookup_kw (name : string) (kwargs : list (string * value))
  : option value :=
  match kwargs with
  | [] => None
  | (k, v) :: rest => if bool_decide (k = name) then Some v else lookup_kw name rest
  end.

(** The largest index of a sequence, on a 64-bit build. *)
Definition PY_SSIZE_T_MAX : Z := 9223372036854775807.

(** The number an all-digit name denotes, read digit by digit; [None]
    when it passes [PY_SSIZE_T_MAX]. *)
Fixpoint get_integer (accumulator : Z) (s : string) : option Z :=
  match s with
  | "" => Some accumulator
  | String c s' =>
      let digitval := (Z.of_nat (nat_of_ascii c) - 48)%Z in
      if (accumulator >? (PY_SSIZE_T_MAX - digitval) / 10)%Z then None
      else get_integer (accumulator * 10 + digitval) s'
  end.

(** The value of the field [name]: without positional arguments an
    empty or numeric name is an [IndexError], a number with too many
    digits a [ValueError], an unknown name a [KeyError]. *)
Definition field (render : value -> string) (kwargs : list (string * value))
    (name : string) : result string :=
  if Text.eqb name "" then Raise IndexError
  else if all_digits name then
    match get_integer 0 name with
    | Some _ => Raise IndexError
    | None => Raise (ValueError "Too many decimal digits in format string")
    end
  else match lookup_kw name kwargs with
       | Some v => Ok (render v)
       | None => Raise (KeyError name)
       end.

(** [inside] is [None] in literal text and [Some acc] inside a field
    whose name read so far is [acc], reversed. *)
Fixpoint go (render : value -> string) (kwargs : list (string * value))
    (inside : option string) (s : string) : result string :=
  match inside with
  | None =>
      match s with
      | "" => Ok ""
      | String c s' =>
          if bool_decide (c = "{"%char) then
            match s' with
            | String d s'' =>
                if bool_decide (d = "{"%char)
                then out ← go render kwargs None s''; Ok (String "{" out)
                else go render kwargs (Some "") s'
            | "" => Raise (ValueError "Single '{' encountered in format string")
            end
          else if bool_decide (c = "}"%char) then
            match s' with
            | String d s'' =>
                if bool_decide (d = "}"%char)
                then out ← go render kwargs None s''; Ok (String "}" out)
                else Raise (ValueError "Single '}' encountered in format string")
            | "" => Raise (ValueError "Single '}' encountered in format string")
            end
          else out ← go render kwargs None s'; Ok (String c out)
      end
  | Some acc =>
      match s with
      | "" => Raise (ValueError "unmatched '{' in format")
      | String c s' =>
          if bool_decide (c = "}"%char) then
            t ← field render kwargs (Text.rev acc);
            out ← go render kwargs None s';
            Ok (t +:+ out)
          else if special c then Raise (Unmodelled "format field")
          else go render kwargs (Some (String c acc)) s'
      end
  end.

Definition format (render : value -> string) (template : string)
    (kwargs : list (string * value)) : result string :=
  go render kwargs None template.

End Format.

(** ** The urls of categories, tags and authors *)

Definition wrapper_class_name (c : wrapper_class) : string :=
  match c with
  | URLWrapperC => "URLWrapper"
  | CategoryC => "Category"
  | TagC => "Tag"
  | AuthorC => "Author"
  end.

(** [URLWrapper.as_dict]: the attributes of the instance. *)
Definition as_dict (w : URLWrapper) : list (string * value) :=
  [("name", VStr (name w)); ("slug", VStr (slug w));
   ("settings", VDict (map_to_list (w_settings w)))].

(** [URLWrapper.__str__] *)
Definition URLWrapper_str (w : URLWrapper) : string := name w.

Section WrapperURLs.
Variable repr_builtin : value -> string.

(** [URLWrapper._from_settings]: a setting that is not text is returned
    as it is, after a warning in the log. *)
Definition _from_settings (w : URLWrapper) (key : string) (get_page_name : bool)
  : result value :=
  let setting := Text.upper (wrapper_class_name (w_class w)) +:+ "_" +:+ key in
  v ← getitem (w_settings w) setting;
  match v with
  | VStr template =>
      let template :=
        if get_page_name then (posixpath.splitext template).1 else template in
      text ← Format.format (unicode_ repr_builtin) template (as_dict w);
      Ok (VStr text)
  | _ => Ok v
  end.

Definition URLWrapper_page_name (w : URLWrapper) : result value :=
  _from_settings w "URL" true.
Definition URLWrapper_url (w : URLWrapper) : result value :=
  _from_settings w "URL" false.
Definition URLWrapper_save_as (w : URLWrapper) : result value :=
  _from_settings w "SAVE_AS" false.

End WrapperURLs.

(** ** Page, Article, Quote *)

Inductive page_class := PageC | ArticleC | QuoteC.

(** [self.__class__.__name__] *)
Definition class_name (c : page_class) : string :=
  match c with
  | PageC => "Page"
  | ArticleC => "Article"
  | QuoteC => "Quote"
  end.

Definition mandatory_properties (c : page_class) : list string :=
  match c with
  | ArticleC => ["title"; "date"; "category"]
  | PageC | QuoteC => ["title"]
  end.

Definition default_template (c : page_class) : string :=
  match c with
  | ArticleC => "article"
  | PageC | QuoteC => "page"
  end.

(** A content object.  [settings], [_content], [translations] and
    [metadata] are the attributes [__init__] binds under fixed names;
    [attrs] holds every other attribute of the instance, among them those
    set from the metadata.  [hasattr(self, a)] is [attrs !! a] being
    [Some _], for the names kept there. *)
Record Page := mkPage {
  cls : page_class;
  settings : Settings;
  _content : string;
  translations : list value;
  metadata : gmap string value;
  attrs : gmap string value;
}.

(** The site-wide state shared by the content objects: [self._context].
    It belongs to the caller, so it is passed to the methods that read it. *)
Record Context := mkContext {
  filenames : gmap string Page;
  localsiteurl : string;
}.

Definition Locale := string.

(** [getattr(self, a)] *)
Definition getattr (a : gmap string value) (attr : string) : result value :=
  match a !! attr with
  | Some v => Ok v
  | None => Raise (AttributeError attr)
  end.

(** Properties of the class without a setter. *)
Definition readonly_properties : list string :=
  ["url_format"; "content"; "url"; "save_as"; "relative_dir"].

(** Names the code reads through [self] that are not kept in [attrs]:
    an instance attribute of such a name would take the place of a
    method, of a class constant or of a field that [__init__] has bound
    before the loop over the metadata, and the object would no longer be
    one this record describes.  [metadata] is not among them: the loop
    may bind it, and [__init__] binds it again right after. *)
Definition shadowing (attr : string) : bool :=
  Text.startswith attr "__"
  || bool_decide (attr ∈ ["settings"; "_content"; "_context"; "_get_content";
                          "translations"; "mandatory_properties";
                          "default_template"; "check_properties";
                          "_expand_settings"; "get_url_setting";
                          "_update_content"; "get_content"; "_get_template";
                          "get_relative_filename"; "_get_summary";
                          "_set_summary"]).

(** [setattr(self, attr, v)]: [summary] is a property whose setter does
    nothing, the properties without a setter refuse the assignment.
    Python takes a name of [shadowing] like any other; the object it
    makes is not one of this record, and the run is marked as outside
    the fragment. *)
Definition setattr (a : gmap string value) (attr : string) (v : value)
  : result (gmap string value) :=
  if Text.eqb attr "summary" then Ok a
  else if bool_decide (attr ∈ readonly_properties)
  then Raise (AttributeError "can't set attribute")
  else if shadowing attr then Raise (Unmodelled attr)
  else Ok (<[attr := v]> a).

(** [for key, value in items: setattr(self, key.lower(), value)] *)
Fixpoint setattr_all (items : list (string * value)) (a : gmap string value)
  : result (gmap string value) :=
  match items with
  | [] => Ok a
  | (key, v) :: rest => a' ← setattr a (Text.lower key) v; setattr_all rest a'
  end.

(** The attributes once [__init__] has run the loop over the merged
    metadata and bound [metadata] to them (l.46-50). *)
Definition after_loop (items : list (string * value))
  : result (gmap string value) :=
  a ← setattr_all items ∅; Ok (delete "metadata" a).

(** The pairs of [dict(pairs)]; a later pair wins over an earlier one. *)
Fixpoint dict_of_pairs (items : list value) : result (gmap string value) :=
  match items with
  | [] => Ok ∅
  | VTuple [VStr k; v] :: rest => d ← dict_of_pairs rest;
      Ok (match d !! k with Some _ => d | None => <[k := v]> d end)
  | _ => Raise (Unmodelled "dict")
  end.

(** [dict(v)] *)
Definition dict_of (v : value) : result (gmap string value) :=
  match v with
  | VTuple items => dict_of_pairs items
  | VDict items => Ok (list_to_map items)
  | VNone | VBool _ | VInt _ | VDatetime _ | VDate _ | VWrapper _ _ _ =>
      Raise (TypeError "object is not iterable")
  | VStr _ => Raise (Unmodelled "dict")
  end.

(** [v == t] for a text [t]: text compares by content, a wrapper through
    [URLWrapper.__eq__], anything else is different from text. *)
Definition eq_text (v : value) (t : string) : bool :=
  match v with
  | VStr s => Text.eqb s t
  | VWrapper _ n _ => Text.eqb n t
  | _ => false
  end.

(** [seq[i]] on a tuple *)
Definition index (items : list value) (i : nat) : result value :=
  match items !! i with
  | Some v => Ok v
  | None => Raise IndexError
  end.

(** [dict(settings.get('DEFAULT_METADATA', ()))] *)
Definition default_metadata (settings : Settings) : result (gmap string value) :=
  match settings !! "DEFAULT_METADATA" with
  | Some v => dict_of v
  | None => Ok ∅
  end.

Section Content.

(** [pelican.utils.slugify] *)
Variable slugify : string -> string.
(** [unicode(x)] and [str(x)] of a builtin object that is not text *)
Variable repr_builtin : value -> string.
(** [pelican.settings._DEFAULT_CONFIG] *)
Variable _DEFAULT_CONFIG : Settings.
(** [d.items()]: the pairs of a dict, in the order of its hash table *)
Variable dict_items : gmap string value -> list (string * value).
(** [datetime.now()] *)
Variable now : Z.
(** [locale.setlocale(locale.LC_ALL, name)], from the current locale *)
Variable setlocale : Locale -> string -> result Locale.
(** [date.strftime(fmt.encode(..)).decode(..)] under a locale, for the
    instant of a datetime; a date is formatted as its midnight *)
Variable strftime : Locale -> Z -> string -> result string.
(** [pelican.utils.truncate_html_words] *)
Variable truncate_html_words : string -> value -> string.
(** [os.getcwd()] *)
Variable cwd : string.

Abbreviation unicode := (unicode_ repr_builtin).

(** *** Page.__init__ *)

(** [self._get_template()] *)
Definition _get_template (c : page_class) (a : gmap string value) : value :=
  match a !! "template" with
  | Some VNone | None => VStr (default_template c)
  | Some t => t
  end.

(** default author to the one in settings if not defined *)
Definition init_author (settings : Settings) (a : gmap string value)
  : gmap string value :=
  match a !! "author" with
  | Some _ => a
  | None =>
      match settings !! "AUTHOR" with
      | Some n =>
          <["author" := wrapper_value (Author slugify repr_builtin n settings)]> a
      | None => a
      end
  end.

(** manage languages *)
Definition init_lang (settings : Settings) (a : gmap string value)
  : result (gmap string value) :=
  let a := <["in_default_lang" := VBool true]> a in
  match settings !! "DEFAULT_LANG" with
  | None => Ok a
  | Some (VStr d) =>
      let default_lang := Text.lower d in
      let a := match a !! "lang" with
               | Some _ => a
               | None => <["lang" := VStr default_lang]> a
               end in
      lang ← getattr a "lang";
      Ok (<["in_default_lang" := VBool (eq_text lang default_lang)]> a)
  | Some _ => Raise (AttributeError "lower")
  end.

(** create the slug if not existing, from the title *)
Definition init_slug (a : gmap string value) : gmap string value :=
  match a !! "slug", a !! "title" with
  | None, Some title => <["slug" := VStr (slugify (unicode title))]> a
  | _, _ => a
  end.

Definition init_filename (filename : option string) (a : gmap string value)
  : gmap string value :=
  match filename with
  | Some f => if Text.eqb f "" then a else <["filename" := VStr f]> a
  | None => a
  end.

(** manage the date format *)
Definition init_date_format (settings : Settings) (a : gmap string value)
    (loc : Locale) : result (gmap string value * Locale) :=
  a ← match a !! "date_format" with
      | Some _ => Ok a
      | None =>
          for_lang ← match a !! "lang" with
                     | None => Ok None
                     | Some lang =>
                         formats ← getitem settings "DATE_FORMATS";
                         match formats, lang with
                         | VDict d, VStr l => Ok (Format.lookup_kw l d)
                         | _, _ => Raise (Unmodelled "DATE_FORMATS")
                         end
                     end;
          match for_lang with
          | Some f => Ok (<["date_format" := f]> a)
          | None =>
              f ← getitem settings "DEFAULT_DATE_FORMAT";
              Ok (<["date_format" := f]> a)
          end
      end;
  date_format ← getattr a "date_format";
  match date_format with
  | VTuple items =>
      name ← index items 0;
      loc ← match name with
            | VStr n => setlocale loc n
            | VNone => Ok loc
            | _ => Raise (Unmodelled "setlocale")
            end;
      fmt ← index items 1;
      Ok (<["date_format" := fmt]> a, loc)
  | _ => Ok (a, loc)
  end.

Definition init_locale_date (a : gmap string value) (loc : Locale)
  : result (gmap string value) :=
  match a !! "date" with
  | None => Ok a
  | Some (VDatetime t) | Some (VDate t) =>
      date_format ← getattr a "date_format";
      match date_format with
      | VStr fmt =>
          locale_date ← strftime loc t fmt;
          Ok (<["locale_date" := VStr locale_date]> a)
      | _ => Raise (AttributeError "encode")
      end
  | Some _ => Raise (AttributeError "strftime")
  end.

(** manage status *)
Definition init_status (settings : Settings) (a : gmap string value)
  : result (gmap string value) :=
  match a !! "status" with
  | Some _ => Ok a
  | None =>
      default_status ← getitem settings "DEFAULT_STATUS";
      let a := <["status" := default_status]> a in
      with_future_dates ← getitem settings "WITH_FUTURE_DATES";
      if negb (truthy with_future_dates) then
        match a !! "date" with
        | Some (VDatetime t) =>
            if (now <? t)%Z then Ok (<["status" := VStr "draft"]> a) else Ok a
        | Some _ => Raise (TypeError "can't compare datetime.datetime")
        | None => Ok a
        end
      else Ok a
  end.

(** store the summary metadata if it is set *)
Definition init_summary (metadata : gmap string value) (a : gmap string value)
  : gmap string value :=
  match metadata !! "summary" with
  | Some summary => <["_summary" := summary]> a
  | None => a
  end.

(** [Page.__init__(content, metadata, settings, filename)] for the class
    [c], run under the locale [loc]; the result is the object and the
    locale the process is left in.  [signals.content_object_init.send] hands
    the object to the listeners and takes nothing back. *)
Definition Page_init (c : page_class) (content : string)
    (metadata : option (gmap string value)) (settings : option Settings)
    (filename : option string) (loc : Locale) : result (Page * Locale) :=
  let metadata := default ∅ metadata in
  let settings :=
    match settings with
    | Some s => if bool_decide (s = ∅) then _DEFAULT_CONFIG else s
    | None => _DEFAULT_CONFIG
    end in
  defaults ← default_metadata settings;
  let local_metadata := metadata ∪ defaults in
  a ← setattr_all (dict_items local_metadata) ∅;
  (* self.metadata = local_metadata: whatever the loop bound to the
     name, it is the merged metadata from here on *)
  let a := delete "metadata" a in
  let a := <["template" := _get_template c a]> a in
  let a := init_author settings a in
  a ← init_lang settings a;
  let a := init_slug a in
  let a := init_filename filename a in
  '(a, loc) ← init_date_format settings a loc;
  a ← init_locale_date a loc;
  a ← init_status settings a;
  let a := init_summary metadata a in
  Ok ({| cls := c; settings := settings; _content := content;
         translations := []; metadata := local_metadata; attrs := a |}, loc).

(** *** Validation *)

Fixpoint check_each (props : list string) (a : gmap string value)
  : result unit :=
  match props with
  | [] => Ok ()
  | prop :: rest =>
      match a !! prop with
      | Some _ => check_each rest a
      | None => Raise (NameError prop)
      end
  end.

(** [Page.check_properties] *)
Definition check_properties (self : Page) : result unit :=
  check_each (mandatory_properties (cls self)) (attrs self).

(** [is_valid_content] *)
Definition is_valid_content (content : Page) : result bool :=
  match check_properties content with
  | Ok _ => Ok true
  | Raise (NameError _) => Ok false
  | Raise e => Raise e
  end.

(** *** URLs *)

(** [Page.url_format] *)
Definition url_format (self : Page) : result (list (string * value)) :=
  default_category ← getitem (settings self) "DEFAULT_CATEGORY";
  Ok [("slug", default (VStr "") (attrs self !! "slug"));
      ("lang", default (VStr "en") (attrs self !! "lang"));
      ("date", default (VDatetime now) (attrs self !! "date"));
      ("author", default (VStr "") (attrs self !! "author"));
      ("category", default default_category (attrs self !! "category"))].

(** [Page._expand_settings] *)
Definition _expand_settings (self : Page) (key : string) : result string :=
  let fq_key := Text.upper (class_name (cls self) +:+ "_" +:+ key) in
  template ← getitem (settings self) fq_key;
  match template with
  | VStr t => kwargs ← url_format self; Format.format unicode t kwargs
  | _ => Raise (AttributeError "format")
  end.

(** [Page.get_url_setting] *)
Definition get_url_setting (self : Page) (key : string) : result string :=
  in_default_lang ← getattr (attrs self) "in_default_lang";
  let key := if truthy in_default_lang then key else "lang_" +:+ key in
  _expand_settings self key.

Definition url (self : Page) : result string := get_url_setting self "url".
Definition save_as (self : Page) : result string := get_url_setting self "save_as".

(** *** Paths *)

Definition as_path (what : string) (v : value) : result string :=
  match v with
  | VStr s => Ok s
  | _ => Raise (Unmodelled what)
  end.

(** [Page.get_relative_filename(filename)], [""] standing for no
    filename given. *)
Definition get_relative_filename (self : Page) (filename : string)
  : result string :=
  filename ← (if Text.eqb filename ""
              then getattr (attrs self) "filename" ≫= as_path "filename"
              else Ok filename);
  path ← getitem (settings self) "PATH" ≫= as_path "PATH";
  posixpath.relpath cwd
    (posixpath.abspath cwd (posixpath.join path filename))
    (posixpath.abspath cwd path).

(** [Page.relative_dir] *)
Definition relative_dir (self : Page) : result string :=
  filename ← getattr (attrs self) "filename" ≫= as_path "filename";
  path ← getitem (settings self) "PATH" ≫= as_path "PATH";
  rel ← posixpath.relpath cwd (posixpath.abspath cwd filename)
                          (posixpath.abspath cwd path);
  Ok (posixpath.dirname rel).

(** *** Link rewriting *)

(** The [replacer] of [_update_content].  The warning logged for a
    missing file is a diagnostic and leaves no trace in the result. *)
Definition replacer (self : Page) (_context : option Context)
    (m : Re.groups) : result string :=
  what ← Re.group m "what";
  value ← Re.group m "value";
  origin ← Re.group m "path";
  origin ←
    (if Text.eqb what "filename" then
       value ← match Text.strip_prefix "/" value with
               | Some rest => Ok rest
               | None =>
                   dir ← relative_dir self;
                   get_relative_filename self (posixpath.join dir value)
               end;
       match _context with
       | None => Raise (TypeError "'NoneType' object is not subscriptable")
       | Some context =>
           match filenames context !! value with
           | Some target => url target
           | None => Ok origin
           end
       end
     else Ok origin);
  markup ← Re.group m "markup";
  quote ← Re.group m "quote";
  Ok (markup +:+ quote +:+ origin +:+ quote).

(** [Page._update_content] *)
Definition _update_content (self : Page) (_context : option Context)
    (content : string) (siteurl : string) : result string :=
  Re.sub hrefs (replacer self _context) content.

(** Modelled from the spec: the decorator [memoized] of pelican.utils,
    which is not in this file.  The result of a call is kept per argument
    and returned without a new call when the argument comes again. *)
Definition memoized (f : string -> result string)
    (cache : gmap string string) (arg : string)
  : result (string * gmap string string) :=
  match cache !! arg with
  | Some v => Ok (v, cache)
  | None => v ← f arg; Ok (v, <[arg := v]> cache)
  end.

(** The body of [Page.get_content]; no [_get_content] hook is installed
    on the objects modelled here. *)
Definition get_content (self : Page) (_context : option Context)
    (siteurl : string) : result string :=
  _update_content self _context (_content self) siteurl.

(** [Page.get_content] as decorated: the cache of the object maps a
    siteurl to the content rewritten for it. *)
Definition get_content_memoized (self : Page) (_context : option Context)
    (cache : gmap string string) (siteurl : string)
  : result (string * gmap string string) :=
  memoized (get_content self _context) cache siteurl.

(** [Page.content] *)
Definition content (self : Page) (_context : option Context)
  : result string :=
  match _context with
  | None => Raise (TypeError "'NoneType' object is not subscriptable")
  | Some context => get_content self _context (localsiteurl context)
  end.

(** *** Summary *)

(** [Page._get_summary] *)
Definition _get_summary (self : Page) (_context : option Context)
  : result value :=
  match attrs self !! "_summary" with
  | Some summary => Ok summary
  | None =>
      max_length ← getitem (settings self) "SUMMARY_MAX_LENGTH";
      text ← content self _context;
      if truthy max_length
      then Ok (VStr (truncate_html_words text max_length))
      else Ok (VStr text)
  end.

(** [Page._set_summary]: Dummy function *)
Definition _set_summary (self : Page) (summary : value) : result Page :=
  Ok self.

End Content.

(** ** StaticContent *)

Record StaticContent := mkStaticContent {
  src : string;
  static_url : string;
  filepath : string;
  static_save_as : string;
}.

Section Static.
Variable _DEFAULT_CONFIG : Settings.

(** [StaticContent.__init__(src, dst, settings)] *)
Definition StaticContent_init (src_ : string) (dst : option string)
    (settings : option Settings) : result StaticContent :=
  let settings :=
    match settings with
    | Some s => if bool_decide (s = ∅) then _DEFAULT_CONFIG else s
    | None => _DEFAULT_CONFIG
    end in
  let url_ :=
    match dst with
    | Some d => if Text.eqb d "" then src_ else d
    | None => src_
    end in
  path ← getitem settings "PATH" ≫= as_path "PATH";
  output_path ← getitem settings "OUTPUT_PATH" ≫= as_path "OUTPUT_PATH";
  Ok {| src := src_; static_url := url_;
        filepath := posixpath.join path src_;
        static_save_as := posixpath.join output_path url_ |}.

End Static.

(** [StaticContent.__unicode__] and, on ASCII text, [__str__] *)
Definition StaticContent_unicode (sc : StaticContent) : string := filepath sc.

(** ** Inputs a construction accepts *)

Definition is_text (v : value) : bool :=
  match v with VStr _ => true | _ => false end.

Definition is_datetime (v : value) : bool :=
  match v with VDatetime _ => true | _ => false end.

(** A metadata entry that [__init__] takes without an exception: its
    attribute can be set, a date is a datetime, a language and a date
    format are text. *)
Definition accepted (key : string) (v : value) : bool :=
  let attr := Text.lower key in
  negb (bool_decide (attr ∈ readonly_properties)) && negb (shadowing attr)
  && (if Text.eqb attr "date" then is_datetime v
      else if Text.eqb attr "lang" || Text.eqb attr "date_format" then is_text v
      else true).

(** Settings that hold what [__init__] reads: a default language that is
    text if there is one, date formats that are text, a default status and
    the switch for future dates. *)
Definition complete (settings : Settings) : Prop :=
  settings ≠ ∅
  ∧ (settings !! "DEFAULT_LANG" = None ∨ ∃ d, settings !! "DEFAULT_LANG" = Some (VStr d))
  ∧ (∃ formats, settings !! "DATE_FORMATS" = Some (VDict formats)
       ∧ ∀ l f, Format.lookup_kw l formats = Some f → is_text f = true)
  ∧ (∃ f, settings !! "DEFAULT_DATE_FORMAT" = Some (VStr f))
  ∧ is_Some (settings !! "DEFAULT_STATUS")
  ∧ is_Some (settings !! "WITH_FUTURE_DATES").

(** The attributes whose type the later steps of [__init__] rely on. *)
Definition typed (a : gmap string value) : Prop :=
  (∀ v, a !! "date" = Some v → is_datetime v = true)
  ∧ (∀ v, a !! "lang" = Some v → is_text v = true)
  ∧ (∀ v, a !! "date_format" = Some v → is_text v = true).

(** ** Vocabulary of the statements *)

(** The opening of a tag up to the equals sign of an href or src
    attribute: no closing bracket before the attribute name, blanks at
    most between the name and the sign. *)
Definition attribute_markup (markup : string) : Prop :=
  ∃ lead attr blanks,
    (attr = "href" ∨ attr = "src")
    ∧ Text.all (Re.not_ ">") lead = true
    ∧ Text.all Re.space blanks = true
    ∧ markup = "<" +:+ lead +:+ attr +:+ blanks +:+ "=".

(** The single or the double quote. *)
Definition quote_mark (quote : string) : Prop :=
  quote = "'" ∨ quote = String "034" "".

(** Text without a brace: a template that names no field. *)
Definition brace_free (s : string) : bool :=
  Text.all (λ c, negb (bool_decide (c = "{"%char) || bool_decide (c = "}"%char))) s.

(** Text made of blanks only. *)
Definition blank (s : string) : bool := Text.all Text.is_unicode_space s.

(** The date format [__init__] picks for an object without one of its
    own: the format of its language when DATE_FORMATS has one, the
    default format otherwise. *)
Definition format_for (settings : Settings) (lang : option value) : option value :=
  match lang with
  | None => settings !! "DEFAULT_DATE_FORMAT"
  | Some (VStr l) =>
      match settings !! "DATE_FORMATS" with
      | Some (VDict formats) =>
          match Format.lookup_kw l formats with
          | Some f => Some f
          | None => settings !! "DEFAULT_DATE_FORMAT"
          end
      | _ => None
      end
  | Some _ => None
  end.

Section Vocabulary.
Variable repr_builtin : value -> string.
Variable _DEFAULT_CONFIG : Settings.
Variable now : Z.
Variable cwd : string.

(** The settings an object ends up with. *)
Definition effective_settings (settings : option Settings) : Settings :=
  match settings with
  | Some s => if bool_decide (s = ∅) then _DEFAULT_CONFIG else s
  | None => _DEFAULT_CONFIG
  end.

(** Whether a date lies after the clock reading [now]. *)
Definition in_future (date : option value) : bool :=
  match date with
  | Some (VDatetime t) => (now <? t)%Z
  | _ => false
  end.

(** The parameter mapping of [url_format]. *)
Definition parameters (self : Page) (default_category : value)
  : list (string * value) :=
  [("slug", default (VStr "") (attrs self !! "slug"));
   ("lang", default (VStr "en") (attrs self !! "lang"));
   ("date", default (VDatetime now) (attrs self !! "date"));
   ("author", default (VStr "") (attrs self !! "author"));
   ("category", default default_category (attrs self !! "category"))].

(** The settings key of a template: "ARTICLE_URL", "PAGE_LANG_SAVE_AS", ... *)
Definition template_key (c : page_class) (in_default_lang : bool) (key : string)
  : string :=
  Text.upper (class_name c) +:+ (if in_default_lang then "_" else "_LANG_")
  +:+ Text.upper key.



(** The text of a match, from its groups. *)
Definition matched (m : Re.groups) : result string :=
  markup ← Re.group m "markup";
  quote ← Re.group m "quote";
  path ← Re.group m "path";
  Ok (markup +:+ quote +:+ path +:+ quote).

(** A cache that holds only what [get_content] returns. *)
Definition coherent (self : Page) (_context : option Context)
    (cache : gmap string string) : Prop :=
  ∀ siteurl text, cache !! siteurl = Some text →
                  get_content repr_builtin now cwd self _context siteurl = Ok text.

End Vocabulary.

(** ** Sample inputs *)

Module Sample.

(** Stand-ins for what the module imports. *)
Definition slugify : string → string := Text.lower.
Definition repr_builtin : value → string := λ _, "<object>".
Definition hash : string → Z := λ s, Z.of_nat (String.length s).
Definition dict_items : gmap string value → list (string * value) := map_to_list.
Definition now : Z := 1000.
Definition setlocale : Locale → string → result Locale := λ _ name, Ok name.
Definition strftime : Locale → Z → string → result string := λ _ _ fmt, Ok fmt.
Definition truncate_html_words : string → value → string := λ text _, text.
Definition cwd : string := "/home/site".

Definition config : Settings :=
  list_to_map
    [("PATH", VStr "content"); ("DEFAULT_LANG", VStr "en");
     ("DATE_FORMATS", VDict []); ("DEFAULT_DATE_FORMAT", VStr "%a %d %B %Y");
     ("DEFAULT_STATUS", VStr "published"); ("WITH_FUTURE_DATES", VBool false);
     ("DEFAULT_CATEGORY", VStr "misc"); ("SUMMARY_MAX_LENGTH", VInt 50);
     ("AUTHOR", VStr "Alexis");
     ("ARTICLE_URL", VStr "{slug}.html");
     ("ARTICLE_LANG_URL", VStr "{lang}/{slug}.html");
     ("PAGE_URL", VStr "pages/{slug}.html");
     ("PAGE_LANG_URL", VStr "pages/{slug}-{lang}.html")].

Definition construct (c : page_class) (content : string)
    (metadata : list (string * value)) (filename : option string)
  : result (Page * Locale) :=
  Page_init slugify repr_builtin ∅ dict_items now setlocale strftime
    c content (Some (list_to_map metadata)) (Some config) filename "C".

(** The object of a construction, for runs that are known to succeed. *)
Definition object (r : result (Page * Locale)) : Page :=
  match r with
  | Ok (e, _) => e
  | Raise _ => mkPage PageC ∅ "" [] ∅ ∅
  end.

End Sample.

Module Site.
Import Sample.

(** A small site: a page that refers to other files, and the files it
    refers to. *)
Definition referrer : Page :=
  object (construct PageC "" [("title", VStr "Referrer")] (Some "content/posts/a.md")).

Definition picture : Page :=
  object (construct PageC "" [("title", VStr "Picture"); ("slug", VStr "x")] None).

Definition sibling : Page :=
  object (construct ArticleC ""
            [("title", VStr "Sibling"); ("slug", VStr "b"); ("lang", VStr "fr")] None).

Definition context : Context :=
  {| filenames := list_to_map [("images/x.png", picture); ("posts/b.md", sibling)];
     localsiteurl := "." |}.

Definition rewrite (content : string) : result string :=
  _update_content repr_builtin now cwd referrer (Some context) content ".".

End Site.

(** An article in the default language. *)
Definition article_en : Page :=
  Sample.object (Sample.construct ArticleC ""
                    [("title", VStr "Foo"); ("slug", VStr "foo")] None).

(** A page in French on a site whose default language is English. *)
Definition metadata_fr : gmap string value :=
  list_to_map [("title", VStr "Bonjour"); ("lang", VStr "fr")].

Definition page_fr : Page :=
  Sample.object (Sample.construct PageC ""
                    [("title", VStr "Bonjour"); ("lang", VStr "fr")] None).

(** A page dated after the clock reading, without a status. *)
Definition metadata_tomorrow : gmap string value :=
  list_to_map [("title", VStr "Soon"); ("date", VDatetime 2000)].

Definition page_tomorrow : Page :=
  Sample.object (Sample.construct PageC ""
                    [("title", VStr "Soon"); ("date", VDatetime 2000)] None).

(** A page dated after the clock reading whose metadata give a status
    and a summary. *)
Definition metadata_explicit : gmap string value :=
  list_to_map [("title", VStr "Old"); ("date", VDatetime 2000);
               ("status", VStr "published"); ("summary", VStr "In <b>short</b>")].

Definition page_explicit : Page :=
  Sample.object (Sample.construct PageC "Body"
                    [("title", VStr "Old"); ("date", VDatetime 2000);
                     ("status", VStr "published");
                     ("summary", VStr "In <b>short</b>")] None).

(** An article whose metadata spell their keys with capitals, and give
    no date. *)
Definition metadata_cased : gmap string value :=
  list_to_map [("Title", VStr "Cased"); ("Category", VStr "News")].

Definition page_cased : Page :=
  Sample.object (Sample.construct ArticleC ""
                    [("Title", VStr "Cased"); ("Category", VStr "News")] None).

(** A dated page in French on a site that formats French dates under a
    French locale. *)
Definition config_fr : Settings :=
  <["DATE_FORMATS" := VDict [("fr", VTuple [VStr "fr_FR"; VStr "%d %B %Y"])]]>
    Sample.config.

Definition metadata_dated : gmap string value :=
  list_to_map [("title", VStr "Bonjour"); ("lang", VStr "fr");
               ("date", VDatetime 500)].

Definition page_dated : Page :=
  Sample.object
    (Page_init Sample.slugify Sample.repr_builtin ∅ Sample.dict_items Sample.now
       Sample.setlocale Sample.strftime PageC "" (Some metadata_dated)
       (Some config_fr) None "C").

(** A page whose date is a date, not a datetime, with a status of its
    own. *)
Definition metadata_day : gmap string value :=
  list_to_map [("title", VStr "Jour"); ("date", VDate 500);
               ("status", VStr "published")].

Definition page_day : Page :=
  Sample.object (Sample.construct PageC ""
                    [("title", VStr "Jour"); ("date", VDate 500);
                     ("status", VStr "published")] None).

(** A page without a summary on a site whose default metadata hold
    one. *)
Definition config_summary : Settings :=
  <["DEFAULT_METADATA" :=
      VTuple [VTuple [VStr "summary"; VStr "A summary for every page"]]]>
    Sample.config.

Definition metadata_plain : gmap string value :=
  list_to_map [("title", VStr "Plain")].

Definition page_plain : Page :=
  Sample.object
    (Page_init Sample.slugify Sample.repr_builtin ∅ Sample.dict_items Sample.now
       Sample.setlocale Sample.strftime PageC "Body text" (Some metadata_plain)
       (Some config_summary) None "C").

(** The home page of a site that writes its pages to one fixed file. *)
Definition config_home : Settings :=
  <["PAGE_SAVE_AS" := VStr "index.html"]> Sample.config.

Definition page_home : Page :=
  Sample.object
    (Page_init Sample.slugify Sample.repr_builtin ∅ Sample.dict_items Sample.now
       Sample.setlocale Sample.strftime PageC "" (Some metadata_plain)
       (Some config_home) None "C").

(** A draft on a site whose default metadata spell a status with a
    capital. *)
Definition config_status : Settings :=
  <["DEFAULT_METADATA" :=
      VTuple [VTuple [VStr "category"; VStr "misc"];
              VTuple [VStr "lang"; VStr "en"];
              VTuple [VStr "Status"; VStr "published"]]]>
    Sample.config.

Definition metadata_draft : gmap string value :=
  list_to_map [("title", VStr "Old"); ("status", VStr "draft")].

(** Metadata with a key that spells a property without a setter. *)
Definition metadata_url : gmap string value :=
  list_to_map [("title", VStr "Clash"); ("URL", VStr "clash.html")].

Definition metadata_referrer : gmap string value :=
  list_to_map [("title", VStr "Referrer")].

(** A category on a site that gives categories a url. *)
Definition category_misc : URLWrapper :=
  Category Sample.slugify Sample.repr_builtin (VStr "Misc")
    (list_to_map [("CATEGORY_URL", VStr "category/{slug}.html")]).

(** Settings for the static files, and a context that knows no file. *)
Definition config_static : Settings :=
  list_to_map [("PATH", VStr "content"); ("OUTPUT_PATH", VStr "output")].

Definition stylesheet : StaticContent :=
  {| src := "css/main.css"; static_url := "theme/main.css";
     filepath := "content/css/main.css";
     static_save_as := "output/theme/main.css" |}.

Definition context_empty : Context :=
  {| filenames := ∅; localsiteurl := "." |}.

(** * Properties *)

(** ** Text *)

Module TextFacts.

Lemma app_cons c s t : String c s +:+ t = String c (s +:+ t).
Proof. reflexivity. Qed.

Lemma app_nil_r s : s +:+ "" = s.
Proof.
  induction s as [|c s IH]; [reflexivity|].
  rewrite app_cons. by f_equal.
Qed.

Lemma app_assoc s t u : (s +:+ t) +:+ u = s +:+ (t +:+ u).
Proof.
  induction s as [|c s IH]; [reflexivity|].
  rewrite !app_cons. by f_equal.
Qed.

Lemma length_app s t :
  String.length (s +:+ t) = String.length s + String.length t.
Proof.
  induction s as [|c s IH]; [reflexivity|].
  rewrite app_cons. simpl. by rewrite IH.
Qed.

Lemma eqb_eq s t : Text.eqb s t = true ↔ s = t.
Proof. unfold Text.eqb. by rewrite bool_decide_eq_true. Qed.

Lemma eqb_refl s : Text.eqb s s = true.
Proof. by apply eqb_eq. Qed.

Lemma strip_prefix_app p s s' :
  Text.strip_prefix p s = Some s' → s = p +:+ s'.
Proof.
  revert s. induction p as [|a p IH]; intros s H.
  - simpl in H. by injection H as ->.
  - destruct s as [|b s]; simpl in H; [done|].
    case_bool_decide; [|done]. subst b.
    rewrite app_cons. f_equal. by apply IH.
Qed.

Lemma strip_prefix_refl p s : Text.strip_prefix p (p +:+ s) = Some s.
Proof.
  induction p as [|a p IH]; [reflexivity|].
  rewrite app_cons. simpl. by rewrite bool_decide_eq_true_2.
Qed.

End TextFacts.

(** ** The matcher *)

Module ReFacts.
Import TextFacts.

Lemma take_app w s : Re.take (String.length w) (w +:+ s) = w.
Proof.
  induction w as [|c w IH]; simpl.
  - by destruct s.
  - by f_equal.
Qed.

(** The text between a position and a later one is what was read. *)
Lemma consumed_app w s : Re.consumed (w +:+ s) s = w.
Proof.
  unfold Re.consumed. rewrite length_app.
  replace (String.length w + String.length s - String.length s)
    with (String.length w) by lia.
  apply take_app.
Qed.

Section Stars.
Context {A : Type}.
Implicit Types (p : ascii → bool) (k : string → option A).

(** What a star reads is a prefix of the text made of characters of
    its class, and the match it returns is the one of the rest of the
    pattern after it. *)
Lemma star_sound p k s x :
  Re.star p k s = Some x →
  ∃ w s', s = w +:+ s' ∧ Text.all p w = true ∧ k s' = Some x.
Proof.
  induction s as [|c s IH]; simpl; intros H.
  - by exists "", "".
  - destruct (p c) eqn:Hc.
    + destruct (Re.star p k s) as [y|] eqn:E.
      * injection H as ->.
        destruct (IH eq_refl) as (w & s' & -> & Hw & Hk).
        exists (String c w), s'. simpl. by rewrite Hc, Hw.
      * by exists "", (String c s).
    + by exists "", (String c s).
Qed.

Lemma lazy_star_sound p k s x :
  Re.lazy_star p k s = Some x →
  ∃ w s', s = w +:+ s' ∧ Text.all p w = true ∧ k s' = Some x.
Proof.
  induction s as [|c s IH]; simpl; intros H.
  - destruct (k "") eqn:E; [|done]. injection H as ->. by exists "", "".
  - destruct (k (String c s)) as [y|] eqn:E.
    + injection H as ->. by exists "", (String c s).
    + destruct (p c) eqn:Hc; [|done].
      destruct (IH H) as (w & s' & -> & Hw & Hk).
      exists (String c w), s'. simpl. by rewrite Hc, Hw.
Qed.

(** The matcher only returns what the pattern may read. *)
Lemma rmatch_sound r s gs (k : string → Re.groups → option A) x :
  Re.rmatch r s gs k = Some x →
  ∃ w s' gs', s = w +:+ s' ∧ Re.matches r gs w gs' ∧ k s' gs' = Some x.
Proof.
  revert s gs k x.
  induction r as [p|l|r1 IH1 r2 IH2|r1 IH1 r2 IH2|p|p|g r IH|g];
    intros s gs k x H; simpl in H.
  - destruct s as [|c s]; [done|]. destruct (p c) eqn:Hc; [|done].
    exists (String c ""), s, gs. split_and!; [done| by constructor |done].
  - destruct (Text.strip_prefix l s) as [s'|] eqn:E; [|done].
    apply strip_prefix_app in E as ->.
    exists l, s', gs. split_and!; [done| constructor |done].
  - apply IH1 in H as (w1 & s1 & gs1 & -> & H1 & H).
    apply IH2 in H as (w2 & s2 & gs2 & -> & H2 & H).
    exists (w1 +:+ w2), s2, gs2. rewrite app_assoc.
    split_and!; [done| by econstructor |done].
  - destruct (Re.rmatch r1 s gs k) as [y|] eqn:E.
    + injection H as ->.
      apply IH1 in E as (w & s' & gs' & -> & H1 & H).
      exists w, s', gs'. split_and!; [done| by apply Re.matches_alt_l |done].
    + apply IH2 in H as (w & s' & gs' & -> & H2 & H).
      exists w, s', gs'. split_and!; [done| by apply Re.matches_alt_r |done].
  - apply star_sound in H as (w & s' & -> & Hw & H).
    exists w, s', gs. split_and!; [done| by constructor |done].
  - apply lazy_star_sound in H as (w & s' & -> & Hw & H).
    exists w, s', gs. split_and!; [done| by constructor |done].
  - apply IH in H as (w & s' & gs' & -> & Hr & H).
    rewrite consumed_app in H.
    exists w, s', ((g, w) :: gs'). split_and!; [done| by constructor |done].
  - destruct (Re.lookup_group g gs) as [t|] eqn:Hg; [|done].
    destruct (Text.strip_prefix t s) as [s'|] eqn:E; [|done].
    apply strip_prefix_app in E as ->.
    exists t, s', gs. split_and!; [done| by constructor |done].
Qed.
End Stars.

Lemma match_at_sound r s m rest :
  Re.match_at r s = Some (m, rest) →
  ∃ w, s = w +:+ rest ∧ Re.matches r [] w m.
Proof.
  intros H. apply rmatch_sound in H as (w & s' & gs' & -> & Hm & [= -> ->]).
  by exists w.
Qed.

(** A match of [search] is a match at the position it reports. *)
Lemma search_sound r s pre m rest :
  Re.search r s = Some (pre, m, rest) →
  ∃ s0, s = pre +:+ s0 ∧ Re.match_at r s0 = Some (m, rest).
Proof.
  revert pre. induction s as [|c s IH]; intros pre; simpl.
  - destruct (Re.match_at r "") as [[m' rest']|] eqn:E; [|done].
    intros [= <- <- <-]. by exists "".
  - destruct (Re.match_at r (String c s)) as [[m' rest']|] eqn:E.
    + intros [= <- <- <-]. by exists (String c s).
    + destruct (Re.search r s) as [[[pre' m'] rest']|] eqn:Es; [|done].
      intros [= <- <- <-].
      destruct (IH _ eq_refl) as (s0 & -> & H0). by exists s0.
Qed.

Section Sub.
Variable r : Re.regex.
(** The pattern matches no empty text. *)
Hypothesis nonempty : ∀ gs w gs', Re.matches r gs w gs' → w ≠ "".

Lemma search_shorter s pre m rest :
  Re.search r s = Some (pre, m, rest) →
  String.length rest < String.length s.
Proof.
  intros H. apply search_sound in H as (s0 & -> & H).
  apply match_at_sound in H as (w & -> & Hw).
  apply nonempty in Hw. rewrite !length_app.
  destruct w; [done|]. simpl. lia.
Qed.

Lemma sub_fuel_enough repl n n' s :
  String.length s < n → String.length s < n' →
  Re.sub_fuel n r repl s = Re.sub_fuel n' r repl s.
Proof.
  revert n' s. induction n as [|n IH]; intros n' s Hn Hn'; [lia|].
  destruct n' as [|n']; [lia|]. simpl.
  destruct (Re.search r s) as [[[pre m] rest]|] eqn:E; [|done].
  apply search_shorter in E.
  rewrite (IH n' rest) by lia. done.
Qed.

(** [sub] finds the leftmost match, replaces it and goes on after it. *)
Lemma sub_unfold repl s :
  Re.sub r repl s =
    match Re.search r s with
    | Some (pre, m, rest) =>
        t ← repl m; out ← Re.sub r repl rest; Ok (pre +:+ t +:+ out)
    | None => Ok s
    end.
Proof.
  unfold Re.sub at 1. simpl.
  destruct (Re.search r s) as [[[pre m] rest]|] eqn:E; [|done].
  apply search_shorter in E.
  unfold Re.sub. rewrite (sub_fuel_enough repl (String.length s) (S (String.length rest))) by lia.
  done.
Qed.

Lemma finditer_fuel_enough n n' s :
  String.length s < n → String.length s < n' →
  Re.finditer_fuel n r s = Re.finditer_fuel n' r s.
Proof.
  revert n' s. induction n as [|n IH]; intros n' s Hn Hn'; [lia|].
  destruct n' as [|n']; [lia|]. simpl.
  destruct (Re.search r s) as [[[pre m] rest]|] eqn:E; [|done].
  apply search_shorter in E.
  rewrite (IH n' rest) by lia. done.
Qed.

Lemma finditer_unfold s :
  Re.finditer r s =
    match Re.search r s with
    | Some (_, m, rest) => m :: Re.finditer r rest
    | None => []
    end.
Proof.
  unfold Re.finditer at 1. simpl.
  destruct (Re.search r s) as [[[pre m] rest]|] eqn:E; [|done].
  apply search_shorter in E.
  unfold Re.finditer.
  rewrite (finditer_fuel_enough (String.length s) (S (String.length rest))) by lia.
  done.
Qed.
End Sub.

Ltac inv_matches :=
  repeat match goal with
    | H : Re.matches (Re.Cat _ _) _ _ _ |- _ => inversion H; subst; clear H
    | H : Re.matches (Re.Group _ _) _ _ _ |- _ => inversion H; subst; clear H
    | H : Re.matches (Re.Chr _) _ _ _ |- _ => inversion H; subst; clear H
    | H : Re.matches (Re.Lit _) _ _ _ |- _ => inversion H; subst; clear H
    | H : Re.matches (Re.Alt _ _) _ _ _ |- _ => inversion H; subst; clear H
    | H : Re.matches (Re.Star _) _ _ _ |- _ => inversion H; subst; clear H
    | H : Re.matches (Re.LazyStar _) _ _ _ |- _ => inversion H; subst; clear H
    | H : Re.matches (Re.Backref _) _ _ _ |- _ => inversion H; subst; clear H
    end.

(** The shape of a match of [hrefs]: the five groups, and the text read
    is the markup, the quote, the path and the same quote again. *)
Lemma all_app p s t :
  Text.all p s = true → Text.all p t = true → Text.all p (s +:+ t) = true.
Proof.
  intros Hs Ht. induction s as [|c s IH]; [done|].
  simpl in *. apply andb_prop in Hs as [Hc Hs]. by rewrite Hc, IH.
Qed.

Lemma all_weaken (p q : ascii → bool) s :
  (∀ c, p c = true → q c = true) → Text.all p s = true → Text.all q s = true.
Proof.
  intros Hpq. induction s as [|c s IH]; [done|]. simpl.
  intros H. apply andb_prop in H as [Hc Hs]. by rewrite (Hpq _ Hc), IH.
Qed.

Lemma space_not_gt c : Re.space c = true → Re.not_ ">" c = true.
Proof.
  unfold Re.space, Re.not_. intros H.
  apply negb_true_iff, bool_decide_eq_false. by intros ->.
Qed.

Lemma hrefs_matches w m :
  Re.matches hrefs [] w m →
  ∃ markup quote what value,
    m = hrefs_groups markup quote what value
    ∧ w = markup +:+ quote +:+ ("|" +:+ what +:+ "|" +:+ value) +:+ quote
    ∧ markup ≠ ""
    ∧ attribute_markup markup
    ∧ quote_mark quote.
Proof.
  unfold hrefs. intros H. inv_matches.
  all: repeat match goal with
         | H : Re.chr _ _ = true |- _ => apply bool_decide_eq_true in H; subst
         end.
  all: match goal with H : Re.lookup_group _ _ = Some _ |- _ =>
         vm_compute in H; injection H as <- end.
  all: match goal with
       | Hq : Re.one_of _ _ ?c = true,
         Hb : Text.all Re.space ?blanks = true,
         Hw : Text.all Re.space ?ws = true,
         Hl : Text.all (Re.not_ ">") ?lead = true
         |- context [?lead +:+ ?attr +:+ ?blanks +:+ _] =>
           eexists _, _, _, _; split_and!; [reflexivity| |done| |];
           [ by rewrite ?app_assoc
           | exists (ws +:+ lead), attr, blanks; split_and!;
             [ (by left) || (by right)
             | apply all_app; [by apply (all_weaken _ _ _ space_not_gt)|done]
             | done
             | by rewrite ?app_assoc ]
           | unfold Re.one_of in Hq; apply orb_prop in Hq as [Hq|Hq];
             apply bool_decide_eq_true in Hq; subst c; [by right|by left] ]
       end.
Qed.

Lemma hrefs_nonempty gs w gs' : Re.matches hrefs gs w gs' → w ≠ "".
Proof. unfold hrefs. intros H. inv_matches; done. Qed.

End ReFacts.

(** ** Results *)

Lemma bind_ok {A B} (r : result A) (f : A → result B) b :
  r ≫= f = Ok b → ∃ a, r = Ok a ∧ f a = Ok b.
Proof. destruct r as [a|e]; [|done]. intros H. by exists a. Qed.

Ltac inv_bind H :=
  let a := fresh "a" in
  let E := fresh "E" in
  apply bind_ok in H as (a & E & H).

(** [x ≠ "name"] from [Hx : x ∉ [...]], and [x ∉ [...]] for a given [x]. *)
Ltac not_listed :=
  match goal with
  | Hx : ?x ∉ _ |- ?x ≠ _ =>
      let E := fresh in intros E; apply Hx; rewrite E; repeat constructor
  | Hx : ?x ∉ _ |- _ ≠ ?x =>
      let E := fresh in intros E; apply Hx; rewrite <- E; repeat constructor
  | |- _ ∉ _ => apply (bool_decide_unpack _); vm_compute; exact I
  | |- _ ≠ _ => done
  end.

(** ** Attributes set from the metadata *)

Section Setattr.
Implicit Types (a : gmap string value) (items : list (string * value)).

Lemma setattr_ok a attr v a' :
  setattr a attr v = Ok a' →
  a' = if Text.eqb attr "summary" then a else <[attr := v]> a.
Proof.
  unfold setattr. destruct (Text.eqb attr "summary"); [congruence|].
  repeat case_match; congruence.
Qed.

(** An attribute no key spells is left as it was. *)
Lemma setattr_all_other items a a' x :
  setattr_all items a = Ok a' →
  (∀ k v, (k, v) ∈ items → Text.lower k ≠ x) →
  a' !! x = a !! x.
Proof.
  revert a. induction items as [|[k v] items IH]; intros a H Hx; simpl in H.
  - by injection H as ->.
  - inv_bind H. apply setattr_ok in E as ->.
    rewrite (IH _ H) by (intros; eapply Hx; by right).
    destruct (Text.eqb _ _); [done|].
    apply lookup_insert_ne. eapply Hx. by left.
Qed.

(** An attribute that is set holds the value of a key that spells it. *)
Lemma setattr_all_from items a a' x v :
  setattr_all items a = Ok a' →
  a' !! x = Some v →
  a !! x = Some v ∨ ∃ k, (k, v) ∈ items ∧ Text.lower k = x.
Proof.
  revert a. induction items as [|[k w] items IH]; intros a H Hv; simpl in H.
  - injection H as ->. by left.
  - inv_bind H. apply setattr_ok in E as ->.
    destruct (IH _ H Hv) as [Ha|(k' & Hin & Hk')].
    + destruct (Text.eqb _ _); [by left|].
      destruct (decide (Text.lower k = x)) as [<-|Hne].
      * rewrite lookup_insert_eq in Ha. injection Ha as ->.
        right. exists k. split; [by left|done].
      * rewrite lookup_insert_ne in Ha by done. by left.
    + right. exists k'. split; [by right|done].
Qed.

(** The one key that spells an attribute gives it its value. *)
Lemma setattr_all_unique items a a' x k0 v0 :
  setattr_all items a = Ok a' →
  NoDup items.*1 →
  (k0, v0) ∈ items →
  Text.lower k0 = x →
  x ≠ "summary" →
  (∀ k v, (k, v) ∈ items → Text.lower k = x → k = k0) →
  a' !! x = Some v0.
Proof.
  revert a. induction items as [|[k v] items IH];
    intros a H Hnd Hin Hk0 Hs Huniq; simpl in H.
  - by apply elem_of_nil in Hin.
  - inv_bind H. apply setattr_ok in E as ->.
    apply NoDup_cons in Hnd as [Hk Hnd].
    destruct (decide (k = k0)) as [->|Hne].
    + assert (v = v0) as ->.
      { apply elem_of_cons in Hin as [[= ->]|Hin]; [done|].
        exfalso. apply Hk. apply list_elem_of_fmap. by exists (k0, v0). }
      rewrite (setattr_all_other _ _ _ x H).
      * rewrite Hk0. destruct (Text.eqb x "summary") eqn:Heq.
        { by apply TextFacts.eqb_eq in Heq. }
        apply lookup_insert_eq.
      * intros k' v' Hin' Hk'.
        assert (k' = k0) as -> by (eapply Huniq; [by right|done]).
        apply Hk. apply list_elem_of_fmap. by exists (k0, v').
    + apply elem_of_cons in Hin as [[= -> ->]|Hin]; [done|].
      eapply IH; eauto. intros. eapply Huniq; [by right|done].
Qed.
(** The same for the attributes [__init__] goes on with after the
    loop. *)
Lemma after_loop_inv items a0 :
  after_loop items = Ok a0 →
  ∃ a, setattr_all items ∅ = Ok a ∧ a0 = delete "metadata" a.
Proof.
  unfold after_loop. intros H. inv_bind H. injection H as <-. by eexists.
Qed.

Lemma after_loop_metadata items a0 :
  after_loop items = Ok a0 → a0 !! "metadata" = None.
Proof. intros (a & _ & ->)%after_loop_inv. apply lookup_delete_eq. Qed.

Lemma after_loop_other items a0 x :
  after_loop items = Ok a0 →
  (∀ k v, (k, v) ∈ items → Text.lower k ≠ x) →
  a0 !! x = (∅ : gmap string value) !! x.
Proof.
  intros (a & H & ->)%after_loop_inv Hx.
  destruct (decide (x = "metadata")) as [->|Hm].
  - by rewrite lookup_delete_eq.
  - rewrite lookup_delete_ne by done. by apply (setattr_all_other _ _ _ _ H).
Qed.

Lemma after_loop_from items a0 x v :
  after_loop items = Ok a0 →
  a0 !! x = Some v →
  ∃ k, (k, v) ∈ items ∧ Text.lower k = x.
Proof.
  intros (a & H & ->)%after_loop_inv Hv.
  destruct (decide (x = "metadata")) as [->|Hm].
  - by rewrite lookup_delete_eq in Hv.
  - rewrite lookup_delete_ne in Hv by done.
    by destruct (setattr_all_from _ _ _ _ _ H Hv) as [He|Hk].
Qed.

Lemma after_loop_unique items a0 x k0 v0 :
  after_loop items = Ok a0 →
  NoDup items.*1 →
  (k0, v0) ∈ items →
  Text.lower k0 = x →
  x ≠ "summary" → x ≠ "metadata" →
  (∀ k v, (k, v) ∈ items → Text.lower k = x → k = k0) →
  a0 !! x = Some v0.
Proof.
  intros (a & H & ->)%after_loop_inv Hnd Hin Hk Hs Hm Huniq.
  rewrite lookup_delete_ne by done.
  by apply (setattr_all_unique _ _ _ _ k0 v0 H).
Qed.

End Setattr.

(** ** Construction *)

(** ** Validation *)

Lemma check_each_spec props a :
  match check_each props a with
  | Ok _ => ∀ p, p ∈ props → is_Some (a !! p)
  | Raise e =>
      ∃ before p after,
        props = before ++ p :: after
        ∧ e = NameError p
        ∧ a !! p = None
        ∧ ∀ q, q ∈ before → is_Some (a !! q)
  end.
Proof.
  induction props as [|prop rest IH]; simpl.
  - intros p Hp. by apply elem_of_nil in Hp.
  - destruct (a !! prop) as [v|] eqn:Hp.
    + destruct (check_each rest a).
      * intros p [->|Hin]%elem_of_cons; [by eexists|by apply IH].
      * destruct IH as (before & p & after & -> & -> & Hn & Hb).
        exists (prop :: before), p, after. split_and!; [done..|].
        intros q [->|Hin]%elem_of_cons; [by eexists|by apply Hb].
    + exists [], prop, rest. split_and!; [done..|].
      intros q Hq. by apply elem_of_nil in Hq.
Qed.

Lemma is_valid_each props a :
  match check_each props a with
  | Ok _ => Ok true
  | Raise (NameError _) => Ok false
  | Raise e => Raise e
  end = Ok (forallb (λ p, bool_decide (is_Some (a !! p))) props).
Proof.
  induction props as [|prop rest IH]; simpl; [done|].
  destruct (a !! prop) as [v|] eqn:Hp.
  - rewrite IH. by rewrite bool_decide_eq_true_2 by by eexists.
  - rewrite bool_decide_eq_false_2; [done|]. by intros [? ?].
Qed.

(** X9: [check_properties] returns when every mandatory property of the
    class is an attribute of the object, and otherwise raises NameError
    with the first mandatory property, in the order of the class, that is
    not. *)
Theorem check_properties_first_missing (self : Page) :
  match check_properties self with
  | Ok _ =>
      ∀ p, p ∈ mandatory_properties (cls self) → is_Some (attrs self !! p)
  | Raise e =>
      ∃ before p after,
        mandatory_properties (cls self) = before ++ p :: after
        ∧ e = NameError p
        ∧ attrs self !! p = None
        ∧ ∀ q, q ∈ before → is_Some (attrs self !! q)
  end.
Proof. apply check_each_spec. Qed.

(** X10: [is_valid_content] never raises: it answers True when every
    mandatory property of the class is an attribute of the object and
    False otherwise. *)
Theorem is_valid_content_never_raises (self : Page) :
  is_valid_content self
  = Ok (forallb (λ p, bool_decide (is_Some (attrs self !! p)))
          (mandatory_properties (cls self))).
Proof. apply is_valid_each. Qed.

Section Construction.
Variable slugify : string → string.
Variable repr_builtin : value → string.
Variable _DEFAULT_CONFIG : Settings.
Variable dict_items : gmap string value → list (string * value).
Variable now : Z.
Variable setlocale : Locale → string → result Locale.
Variable strftime : Locale → Z → string → result string.
Variable truncate_html_words : string → value → string.
Variable cwd : string.

(** [items()] lists each pair of the dict once, in an order that is
    the interpreter's business. *)
Hypothesis dict_items_perm : ∀ m, dict_items m ≡ₚ map_to_list m.

Implicit Types (a : gmap string value) (st : Settings).

Abbreviation init :=
  (Page_init slugify repr_builtin _DEFAULT_CONFIG dict_items now setlocale strftime).

(** The steps of a construction that succeeds. *)
Lemma Page_init_inv c content md settings fn loc e loc' :
  init c content md settings fn loc = Ok (e, loc') →
  let st := effective_settings _DEFAULT_CONFIG settings in
  ∃ defaults a0 a1 a2 a3 a4,
    default_metadata st = Ok defaults
    ∧ after_loop (dict_items (default ∅ md ∪ defaults)) = Ok a0
    ∧ init_lang st (init_author slugify repr_builtin st
                      (<["template" := _get_template c a0]> a0)) = Ok a1
    ∧ init_date_format setlocale st (init_filename fn (init_slug slugify repr_builtin a1))
        loc = Ok (a2, loc')
    ∧ init_locale_date strftime a2 loc' = Ok a3
    ∧ init_status now st a3 = Ok a4
    ∧ e = {| cls := c; settings := st; _content := content; translations := [];
             metadata := default ∅ md ∪ defaults;
             attrs := init_summary (default ∅ md) a4 |}.
Proof.
  intros H st. unfold Page_init in H. fold (effective_settings _DEFAULT_CONFIG settings) in H.
  fold st in H.
  inv_bind H. rename a into defaults.
  inv_bind H. rename a into a_loop.
  inv_bind H. rename a into a1.
  inv_bind H. destruct a as [a2 loc2].
  inv_bind H. rename a into a3.
  inv_bind H. rename a into a4.
  injection H as <- <-.
  exists defaults, (delete "metadata" a_loop), a1, a2, a3, a4.
  split_and!; try done. unfold after_loop. by rewrite E0.
Qed.

Lemma init_author_other st a x :
  x ≠ "author" → init_author slugify repr_builtin st a !! x = a !! x.
Proof.
  intros Hx. unfold init_author. repeat case_match; try done.
  by rewrite lookup_insert_ne.
Qed.

Lemma init_slug_other a x :
  x ≠ "slug" → init_slug slugify repr_builtin a !! x = a !! x.
Proof.
  intros Hx. unfold init_slug. repeat case_match; try done.
  by rewrite lookup_insert_ne.
Qed.

Lemma init_filename_other fn a x :
  x ≠ "filename" → init_filename fn a !! x = a !! x.
Proof.
  intros Hx. unfold init_filename. repeat case_match; try done.
  by rewrite lookup_insert_ne.
Qed.

Lemma init_summary_other md a x :
  x ≠ "_summary" → init_summary md a !! x = a !! x.
Proof.
  intros Hx. unfold init_summary. case_match; [|done].
  by rewrite lookup_insert_ne.
Qed.

Lemma init_lang_other st a a' x :
  init_lang st a = Ok a' → x ≠ "lang" → x ≠ "in_default_lang" →
  a' !! x = a !! x.
Proof.
  unfold init_lang. intros H Hl Hi.
  destruct (st !! "DEFAULT_LANG") as [[]|]; try done.
  - inv_bind H. injection H as <-.
    rewrite lookup_insert_ne by done.
    case_match; by rewrite !lookup_insert_ne.
  - injection H as <-. by rewrite lookup_insert_ne.
Qed.

Lemma init_date_format_other st a loc a' loc' x :
  init_date_format setlocale st a loc = Ok (a', loc') → x ≠ "date_format" →
  a' !! x = a !! x.
Proof.
  unfold init_date_format. intros H Hx.
  inv_bind H. rename a0 into a1.
  assert (a1 !! x = a !! x) as <-.
  { destruct (a !! "date_format"); [by injection E as <-|].
    inv_bind E. destruct a0.
    - injection E as <-. by rewrite lookup_insert_ne.
    - inv_bind E. injection E as <-. by rewrite lookup_insert_ne. }
  inv_bind H. destruct a0; try by injection H as <- <-.
  inv_bind H. inv_bind H. inv_bind H. injection H as <- <-.
  by rewrite lookup_insert_ne.
Qed.

Lemma init_locale_date_other a loc a' x :
  init_locale_date strftime a loc = Ok a' → x ≠ "locale_date" →
  a' !! x = a !! x.
Proof.
  unfold init_locale_date. intros H Hx.
  destruct (a !! "date") as [[]|]; try done; [| |by injection H as <-].
  all: inv_bind H; destruct a0; try done.
  all: inv_bind H; injection H as <-; by rewrite lookup_insert_ne.
Qed.

Lemma init_status_other st a a' x :
  init_status now st a = Ok a' → x ≠ "status" → a' !! x = a !! x.
Proof.
  unfold init_status. intros H Hx.
  destruct (a !! "status"); [by injection H as <-|].
  inv_bind H. inv_bind H.
  destruct (negb (truthy a1)).
  - rewrite lookup_insert_ne in H by done.
    destruct (a !! "date") as [[]|]; try done.
    + case_match; injection H as <-; by rewrite ?lookup_insert_ne.
    + injection H as <-. by rewrite lookup_insert_ne.
  - injection H as <-. by rewrite lookup_insert_ne.
Qed.

(** The attributes the language step and the status step leave alone
    are the same from the metadata loop to the finished object. *)
Lemma init_lang_spec st a a' :
  init_lang st a = Ok a' →
  match st !! "DEFAULT_LANG" with
  | None => a' !! "in_default_lang" = Some (VBool true) ∧ a' !! "lang" = a !! "lang"
  | Some d =>
      ∃ ds lang,
        d = VStr ds
        ∧ lang = default (VStr (Text.lower ds)) (a !! "lang")
        ∧ a' !! "lang" = Some lang
        ∧ a' !! "in_default_lang" = Some (VBool (eq_text lang (Text.lower ds)))
  end.
Proof.
  unfold init_lang. cbv zeta. intros H.
  destruct (st !! "DEFAULT_LANG") as [[]|]; try done.
  - rewrite (lookup_insert_ne a "in_default_lang" "lang") in H by done.
    exists s. destruct (a !! "lang") as [l|] eqn:El.
    + exists l. unfold getattr in H.
      rewrite lookup_insert_ne, El in H by done. simpl in H. injection H as <-.
      by rewrite lookup_insert_eq, !lookup_insert_ne.
    + exists (VStr (Text.lower s)).
      unfold getattr in H. rewrite lookup_insert_eq in H. simpl in H.
      injection H as <-.
      by rewrite lookup_insert_eq, lookup_insert_ne, lookup_insert_eq.
  - injection H as <-.
    by rewrite lookup_insert_eq, lookup_insert_ne.
Qed.

Lemma init_status_spec st a a' :
  init_status now st a = Ok a' →
  a !! "status" = None →
  ∃ default_status with_future_dates,
    st !! "DEFAULT_STATUS" = Some default_status
    ∧ st !! "WITH_FUTURE_DATES" = Some with_future_dates
    ∧ a' !! "status" =
        Some (if negb (truthy with_future_dates) && in_future now (a !! "date")
              then VStr "draft" else default_status).
Proof.
  unfold init_status. intros H Hs. rewrite Hs in H.
  inv_bind H. inv_bind H. rename a0 into ds, a1 into wfd.
  unfold getitem in E, E0.
  destruct (st !! "DEFAULT_STATUS") as [ds'|]; [|done]. injection E as ->.
  destruct (st !! "WITH_FUTURE_DATES") as [wfd'|]; [|done]. injection E0 as ->.
  exists ds, wfd. split_and!; [done..|].
  destruct (negb (truthy wfd)); simpl.
  - rewrite lookup_insert_ne in H by done.
    destruct (a !! "date") as [[]|]; simpl; try done.
    + destruct (now <? t)%Z; injection H as <-; by rewrite ?lookup_insert_eq.
    + injection H as <-. by rewrite lookup_insert_eq.
  - injection H as <-. by rewrite lookup_insert_eq.
Qed.

(** C4 (amended): on a constructed object, when the settings hold a
    DEFAULT_LANG, [in_default_lang] is true exactly when the object's
    [lang], taken as it stands and not lower-cased, equals DEFAULT_LANG
    lower-cased; without a DEFAULT_LANG it is true. *)
Theorem C4_in_default_lang c content md cfg fn loc e loc' :
  init c content md cfg fn loc = Ok (e, loc') →
  match settings e !! "DEFAULT_LANG" with
  | None => attrs e !! "in_default_lang" = Some (VBool true)
  | Some d =>
      ∃ ds lang,
        d = VStr ds
        ∧ attrs e !! "lang" = Some lang
        ∧ attrs e !! "in_default_lang" = Some (VBool (eq_text lang (Text.lower ds)))
  end.
Proof.
  intros H. apply Page_init_inv in H as (defaults & a0 & a1 & a2 & a3 & a4 & H).
  destruct H as (_ & _ & H1 & H2 & H3 & H4 & ->). simpl.
  assert (∀ x, x ∉ ["slug"; "filename"; "date_format"; "locale_date";
                    "status"; "_summary"] →
               init_summary (default ∅ md) a4 !! x = a1 !! x) as Hkeep.
  { intros x Hx.
    rewrite init_summary_other by not_listed.
    rewrite (init_status_other _ _ _ _ H4) by not_listed.
    rewrite (init_locale_date_other _ _ _ _ H3) by not_listed.
    rewrite (init_date_format_other _ _ _ _ _ _ H2) by not_listed.
    by rewrite init_filename_other, init_slug_other by not_listed. }
  apply init_lang_spec in H1.
  destruct (effective_settings _DEFAULT_CONFIG cfg !! "DEFAULT_LANG") as [d|].
  - destruct H1 as (ds & lang & -> & _ & Hl & Hi).
    exists ds, lang. rewrite !Hkeep by not_listed. done.
  - destruct H1 as [Hi _]. by rewrite Hkeep by not_listed.
Qed.

(** What the steps between the metadata loop and the status step leave
    alone. *)
Lemma before_status c st fn loc a0 a1 a2 a3 loc' x :
  init_lang st (init_author slugify repr_builtin st
                  (<["template" := _get_template c a0]> a0)) = Ok a1 →
  init_date_format setlocale st (init_filename fn (init_slug slugify repr_builtin a1))
    loc = Ok (a2, loc') →
  init_locale_date strftime a2 loc' = Ok a3 →
  x ∉ ["template"; "author"; "lang"; "in_default_lang"; "slug"; "filename";
       "date_format"; "locale_date"] →
  a3 !! x = a0 !! x.
Proof.
  intros H1 H2 H3 Hx.
  rewrite (init_locale_date_other _ _ _ _ H3) by not_listed.
  rewrite (init_date_format_other _ _ _ _ _ _ H2) by not_listed.
  rewrite init_filename_other, init_slug_other by not_listed.
  rewrite (init_lang_other _ _ _ _ H1) by not_listed.
  rewrite init_author_other by not_listed.
  by rewrite lookup_insert_ne by not_listed.
Qed.

Lemma dict_items_lookup (m : gmap string value) k v :
  (k, v) ∈ dict_items m ↔ m !! k = Some v.
Proof. by rewrite dict_items_perm, elem_of_map_to_list. Qed.

Lemma dict_items_NoDup (m : gmap string value) : NoDup (dict_items m).*1.
Proof. rewrite dict_items_perm. apply NoDup_fst_map_to_list. Qed.

(** C5: an object whose metadata hold no status gets the status 'draft'
    when its date is in the future and WITH_FUTURE_DATES is false, and
    DEFAULT_STATUS otherwise. *)
Theorem C5_default_status c content md cfg fn loc e loc' :
  init c content md cfg fn loc = Ok (e, loc') →
  (∀ k, is_Some (metadata e !! k) → Text.lower k ≠ "status") →
  ∃ default_status with_future_dates,
    settings e !! "DEFAULT_STATUS" = Some default_status
    ∧ settings e !! "WITH_FUTURE_DATES" = Some with_future_dates
    ∧ attrs e !! "status" =
        Some (if negb (truthy with_future_dates) && in_future now (attrs e !! "date")
              then VStr "draft" else default_status).
Proof.
  intros H. apply Page_init_inv in H as (defaults & a0 & a1 & a2 & a3 & a4 & H).
  destruct H as (_ & H0 & H1 & H2 & H3 & H4 & ->). simpl. intros Hno.
  assert (a3 !! "status" = None) as Hs.
  { rewrite (before_status _ _ _ _ _ _ _ _ _ _ H1 H2 H3) by not_listed.
    rewrite (after_loop_other _ _ _ H0); [done|].
    intros k v Hin. apply Hno. apply dict_items_lookup in Hin. by eexists. }
  destruct (init_status_spec _ _ _ H4 Hs) as (ds & wfd & Hds & Hwfd & Hst).
  exists ds, wfd. split_and!; [done..|].
  rewrite !init_summary_other by done.
  by rewrite (init_status_other _ _ _ "date" H4).
Qed.

(** C9 (amended): a status given in the metadata of the construction is
    the status of the object, whatever its date and WITH_FUTURE_DATES,
    when the key "status" is the only one of the merged metadata that
    spells status in any case. *)
Theorem C9_explicit_status_kept c content md cfg fn loc e loc' v :
  init c content (Some md) cfg fn loc = Ok (e, loc') →
  md !! "status" = Some v →
  (∀ k, is_Some (metadata e !! k) → Text.lower k = "status" → k = "status") →
  attrs e !! "status" = Some v.
Proof.
  intros H. apply Page_init_inv in H as (defaults & a0 & a1 & a2 & a3 & a4 & H).
  destruct H as (_ & H0 & H1 & H2 & H3 & H4 & ->). simpl. intros Hv Huniq.
  assert (a3 !! "status" = Some v) as Hs.
  { rewrite (before_status _ _ _ _ _ _ _ _ _ _ H1 H2 H3) by not_listed.
    eapply (after_loop_unique _ _ _ "status" v H0).
    - apply dict_items_NoDup.
    - apply dict_items_lookup. by apply lookup_union_Some_l.
    - done.
    - done.
    - done.
    - intros k w Hin. apply Huniq. apply dict_items_lookup in Hin. by eexists. }
  rewrite init_summary_other by done.
  unfold init_status in H4. rewrite Hs in H4. by injection H4 as <-.
Qed.

(** C7: when the metadata of the construction hold a summary, reading
    [summary] returns it as it is, whatever SUMMARY_MAX_LENGTH says, and
    assigning to [summary] raises nothing and leaves the object, and so
    the summary read afterwards, as they were. *)
Theorem C7_explicit_summary c content md cfg fn loc e loc' v :
  init c content (Some md) cfg fn loc = Ok (e, loc') →
  md !! "summary" = Some v →
  ∀ _context new,
    _get_summary repr_builtin now truncate_html_words cwd e _context = Ok v
    ∧ ∃ e', _set_summary e new = Ok e' ∧ e' = e
      ∧ _get_summary repr_builtin now truncate_html_words cwd e' _context = Ok v.
Proof.
  intros H. apply Page_init_inv in H as (defaults & a0 & a1 & a2 & a3 & a4 & H).
  destruct H as (_ & _ & _ & _ & _ & _ & ->). intros Hv ctx new.
  assert (∀ e, attrs e !! "_summary" = Some v →
               _get_summary repr_builtin now truncate_html_words cwd e ctx = Ok v)
    as Hget.
  { intros e He. unfold _get_summary. by rewrite He. }
  assert (init_summary md a4 !! "_summary" = Some v) as Hsum.
  { unfold init_summary. rewrite Hv. apply lookup_insert_eq. }
  split; [by apply Hget|].
  eexists. split_and!; [reflexivity|done|by apply Hget].
Qed.

(** *** A construction that cannot fail *)

Lemma accepted_setattr a k v :
  accepted k v = true → setattr a (Text.lower k) v =
    Ok (if Text.eqb (Text.lower k) "summary" then a else <[Text.lower k := v]> a).
Proof.
  unfold accepted, setattr. intros H.
  apply andb_prop in H as [H _]. apply andb_prop in H as [H1 H2].
  destruct (Text.eqb (Text.lower k) "summary"); [done|].
  apply negb_true_iff in H1, H2. by rewrite H1, H2.
Qed.

Lemma accepted_typed k v x :
  accepted k v = true → Text.lower k = x →
  (x = "date" → is_datetime v = true)
  ∧ (x = "lang" → is_text v = true)
  ∧ (x = "date_format" → is_text v = true).
Proof.
  unfold accepted. intros H <-. apply andb_prop in H as [_ H].
  split_and!; intros E; rewrite E in H; by vm_compute in H.
Qed.

Lemma setattr_all_accepted items a :
  (∀ k v, (k, v) ∈ items → accepted k v = true) →
  ∃ a', setattr_all items a = Ok a'.
Proof.
  revert a. induction items as [|[k v] items IH]; intros a H; simpl.
  - by eexists.
  - rewrite accepted_setattr by (apply H; by left). simpl.
    apply IH. intros. apply H. by right.
Qed.

Lemma setattr_all_typed items a' :
  (∀ k v, (k, v) ∈ items → accepted k v = true) →
  setattr_all items ∅ = Ok a' → typed a'.
Proof.
  intros Hacc H. unfold typed.
  split_and!; intros v Hv;
    (destruct (setattr_all_from _ _ _ _ _ H Hv) as [?|(k & Hin & Hk)]; [done|]);
    apply Hacc in Hin;
    destruct (accepted_typed _ _ _ Hin Hk) as (T1 & T2 & T3); auto.
Qed.

(** An attribute some key spells is set. *)
Lemma setattr_all_some items a a' x :
  setattr_all items a = Ok a' →
  x ≠ "summary" →
  is_Some (a !! x) ∨ (∃ k v, (k, v) ∈ items ∧ Text.lower k = x) →
  is_Some (a' !! x).
Proof.
  revert a. induction items as [|[k v] items IH]; intros a H Hs Hx; simpl in H.
  - injection H as <-. destruct Hx as [|(k & v & Hin & _)]; [done|].
    by apply elem_of_nil in Hin.
  - inv_bind H. apply setattr_ok in E as ->.
    apply (IH _ H Hs).
    destruct (decide (Text.lower k = x)) as [Hk|Hk].
    + left. rewrite Hk. destruct (Text.eqb x "summary") eqn:Heq.
      { by apply TextFacts.eqb_eq in Heq. }
      rewrite lookup_insert_eq. by eexists.
    + destruct Hx as [Ha|(k' & v' & Hin & Hk')].
      * left. destruct (Text.eqb _ _); [done|]. by rewrite lookup_insert_ne.
      * apply elem_of_cons in Hin as [[= -> ->]|Hin]; [done|].
        right. by exists k', v'.
Qed.

Lemma after_loop_some items a0 x :
  after_loop items = Ok a0 →
  x ≠ "summary" → x ≠ "metadata" →
  (∃ k v, (k, v) ∈ items ∧ Text.lower k = x) →
  is_Some (a0 !! x).
Proof.
  intros (a & H & ->)%after_loop_inv Hs Hm Hx.
  rewrite lookup_delete_ne by done.
  apply (setattr_all_some _ _ _ _ H Hs). by right.
Qed.

Lemma init_lang_ok st a :
  (st !! "DEFAULT_LANG" = None ∨ ∃ d, st !! "DEFAULT_LANG" = Some (VStr d)) →
  (∀ v, a !! "lang" = Some v → is_text v = true) →
  ∃ a', init_lang st a = Ok a' ∧ ∀ v, a' !! "lang" = Some v → is_text v = true.
Proof.
  intros Hd Hl.
  destruct (init_lang st a) as [a'|err] eqn:E.
  - exists a'. split; [done|]. apply init_lang_spec in E.
    destruct Hd as [Hd|[d Hd]]; rewrite Hd in E.
    + destruct E as [_ E]. rewrite E. apply Hl.
    + destruct E as (ds & lang & _ & -> & E & _). rewrite E.
      intros v [= <-]. destruct (a !! "lang") as [l|] eqn:El; [by apply Hl|done].
  - exfalso. unfold init_lang in E. cbv zeta in E.
    destruct Hd as [Hd|[d Hd]]; rewrite Hd in E; [done|].
    unfold getattr in E.
    destruct (<["in_default_lang":=VBool true]> a !! "lang") eqn:El;
      [rewrite El in E|rewrite lookup_insert_eq in E]; by simpl in E.
Qed.

Lemma init_date_format_ok st a loc :
  complete st →
  (∀ v, a !! "lang" = Some v → is_text v = true) →
  (∀ v, a !! "date_format" = Some v → is_text v = true) →
  ∃ a' f, init_date_format setlocale st a loc = Ok (a', loc)
          ∧ a' !! "date_format" = Some (VStr f).
Proof.
  intros (_ & _ & (formats & Hf & Hfs) & (dflt & Hd) & _) Hl Hdf.
  unfold init_date_format.
  destruct (a !! "date_format") as [df|] eqn:Edf.
  - simpl. unfold getattr. rewrite Edf. simpl.
    specialize (Hdf _ eq_refl). destruct df; try done.
    by exists a, s.
  - unfold getitem. rewrite Hf, Hd. simpl.
    destruct (a !! "lang") as [lang|] eqn:El; simpl.
    + specialize (Hl _ eq_refl). destruct lang; try done. simpl.
      destruct (Format.lookup_kw s formats) as [f|] eqn:Ef; simpl.
      * unfold getattr. rewrite lookup_insert_eq. simpl.
        specialize (Hfs _ _ Ef). destruct f; try done.
        eexists _, _. split; [done|]. by rewrite lookup_insert_eq.
      * unfold getattr. rewrite lookup_insert_eq. simpl.
        eexists _, _. split; [done|]. by rewrite lookup_insert_eq.
    + unfold getattr. rewrite lookup_insert_eq. simpl.
      eexists _, _. split; [done|]. by rewrite lookup_insert_eq.
Qed.

Lemma init_locale_date_ok a loc f :
  (∀ l t fmt, ∃ text, strftime l t fmt = Ok text) →
  (∀ v, a !! "date" = Some v → is_datetime v = true) →
  a !! "date_format" = Some (VStr f) →
  ∃ a', init_locale_date strftime a loc = Ok a'.
Proof.
  intros Hs Hd Hf. unfold init_locale_date.
  destruct (a !! "date") as [d|] eqn:Ed; [|by eexists].
  specialize (Hd _ eq_refl). destruct d; try done.
  unfold getattr. rewrite Hf. simpl.
  destruct (Hs loc t f) as [text ->]. simpl. by eexists.
Qed.

Lemma init_status_ok st a :
  complete st →
  (∀ v, a !! "date" = Some v → is_datetime v = true) →
  ∃ a', init_status now st a = Ok a'.
Proof.
  intros (_ & _ & _ & _ & [ds Hds] & [wfd Hwfd]) Hd. unfold init_status.
  destruct (a !! "status"); [by eexists|].
  unfold getitem. rewrite Hds, Hwfd. simpl.
  destruct (negb (truthy wfd)); [|by eexists].
  rewrite lookup_insert_ne by done.
  destruct (a !! "date") as [d|] eqn:Ed; [|by eexists].
  specialize (Hd _ eq_refl). destruct d; try done.
  destruct (now <? t)%Z; by eexists.
Qed.

(** Construction succeeds on complete settings and accepted metadata,
    whichever of the mandatory fields the metadata hold. *)
Lemma Page_init_ok c content md st fn loc defaults :
  complete st →
  default_metadata st = Ok defaults →
  (∀ k v, (md ∪ defaults) !! k = Some v → accepted k v = true) →
  (∀ l t fmt, ∃ text, strftime l t fmt = Ok text) →
  ∃ e, init c content (Some md) (Some st) fn loc = Ok (e, loc).
Proof.
  intros Hc Hdef Hacc Hstr. unfold Page_init. simpl.
  destruct Hc as (Hne & Hc). rewrite bool_decide_eq_false_2 by done.
  assert (complete st) as Hc' by done. destruct Hc as (Hlang & _).
  rewrite Hdef. simpl.
  assert (∀ k v, (k, v) ∈ dict_items (md ∪ defaults) → accepted k v = true) as Hin.
  { intros k v Hkv. apply Hacc. by apply dict_items_lookup. }
  destruct (setattr_all_accepted _ ∅ Hin) as [a_loop H0]. rewrite H0. simpl.
  destruct (setattr_all_typed _ _ Hin H0) as (Tdate' & Tlang' & Tfmt').
  set (a0 := delete "metadata" a_loop).
  assert (∀ x, x ≠ "metadata" → a0 !! x = a_loop !! x) as Fm.
  { intros x Hx. unfold a0. by rewrite lookup_delete_ne. }
  assert (∀ v, a0 !! "date" = Some v → is_datetime v = true) as Tdate.
  { by rewrite Fm. }
  assert (∀ v, a0 !! "lang" = Some v → is_text v = true) as Tlang.
  { by rewrite Fm. }
  assert (∀ v, a0 !! "date_format" = Some v → is_text v = true) as Tfmt.
  { by rewrite Fm. }
  set (a0' := init_author slugify repr_builtin st (<["template":=_get_template c a0]> a0)).
  assert (∀ x, x ∉ ["template"; "author"] → a0' !! x = a0 !! x) as F0.
  { intros x Hx. unfold a0'. rewrite init_author_other by not_listed.
    by rewrite lookup_insert_ne by not_listed. }
  destruct (init_lang_ok st a0' Hlang) as (a1 & H1 & Tlang1).
  { rewrite F0 by not_listed. done. }
  rewrite H1. simpl.
  set (a1' := init_filename fn (init_slug slugify repr_builtin a1)).
  assert (∀ x, x ∉ ["slug"; "filename"] → a1' !! x = a1 !! x) as F1.
  { intros x Hx. unfold a1'.
    by rewrite init_filename_other, init_slug_other by not_listed. }
  assert (∀ x, x ∉ ["template"; "author"; "lang"; "in_default_lang"] →
               a1 !! x = a0 !! x) as F01.
  { intros x Hx. rewrite (init_lang_other _ _ _ _ H1) by not_listed.
    unfold a0'. rewrite init_author_other by not_listed.
    by rewrite lookup_insert_ne by not_listed. }
  destruct (init_date_format_ok st a1' loc Hc') as (a2 & f & H2 & Hf).
  { rewrite F1 by not_listed. done. }
  { rewrite F1, F01 by not_listed. done. }
  rewrite H2. simpl.
  assert (∀ v, a2 !! "date" = Some v → is_datetime v = true) as Tdate2.
  { rewrite (init_date_format_other _ _ _ _ _ _ H2), F1, F01 by not_listed. done. }
  destruct (init_locale_date_ok a2 loc f Hstr Tdate2 Hf) as (a3 & H3).
  rewrite H3. simpl.
  destruct (init_status_ok st a3 Hc') as (a4 & H4).
  { by rewrite (init_locale_date_other _ _ _ _ H3) by not_listed. }
  rewrite H4. simpl. by eexists.
Qed.

(** [check_properties] on an Article reports the first of title, date
    and category that is not an attribute of the object. *)
Lemma check_properties_article (e : Page) :
  cls e = ArticleC →
  check_properties e =
    match attrs e !! "title", attrs e !! "date", attrs e !! "category" with
    | None, _, _ => Raise (NameError "title")
    | Some _, None, _ => Raise (NameError "date")
    | Some _, Some _, None => Raise (NameError "category")
    | Some _, Some _, Some _ => Ok ()
    end.
Proof.
  intros Hc. unfold check_properties. rewrite Hc. simpl.
  by repeat case_match.
Qed.

(** A mandatory field is an attribute of the object exactly when a key
    of the merged metadata spells it. *)
Lemma Page_init_mandatory c content md cfg fn loc e loc' x :
  init c content md cfg fn loc = Ok (e, loc') →
  x ∈ ["title"; "date"; "category"] →
  attrs e !! x = None ↔ ∀ k, is_Some (metadata e !! k) → Text.lower k ≠ x.
Proof.
  intros H Hx. apply Page_init_inv in H as (defaults & a0 & a1 & a2 & a3 & a4 & H).
  destruct H as (_ & H0 & H1 & H2 & H3 & H4 & ->). simpl.
  assert (x ≠ "summary" ∧ x ≠ "status" ∧ x ≠ "_summary" ∧ x ≠ "metadata"
          ∧ x ∉ ["template"; "author"; "lang"; "in_default_lang"; "slug";
                 "filename"; "date_format"; "locale_date"])
    as (Hs & Hst & Hsu & Hmd & Hn).
  { repeat (apply elem_of_cons in Hx as [->|Hx]);
      [split_and!; (done || not_listed)..|by apply elem_of_nil in Hx]. }
  rewrite init_summary_other by done.
  rewrite (init_status_other _ _ _ _ H4) by done.
  rewrite (before_status _ _ _ _ _ _ _ _ _ _ H1 H2 H3) by done.
  split.
  - intros Hnone k [v Hk] Hl.
    destruct (after_loop_some _ _ x H0 Hs Hmd) as [w Hw]; [|congruence].
    exists k, v. split; [|done]. by apply dict_items_lookup.
  - intros Hno. rewrite (after_loop_other _ _ _ H0); [done|].
    intros k v Hin. apply Hno. apply dict_items_lookup in Hin. by eexists.
Qed.

(** C3: construction raises nothing on complete settings and accepted
    metadata, whichever mandatory fields the metadata hold; a mandatory
    field then is an attribute exactly when a key of the metadata spells
    it, and [check_properties] on an Article raises the NameError of the
    first of title, date, category that is missing, and returns when
    none is. *)
Theorem C3_lenient_construction_strict_check c content md st fn loc defaults :
  complete st →
  default_metadata st = Ok defaults →
  (∀ k v, (md ∪ defaults) !! k = Some v → accepted k v = true) →
  (∀ l t fmt, ∃ text, strftime l t fmt = Ok text) →
  ∃ e,
    init c content (Some md) (Some st) fn loc = Ok (e, loc)
    ∧ cls e = c
    ∧ (∀ x, x ∈ mandatory_properties ArticleC →
            attrs e !! x = None ↔
            ∀ k, is_Some ((md ∪ defaults) !! k) → Text.lower k ≠ x)
    ∧ (c = ArticleC →
       check_properties e =
         match attrs e !! "title", attrs e !! "date", attrs e !! "category" with
         | None, _, _ => Raise (NameError "title")
         | Some _, None, _ => Raise (NameError "date")
         | Some _, Some _, None => Raise (NameError "category")
         | Some _, Some _, Some _ => Ok ()
         end).
Proof.
  intros Hc Hdef Hacc Hstr.
  destruct (Page_init_ok c content md st fn loc defaults Hc Hdef Hacc Hstr)
    as [e He].
  exists e. split; [done|].
  pose proof (Page_init_inv _ _ _ _ _ _ _ _ He) as Hinv. simpl in Hinv.
  destruct Hinv as (defaults' & a0 & a1 & a2 & a3 & a4 & Hdef' & _ & _ & _ & _ & _ & Hrec).
  assert (defaults' = defaults) as ->.
  { destruct Hc as [Hne _]. rewrite bool_decide_eq_false_2 in Hdef' by done.
    congruence. }
  assert (metadata e = md ∪ defaults) as Hmeta by (by rewrite Hrec).
  split_and!.
  - by rewrite Hrec.
  - intros x Hx. rewrite <- Hmeta. by eapply Page_init_mandatory.
  - intros ->. apply check_properties_article. by rewrite Hrec.
Qed.

(** *** More on the construction *)

Lemma init_author_keeps st a x v :
  a !! x = Some v → init_author slugify repr_builtin st a !! x = Some v.
Proof.
  intros H. unfold init_author.
  destruct (a !! "author") eqn:E; [done|].
  destruct (st !! "AUTHOR"); [|done].
  rewrite lookup_insert_ne; [done|]. intros <-. congruence.
Qed.

Lemma init_slug_keeps a x v :
  a !! x = Some v → init_slug slugify repr_builtin a !! x = Some v.
Proof.
  intros H. unfold init_slug.
  destruct (a !! "slug") eqn:E; [done|].
  destruct (a !! "title"); [|done].
  rewrite lookup_insert_ne; [done|]. intros <-. congruence.
Qed.

Lemma init_lang_keeps st a a' x v :
  init_lang st a = Ok a' → x ≠ "in_default_lang" →
  a !! x = Some v → a' !! x = Some v.
Proof.
  intros H Hx Hv. destruct (decide (x = "lang")) as [->|Hl].
  - apply init_lang_spec in H. destruct (st !! "DEFAULT_LANG").
    + destruct H as (ds & lang & _ & -> & H & _). by rewrite H, Hv.
    + destruct H as [_ H]. by rewrite H.
  - by rewrite (init_lang_other _ _ _ _ H).
Qed.

Lemma init_status_keeps st a a' x v :
  init_status now st a = Ok a' → a !! x = Some v → a' !! x = Some v.
Proof.
  intros H Hv. destruct (decide (x = "status")) as [->|Hs].
  - unfold init_status in H. rewrite Hv in H. by injection H as <-.
  - by rewrite (init_status_other _ _ _ _ H).
Qed.

(** X1: a key of the merged metadata, when it is the only one with its
    lower-case spelling, becomes the attribute of that spelling with its
    value, for every name but those [__init__] assigns whatever the
    metadata say: summary, whose setter does nothing, metadata, which is
    bound to the merged metadata right after the loop, and template,
    in_default_lang, filename, date_format, locale_date and _summary,
    which later steps assign. *)
Theorem metadata_key_becomes_attribute c content md cfg fn loc e loc' k v :
  init c content md cfg fn loc = Ok (e, loc') →
  metadata e !! k = Some v →
  (∀ k', is_Some (metadata e !! k') → Text.lower k' = Text.lower k → k' = k) →
  Text.lower k ∉ ["summary"; "metadata"; "template"; "in_default_lang";
                   "filename"; "date_format"; "locale_date"; "_summary"] →
  attrs e !! Text.lower k = Some v.
Proof.
  intros H. apply Page_init_inv in H as (defaults & a0 & a1 & a2 & a3 & a4 & H).
  destruct H as (_ & H0 & H1 & H2 & H3 & H4 & ->). simpl. intros Hk Huniq Hx.
  assert (a0 !! Text.lower k = Some v) as Ha0.
  { eapply (after_loop_unique _ _ _ k v H0).
    - apply dict_items_NoDup.
    - by apply dict_items_lookup.
    - done.
    - not_listed.
    - not_listed.
    - intros k' w Hin. apply Huniq. apply dict_items_lookup in Hin. by eexists. }
  rewrite init_summary_other by not_listed.
  apply (init_status_keeps _ _ _ _ _ H4).
  rewrite (init_locale_date_other _ _ _ _ H3) by not_listed.
  rewrite (init_date_format_other _ _ _ _ _ _ H2) by not_listed.
  rewrite init_filename_other by not_listed.
  apply init_slug_keeps.
  apply (init_lang_keeps _ _ _ _ _ H1); [not_listed|].
  apply init_author_keeps.
  by rewrite lookup_insert_ne by not_listed.
Qed.

(** A key that spells a property without a setter stops the loop over
    the metadata. *)
Lemma setattr_all_readonly items a k v :
  (k, v) ∈ items →
  Text.lower k ∈ readonly_properties →
  (∀ k' v', (k', v') ∈ items → shadowing (Text.lower k') = false) →
  setattr_all items a = Raise (AttributeError "can't set attribute").
Proof.
  revert a. induction items as [|[k0 v0] items IH]; intros a Hin Hro Hsh.
  - by apply elem_of_nil in Hin.
  - simpl. unfold setattr at 1.
    destruct (Text.eqb (Text.lower k0) "summary") eqn:Es.
    + simpl. apply IH; [|done|intros; eapply Hsh; by right].
      apply elem_of_cons in Hin as [[= -> ->]|Hin]; [|done].
      apply TextFacts.eqb_eq in Es. rewrite Es in Hro.
      exfalso. revert Hro. apply (bool_decide_unpack _). vm_compute. exact I.
    + case_bool_decide as Hk0; [done|].
      rewrite (Hsh k0 v0) by (by left). simpl.
      apply IH; [|done|intros; eapply Hsh; by right].
      apply elem_of_cons in Hin as [[= -> ->]|Hin]; done.
Qed.

(** X2: metadata with a key that spells url, save_as, content,
    url_format or relative_dir make the construction raise
    AttributeError: these are properties without a setter. *)
Theorem readonly_key_refused c content md cfg fn loc defaults k :
  default_metadata (effective_settings _DEFAULT_CONFIG cfg) = Ok defaults →
  is_Some ((default ∅ md ∪ defaults) !! k) →
  Text.lower k ∈ readonly_properties →
  (∀ k', is_Some ((default ∅ md ∪ defaults) !! k') →
         shadowing (Text.lower k') = false) →
  init c content md cfg fn loc = Raise (AttributeError "can't set attribute").
Proof.
  intros Hdef [v Hk] Hro Hsh. unfold Page_init.
  fold (effective_settings _DEFAULT_CONFIG cfg). rewrite Hdef. simpl.
  rewrite (setattr_all_readonly _ ∅ k v); [done| |done|].
  - by apply dict_items_lookup.
  - intros k' v' Hin. apply Hsh. apply dict_items_lookup in Hin. by eexists.
Qed.

(** X3: an object whose metadata name no language gets the default
    language of the settings, lower-cased, and is in the default
    language. *)
Theorem lang_defaults_to_default_lang c content md cfg fn loc e loc' d :
  init c content md cfg fn loc = Ok (e, loc') →
  settings e !! "DEFAULT_LANG" = Some (VStr d) →
  (∀ k, is_Some (metadata e !! k) → Text.lower k ≠ "lang") →
  attrs e !! "lang" = Some (VStr (Text.lower d))
  ∧ attrs e !! "in_default_lang" = Some (VBool true).
Proof.
  intros H. apply Page_init_inv in H as (defaults & a0 & a1 & a2 & a3 & a4 & H).
  destruct H as (_ & H0 & H1 & H2 & H3 & H4 & ->). simpl. intros Hd Hno.
  assert (∀ x, x ∉ ["slug"; "filename"; "date_format"; "locale_date";
                    "status"; "_summary"] →
               init_summary (default ∅ md) a4 !! x = a1 !! x) as Hkeep.
  { intros x Hx.
    rewrite init_summary_other by not_listed.
    rewrite (init_status_other _ _ _ _ H4) by not_listed.
    rewrite (init_locale_date_other _ _ _ _ H3) by not_listed.
    rewrite (init_date_format_other _ _ _ _ _ _ H2) by not_listed.
    by rewrite init_filename_other, init_slug_other by not_listed. }
  apply init_lang_spec in H1. rewrite Hd in H1.
  destruct H1 as (ds & lang & [= <-] & Hlang & Hl & Hi).
  rewrite init_author_other, lookup_insert_ne in Hlang by done.
  rewrite (after_loop_other _ _ _ H0) in Hlang.
  2:{ intros k v Hin. apply Hno. apply dict_items_lookup in Hin. by eexists. }
  rewrite lookup_empty in Hlang. simpl in Hlang. subst lang.
  rewrite !Hkeep by not_listed. split; [done|].
  rewrite Hi. simpl. by rewrite TextFacts.eqb_refl.
Qed.

(** X4: without a slug in the metadata, the slug of an object is the
    slugified title when there is a title, and there is no slug when
    there is none. *)
Theorem slug_comes_from_title c content md cfg fn loc e loc' :
  init c content md cfg fn loc = Ok (e, loc') →
  (∀ k, is_Some (metadata e !! k) → Text.lower k ≠ "slug") →
  attrs e !! "slug"
  = (λ title, VStr (slugify (unicode_ repr_builtin title))) <$> attrs e !! "title".
Proof.
  intros H. apply Page_init_inv in H as (defaults & a0 & a1 & a2 & a3 & a4 & H).
  destruct H as (_ & H0 & H1 & H2 & H3 & H4 & ->). simpl. intros Hno.
  assert (∀ x, x ∉ ["filename"; "date_format"; "locale_date"; "status"; "_summary"] →
               init_summary (default ∅ md) a4 !! x
               = init_slug slugify repr_builtin a1 !! x) as Hkeep.
  { intros x Hx.
    rewrite init_summary_other by not_listed.
    rewrite (init_status_other _ _ _ _ H4) by not_listed.
    rewrite (init_locale_date_other _ _ _ _ H3) by not_listed.
    rewrite (init_date_format_other _ _ _ _ _ _ H2) by not_listed.
    by rewrite init_filename_other by not_listed. }
  rewrite !Hkeep by not_listed.
  rewrite (init_slug_other _ "title") by done.
  assert (a1 !! "slug" = None) as Hs.
  { rewrite (init_lang_other _ _ _ _ H1) by done.
    rewrite init_author_other, lookup_insert_ne by done.
    rewrite (after_loop_other _ _ _ H0); [done|].
    intros k v Hin. apply Hno. apply dict_items_lookup in Hin. by eexists. }
  unfold init_slug. rewrite Hs.
  destruct (a1 !! "title") as [title|]; simpl; [|done].
  by rewrite lookup_insert_eq.
Qed.

(** X5: without an author in the metadata, the author of an object is
    the Author made from the AUTHOR of the settings, and there is no
    author when the settings have none. *)
Theorem author_comes_from_settings c content md cfg fn loc e loc' :
  init c content md cfg fn loc = Ok (e, loc') →
  (∀ k, is_Some (metadata e !! k) → Text.lower k ≠ "author") →
  attrs e !! "author"
  = (λ n, VWrapper AuthorC (unicode_ repr_builtin n)
            (slugify (unicode_ repr_builtin n))) <$> settings e !! "AUTHOR".
Proof.
  intros H. apply Page_init_inv in H as (defaults & a0 & a1 & a2 & a3 & a4 & H).
  destruct H as (_ & H0 & H1 & H2 & H3 & H4 & ->). simpl. intros Hno.
  rewrite init_summary_other by done.
  rewrite (init_status_other _ _ _ _ H4) by done.
  rewrite (init_locale_date_other _ _ _ _ H3) by done.
  rewrite (init_date_format_other _ _ _ _ _ _ H2) by done.
  rewrite init_filename_other, init_slug_other by done.
  rewrite (init_lang_other _ _ _ _ H1) by done.
  assert (a0 !! "author" = None) as Ha.
  { rewrite (after_loop_other _ _ _ H0); [done|].
    intros k v Hin. apply Hno. apply dict_items_lookup in Hin. by eexists. }
  unfold init_author. rewrite lookup_insert_ne, Ha by done.
  destruct (effective_settings _DEFAULT_CONFIG cfg !! "AUTHOR") as [n|]; simpl.
  - by rewrite lookup_insert_eq.
  - by rewrite lookup_insert_ne.
Qed.

Lemma init_date_format_spec st a loc a' loc' :
  init_date_format setlocale st a loc = Ok (a', loc') →
  a !! "date_format" = None →
  ∃ chosen,
    format_for st (a !! "lang") = Some chosen
    ∧ match chosen with
      | VTuple items =>
          ∃ name fmt,
            items !! 0 = Some name ∧ items !! 1 = Some fmt
            ∧ a' !! "date_format" = Some fmt
            ∧ (name = VNone ∧ loc' = loc
               ∨ ∃ n, name = VStr n ∧ setlocale loc n = Ok loc')
      | _ => a' !! "date_format" = Some chosen ∧ loc' = loc
      end.
Proof.
  unfold init_date_format, format_for. intros H Hnone. rewrite Hnone in H.
  inv_bind H. rename a0 into a1.
  assert (∃ chosen,
            match a !! "lang" with
            | Some (VStr l) =>
                match st !! "DATE_FORMATS" with
                | Some (VDict formats) =>
                    match Format.lookup_kw l formats with
                    | Some f => Some f
                    | None => st !! "DEFAULT_DATE_FORMAT"
                    end
                | _ => None
                end
            | Some _ => None
            | None => st !! "DEFAULT_DATE_FORMAT"
            end = Some chosen
            ∧ a1 = <["date_format" := chosen]> a) as (chosen & Hc & ->).
  { inv_bind E. rename a0 into for_lang.
    destruct (a !! "lang") as [lang|].
    - inv_bind E0. unfold getitem in E1.
      destruct (st !! "DATE_FORMATS") as [formats|]; [|done].
      injection E1 as ->.
      destruct a0; try done. destruct lang; try done.
      injection E0 as <-.
      destruct (Format.lookup_kw s items) as [f|].
      + injection E as <-. by exists f.
      + inv_bind E. injection E as <-. unfold getitem in E0.
        destruct (st !! "DEFAULT_DATE_FORMAT") as [f|]; [|done].
        injection E0 as ->. by exists a0.
    - injection E0 as <-. inv_bind E. injection E as <-. unfold getitem in E0.
      destruct (st !! "DEFAULT_DATE_FORMAT") as [f|]; [|done].
      injection E0 as ->. by exists a0. }
  exists chosen. split; [done|].
  unfold getattr in H. rewrite lookup_insert_eq in H. simpl in H.
  destruct chosen; try (injection H as <- <-; by rewrite lookup_insert_eq).
  inv_bind H. rename a0 into name. inv_bind H. rename a0 into loc1.
  inv_bind H. rename a0 into fmt. injection H as <- <-.
  unfold index in E0, E2.
  destruct (items !! 0) as [n0|] eqn:Hn0; simpl in E0; [|done]. injection E0 as ->.
  destruct (items !! 1) as [f1|] eqn:Hf1; simpl in E2; [|done]. injection E2 as ->.
  exists name, fmt. split_and!; [done..|by rewrite lookup_insert_eq|].
  destruct name; try done.
  - left. by injection E1 as ->.
  - right. by exists s.
Qed.

(** X6: for an object without a date format of its own, [__init__] picks
    the format of its language, or the default format; a format that is
    a pair sets the process locale to its first component and leaves
    its second as the format, any other format leaves the locale as it
    was. *)
Theorem date_format_and_locale c content md cfg fn loc e loc' :
  init c content md cfg fn loc = Ok (e, loc') →
  (∀ k, is_Some (metadata e !! k) → Text.lower k ≠ "date_format") →
  ∃ chosen,
    format_for (settings e) (attrs e !! "lang") = Some chosen
    ∧ match chosen with
      | VTuple items =>
          ∃ name fmt,
            items !! 0 = Some name ∧ items !! 1 = Some fmt
            ∧ attrs e !! "date_format" = Some fmt
            ∧ (name = VNone ∧ loc' = loc
               ∨ ∃ n, name = VStr n ∧ setlocale loc n = Ok loc')
      | _ => attrs e !! "date_format" = Some chosen ∧ loc' = loc
      end.
Proof.
  intros H. apply Page_init_inv in H as (defaults & a0 & a1 & a2 & a3 & a4 & H).
  destruct H as (_ & H0 & H1 & H2 & H3 & H4 & ->). simpl. intros Hno.
  assert (∀ x, x ∉ ["locale_date"; "status"; "_summary"] →
               init_summary (default ∅ md) a4 !! x = a2 !! x) as Hkeep.
  { intros x Hx.
    rewrite init_summary_other by not_listed.
    rewrite (init_status_other _ _ _ _ H4) by not_listed.
    by rewrite (init_locale_date_other _ _ _ _ H3) by not_listed. }
  set (a1' := init_filename fn (init_slug slugify repr_builtin a1)) in *.
  assert (a1' !! "date_format" = None) as Hnone.
  { unfold a1'. rewrite init_filename_other, init_slug_other by done.
    rewrite (init_lang_other _ _ _ _ H1) by done.
    rewrite init_author_other, lookup_insert_ne by done.
    rewrite (after_loop_other _ _ _ H0); [done|].
    intros k v Hin. apply Hno. apply dict_items_lookup in Hin. by eexists. }
  destruct (init_date_format_spec _ _ _ _ _ H2 Hnone) as (chosen & Hc & Hm).
  exists chosen. rewrite !Hkeep by not_listed.
  rewrite (init_date_format_other _ _ _ _ _ "lang" H2) by done.
  done.
Qed.

(** X7: an object whose date is a datetime or a date has a
    [locale_date]: the date formatted with the date format of the
    object under the locale the construction ends in, a date as its
    midnight. *)
Theorem locale_date_from_date c content md cfg fn loc e loc' t :
  init c content md cfg fn loc = Ok (e, loc') →
  attrs e !! "date" = Some (VDatetime t) ∨ attrs e !! "date" = Some (VDate t) →
  ∃ fmt text,
    attrs e !! "date_format" = Some (VStr fmt)
    ∧ strftime loc' t fmt = Ok text
    ∧ attrs e !! "locale_date" = Some (VStr text).
Proof.
  intros H. apply Page_init_inv in H as (defaults & a0 & a1 & a2 & a3 & a4 & H).
  destruct H as (_ & H0 & H1 & H2 & H3 & H4 & ->). simpl.
  assert (∀ x, x ∉ ["status"; "_summary"] →
               init_summary (default ∅ md) a4 !! x = a3 !! x) as Hkeep.
  { intros x Hx. rewrite init_summary_other by not_listed.
    by rewrite (init_status_other _ _ _ _ H4) by not_listed. }
  rewrite !Hkeep by not_listed.
  rewrite (init_locale_date_other _ _ _ "date" H3) by done.
  rewrite (init_locale_date_other _ _ _ "date_format" H3) by done.
  intros Hd. unfold init_locale_date in H3.
  assert (∃ fmt text,
            a2 !! "date_format" = Some (VStr fmt)
            ∧ strftime loc' t fmt = Ok text
            ∧ a3 = <["locale_date" := VStr text]> a2) as (fmt & text & Hf & Ht & ->).
  { destruct Hd as [Hd|Hd]; rewrite Hd in H3;
      inv_bind H3; unfold getattr in E;
      (destruct (a2 !! "date_format") as [df|]; [|done]); injection E as ->;
      (destruct a; try done); inv_bind H3; injection H3 as <-;
      by eexists _, _. }
  exists fmt, text. by rewrite lookup_insert_eq.
Qed.

Lemma setattr_all_summary items a a' :
  setattr_all items a = Ok a' → a' !! "summary" = a !! "summary".
Proof.
  revert a. induction items as [|[k v] items IH]; intros a H; simpl in H.
  - by injection H as ->.
  - inv_bind H. apply setattr_ok in E as ->. rewrite (IH _ H).
    destruct (Text.eqb (Text.lower k) "summary") eqn:Es; [done|].
    apply lookup_insert_ne. intros Hk. rewrite Hk in Es.
    by rewrite TextFacts.eqb_refl in Es.
Qed.

Lemma after_loop_summary items a0 :
  after_loop items = Ok a0 → a0 !! "summary" = None.
Proof.
  intros (a & H & ->)%after_loop_inv. rewrite lookup_delete_ne by done.
  by rewrite (setattr_all_summary _ _ _ H).
Qed.

(** X8: [summary] never becomes an attribute of the object.  What is
    kept, as [_summary], is the value under the key 'summary' of the
    metadata given to the construction; without that key, and unless a
    key spells _summary, the object has no [_summary], also when
    DEFAULT_METADATA hold a summary, and its summary is derived from its
    content. *)
Theorem default_summary_is_not_kept c body md cfg fn loc e loc' :
  init c body md cfg fn loc = Ok (e, loc') →
  attrs e !! "summary" = None
  ∧ (∀ s, default ∅ md !! "summary" = Some s → attrs e !! "_summary" = Some s)
  ∧ (default ∅ md !! "summary" = None →
     (∀ k, is_Some (metadata e !! k) → Text.lower k ≠ "_summary") →
     attrs e !! "_summary" = None
     ∧ ∀ _context,
         _get_summary repr_builtin now truncate_html_words cwd e _context
         = (max_length ← getitem (settings e) "SUMMARY_MAX_LENGTH";
            text ← content repr_builtin now cwd e _context;
            Ok (VStr (if truthy max_length
                      then truncate_html_words text max_length else text)))).
Proof.
  intros H. apply Page_init_inv in H as (defaults & a0 & a1 & a2 & a3 & a4 & H).
  destruct H as (_ & H0 & H1 & H2 & H3 & H4 & ->). simpl.
  assert (∀ x, x ∉ ["template"; "author"; "lang"; "in_default_lang"; "slug";
                    "filename"; "date_format"; "locale_date"; "status"] →
               a4 !! x = a0 !! x) as Hkeep.
  { intros x Hx.
    rewrite (init_status_other _ _ _ _ H4) by not_listed.
    apply (before_status _ _ _ _ _ _ _ _ _ _ H1 H2 H3).
    intros Hin. apply Hx. apply list_elem_of_In. apply list_elem_of_In in Hin.
    simpl in *. tauto. }
  split_and!.
  - rewrite init_summary_other by done. rewrite Hkeep by not_listed.
    apply (after_loop_summary _ _ H0).
  - intros s Hs. unfold init_summary. rewrite Hs. by rewrite lookup_insert_eq.
  - intros Hmd Hno.
    assert (init_summary (default ∅ md) a4 !! "_summary" = None) as Hs.
    { unfold init_summary. rewrite Hmd. rewrite Hkeep by not_listed.
      rewrite (after_loop_other _ _ _ H0); [done|].
      intros k v Hin. apply Hno. apply dict_items_lookup in Hin. by eexists. }
    split; [done|].
    intros ctx. unfold _get_summary. simpl. rewrite Hs.
    destruct (getitem _ _); simpl; [|done].
    destruct (content _ _ _ _ _) as [text|]; simpl; [|done].
    by destruct (truthy a).
Qed.

Lemma Page_init_spelled c content md cfg fn loc e loc' x :
  init c content md cfg fn loc = Ok (e, loc') →
  x ∈ ["title"; "date"; "category"] →
  is_Some (attrs e !! x) ↔ ∃ k, is_Some (metadata e !! k) ∧ Text.lower k = x.
Proof.
  intros H Hx. apply Page_init_inv in H as (defaults & a0 & a1 & a2 & a3 & a4 & H).
  destruct H as (_ & H0 & H1 & H2 & H3 & H4 & ->). simpl.
  assert (x ≠ "summary" ∧ x ≠ "status" ∧ x ≠ "_summary" ∧ x ≠ "metadata"
          ∧ x ∉ ["template"; "author"; "lang"; "in_default_lang"; "slug";
                 "filename"; "date_format"; "locale_date"])
    as (Hs & Hst & Hsu & Hmd & Hn).
  { repeat (apply elem_of_cons in Hx as [->|Hx]);
      [split_and!; (done || not_listed)..|by apply elem_of_nil in Hx]. }
  rewrite init_summary_other by done.
  rewrite (init_status_other _ _ _ _ H4) by done.
  rewrite (before_status _ _ _ _ _ _ _ _ _ _ H1 H2 H3) by done.
  split.
  - intros [v Hv].
    destruct (after_loop_from _ _ _ _ H0 Hv) as (k & Hin & Hk).
    exists k. split; [|done]. apply dict_items_lookup in Hin. by eexists.
  - intros (k & [v Hk] & Hkx).
    apply (after_loop_some _ _ _ H0 Hs Hmd). exists k, v.
    split; [|done]. by apply dict_items_lookup.
Qed.

(** X11: whether a constructed object is valid is decided by the keys of
    its metadata alone: it is when, for each mandatory property of its
    class, a key spells it in some case. *)
Theorem valid_when_metadata_spell_mandatory c content md cfg fn loc e loc' :
  init c content md cfg fn loc = Ok (e, loc') →
  ∃ b, is_valid_content e = Ok b
       ∧ (b = true ↔
          ∀ p, p ∈ mandatory_properties c →
               ∃ k, is_Some (metadata e !! k) ∧ Text.lower k = p).
Proof.
  intros H.
  assert (cls e = c) as Hc.
  { apply Page_init_inv in H as (? & ? & ? & ? & ? & ? & H).
    by destruct H as (_ & _ & _ & _ & _ & _ & ->). }
  assert (∀ p, p ∈ mandatory_properties c → p ∈ ["title"; "date"; "category"]) as Hm.
  { intros p Hp.
    destruct c; simpl in Hp;
      repeat (apply elem_of_cons in Hp as [->|Hp]);
      try (by apply elem_of_nil in Hp);
      apply (bool_decide_unpack _); vm_compute; exact I. }
  eexists. split.
  { unfold is_valid_content, check_properties. apply is_valid_each. }
  rewrite Hc, forallb_forall. split.
  - intros Hall p Hp. apply (Page_init_spelled _ _ _ _ _ _ _ _ _ H (Hm p Hp)).
    apply list_elem_of_In in Hp. by apply Hall, bool_decide_eq_true in Hp.
  - intros Hall p Hp. apply list_elem_of_In in Hp. apply bool_decide_eq_true.
    apply (Page_init_spelled _ _ _ _ _ _ _ _ _ H (Hm p Hp)). by apply Hall.
Qed.

(** X12: a constructed object whose language is not the default one
    takes its url and its save_as from the LANG templates of its class,
    and one in the default language from the plain ones. *)
Theorem translation_uses_lang_template c content md cfg fn loc e loc' d l :
  init c content md cfg fn loc = Ok (e, loc') →
  settings e !! "DEFAULT_LANG" = Some (VStr d) →
  attrs e !! "lang" = Some (VStr l) →
  url repr_builtin now e
  = _expand_settings repr_builtin now e
      (if Text.eqb l (Text.lower d) then "url" else "lang_url")
  ∧ save_as repr_builtin now e
    = _expand_settings repr_builtin now e
        (if Text.eqb l (Text.lower d) then "save_as" else "lang_save_as").
Proof.
  intros H. apply Page_init_inv in H as (defaults & a0 & a1 & a2 & a3 & a4 & H).
  destruct H as (_ & H0 & H1 & H2 & H3 & H4 & ->). simpl. intros Hd Hl.
  assert (∀ x, x ∉ ["slug"; "filename"; "date_format"; "locale_date"; "status";
                    "_summary"] →
               init_summary (default ∅ md) a4 !! x = a1 !! x) as Hkeep.
  { intros x Hx. rewrite init_summary_other by not_listed.
    rewrite (init_status_other _ _ _ _ H4) by not_listed.
    rewrite (init_locale_date_other _ _ _ _ H3) by not_listed.
    rewrite (init_date_format_other _ _ _ _ _ _ H2) by not_listed.
    by rewrite init_filename_other, init_slug_other by not_listed. }
  rewrite Hkeep in Hl by not_listed.
  apply init_lang_spec in H1. rewrite Hd in H1.
  destruct H1 as (ds & lang & [= <-] & _ & Hlang & Hin).
  rewrite Hl in Hlang. injection Hlang as <-. simpl in Hin.
  unfold url, save_as, get_url_setting, getattr. simpl.
  rewrite Hkeep by not_listed. rewrite Hin. simpl.
  by destruct (Text.eqb l (Text.lower d)).
Qed.

(** X13: the template of a constructed object is never None: a template
    the metadata give under one key is kept unless it is None, and the
    default template of the class stands in otherwise. *)
Theorem template_is_never_none c content md cfg fn loc e loc' :
  init c content md cfg fn loc = Ok (e, loc') →
  ∃ t, attrs e !! "template" = Some t
       ∧ t ≠ VNone
       ∧ ((∀ k, is_Some (metadata e !! k) → Text.lower k ≠ "template") →
          t = VStr (default_template c))
       ∧ (∀ k v,
            metadata e !! k = Some v →
            Text.lower k = "template" →
            (∀ k', is_Some (metadata e !! k') → Text.lower k' = "template" → k' = k) →
            t = match v with VNone => VStr (default_template c) | _ => v end).
Proof.
  intros H. apply Page_init_inv in H as (defaults & a0 & a1 & a2 & a3 & a4 & H).
  destruct H as (_ & H0 & H1 & H2 & H3 & H4 & ->). simpl.
  assert (init_summary (default ∅ md) a4 !! "template"
          = Some (_get_template c a0)) as Ht.
  { rewrite init_summary_other by done.
    rewrite (init_status_other _ _ _ _ H4) by done.
    rewrite (init_locale_date_other _ _ _ _ H3) by done.
    rewrite (init_date_format_other _ _ _ _ _ _ H2) by done.
    rewrite init_filename_other, init_slug_other by done.
    rewrite (init_lang_other _ _ _ _ H1) by done.
    rewrite init_author_other by done.
    by rewrite lookup_insert_eq. }
  exists (_get_template c a0). split_and!; [done| | |].
  - unfold _get_template. by repeat case_match.
  - intros Hno. unfold _get_template.
    rewrite (after_loop_other _ _ _ H0); [done|].
    intros k v Hin. apply Hno. apply dict_items_lookup in Hin. by eexists.
  - intros k v Hk Hsp Huniq. unfold _get_template.
    rewrite (after_loop_unique _ _ _ k v H0); [by destruct v| | |done|done|done|].
    + apply dict_items_NoDup.
    + by apply dict_items_lookup.
    + intros k' w Hin. apply Huniq. apply dict_items_lookup in Hin. by eexists.
Qed.

(** X14: a non-empty filename given to the construction is the filename
    of the object, whatever the metadata say; without one, and without a
    key that spells it, the object has no filename and [relative_dir]
    raises AttributeError. *)
Theorem filename_argument_wins c content md cfg fn loc e loc' :
  init c content md cfg fn loc = Ok (e, loc') →
  (∀ f, fn = Some f → f ≠ "" → attrs e !! "filename" = Some (VStr f))
  ∧ ((fn = None ∨ fn = Some "") →
     (∀ k, is_Some (metadata e !! k) → Text.lower k ≠ "filename") →
     attrs e !! "filename" = None
     ∧ relative_dir cwd e = Raise (AttributeError "filename")).
Proof.
  intros H. apply Page_init_inv in H as (defaults & a0 & a1 & a2 & a3 & a4 & H).
  destruct H as (_ & H0 & H1 & H2 & H3 & H4 & ->). simpl.
  assert (init_summary (default ∅ md) a4 !! "filename"
          = init_filename fn (init_slug slugify repr_builtin a1) !! "filename") as ->.
  { rewrite init_summary_other by done.
    rewrite (init_status_other _ _ _ _ H4) by done.
    rewrite (init_locale_date_other _ _ _ _ H3) by done.
    by rewrite (init_date_format_other _ _ _ _ _ _ H2) by done. }
  split.
  - intros f -> Hf. unfold init_filename.
    destruct (Text.eqb f "") eqn:E; [by apply TextFacts.eqb_eq in E|].
    by rewrite lookup_insert_eq.
  - intros Hfn Hno.
    assert (init_filename fn (init_slug slugify repr_builtin a1) !! "filename" = None)
      as Hnone.
    { assert (init_filename fn (init_slug slugify repr_builtin a1)
              = init_slug slugify repr_builtin a1) as ->.
      { by destruct Hfn as [->| ->]. }
      rewrite init_slug_other by done.
      rewrite (init_lang_other _ _ _ _ H1) by done.
      rewrite init_author_other by done.
      rewrite lookup_insert_ne by done.
      rewrite (after_loop_other _ _ _ H0); [done|].
      intros k v Hin. apply Hno. apply dict_items_lookup in Hin. by eexists. }
    split; [done|].
    unfold relative_dir, getattr. simpl.
    rewrite init_summary_other by done.
    rewrite (init_status_other _ _ _ _ H4) by done.
    rewrite (init_locale_date_other _ _ _ _ H3) by done.
    rewrite (init_date_format_other _ _ _ _ _ _ H2) by done.
    by rewrite Hnone.
Qed.

Lemma init_date_format_some st a loc a' loc' :
  init_date_format setlocale st a loc = Ok (a', loc') →
  is_Some (a' !! "date_format").
Proof.
  unfold init_date_format. intros H. inv_bind H. rename a0 into a1.
  inv_bind H. rename a0 into date_format.
  unfold getattr in E0. destruct (a1 !! "date_format") as [f|] eqn:Hf; [|done].
  injection E0 as ->.
  destruct date_format; try (injection H as <- <-; by eexists).
  inv_bind H. inv_bind H. inv_bind H. injection H as <- <-.
  rewrite lookup_insert_eq. by eexists.
Qed.

Lemma init_locale_date_some a loc a' :
  init_locale_date strftime a loc = Ok a' →
  is_Some (a !! "date") → is_Some (a' !! "locale_date").
Proof.
  unfold init_locale_date. intros H [date Hd]. rewrite Hd in H.
  destruct date; try done.
  all: inv_bind H; destruct a0; try done; inv_bind H; injection H as <-.
  all: rewrite lookup_insert_eq; by eexists.
Qed.

Lemma init_status_some st a a' :
  init_status now st a = Ok a' → is_Some (a' !! "status").
Proof.
  intros H. destruct (a !! "status") as [s|] eqn:Hs.
  - unfold init_status in H. rewrite Hs in H. injection H as <-. by eexists.
  - destruct (init_status_spec _ _ _ H Hs) as (? & ? & _ & _ & ->). by eexists.
Qed.

(** X15: what a template can rely on.  A constructed object always has
    a template, an in_default_lang flag, a date format and a status; it
    has a language when the settings name a default one, an author when
    they name one, a slug when it has a title and a locale_date when it
    has a date. *)
Theorem attributes_after_construction c content md cfg fn loc e loc' :
  init c content md cfg fn loc = Ok (e, loc') →
  is_Some (attrs e !! "template")
  ∧ is_Some (attrs e !! "in_default_lang")
  ∧ is_Some (attrs e !! "date_format")
  ∧ is_Some (attrs e !! "status")
  ∧ (is_Some (settings e !! "DEFAULT_LANG") → is_Some (attrs e !! "lang"))
  ∧ (is_Some (settings e !! "AUTHOR") → is_Some (attrs e !! "author"))
  ∧ (is_Some (attrs e !! "title") → is_Some (attrs e !! "slug"))
  ∧ (is_Some (attrs e !! "date") → is_Some (attrs e !! "locale_date")).
Proof.
  intros H. apply Page_init_inv in H as (defaults & a0 & a1 & a2 & a3 & a4 & H).
  destruct H as (_ & H0 & H1 & H2 & H3 & H4 & ->). simpl.
  set (st := effective_settings _DEFAULT_CONFIG cfg) in *.
  set (t0 := <["template" := _get_template c a0]> a0) in *.
  assert (∀ x, x ≠ "_summary" → x ≠ "status" →
               init_summary (default ∅ md) a4 !! x = a3 !! x) as K3.
  { intros x ? ?. rewrite init_summary_other by done.
    by rewrite (init_status_other _ _ _ _ H4) by done. }
  assert (∀ x, x ≠ "_summary" → x ≠ "status" → x ≠ "locale_date" →
               init_summary (default ∅ md) a4 !! x = a2 !! x) as K2.
  { intros x ? ? ?. rewrite K3 by done.
    by rewrite (init_locale_date_other _ _ _ _ H3) by done. }
  assert (∀ x, x ≠ "_summary" → x ≠ "status" → x ≠ "locale_date" →
               x ≠ "date_format" → x ≠ "filename" →
               init_summary (default ∅ md) a4 !! x
               = init_slug slugify repr_builtin a1 !! x) as K1.
  { intros x ? ? ? ? ?. rewrite K2 by done.
    rewrite (init_date_format_other _ _ _ _ _ _ H2) by done.
    by rewrite init_filename_other by done. }
  split_and!.
  - rewrite K1, init_slug_other by done.
    rewrite (init_lang_other _ _ _ _ H1) by done.
    rewrite init_author_other by done. unfold t0.
    rewrite lookup_insert_eq. by eexists.
  - rewrite K1, init_slug_other by done.
    apply init_lang_spec in H1. destruct (st !! "DEFAULT_LANG").
    + destruct H1 as (? & ? & _ & _ & _ & ->). by eexists.
    + destruct H1 as [-> _]. by eexists.
  - rewrite K2 by done. apply (init_date_format_some _ _ _ _ _ H2).
  - rewrite init_summary_other by done. apply (init_status_some _ _ _ H4).
  - intros [d Hd]. rewrite K1, init_slug_other by done.
    apply init_lang_spec in H1. rewrite Hd in H1.
    destruct H1 as (? & ? & _ & _ & -> & _). by eexists.
  - intros [n Hn]. rewrite K1, init_slug_other by done.
    assert (is_Some (init_author slugify repr_builtin st t0 !! "author")) as [w Hw].
    { unfold init_author. destruct (t0 !! "author") as [w|] eqn:Hw.
      - rewrite Hw. by eexists.
      - rewrite Hn, lookup_insert_eq. by eexists. }
    apply (init_lang_keeps _ _ _ _ _ H1) in Hw; [|done]. rewrite Hw. by eexists.
  - rewrite !K1 by done. unfold init_slug. intros [title Ht].
    destruct (a1 !! "slug") as [s|] eqn:Hs.
    + destruct (a1 !! "title"); rewrite Hs; by eexists.
    + destruct (a1 !! "title") as [t|] eqn:Ht'.
      * rewrite lookup_insert_eq. by eexists.
      * by rewrite Ht' in Ht.
  - rewrite K3 by done. rewrite (init_locale_date_other _ _ _ _ H3) by done.
    rewrite init_summary_other by done. intros Hd.
    destruct (init_locale_date_some _ _ _ H3 Hd) as [l Hl].
    rewrite (init_status_keeps _ _ _ _ _ H4 Hl). by eexists.
Qed.

End Construction.

(** ** URLs *)

(** ** Templates *)

Module FormatFacts.

Lemma brace_free_cons c s :
  brace_free (String c s) = true ↔ c ≠ "{"%char ∧ c ≠ "}"%char ∧ brace_free s = true.
Proof.
  unfold brace_free. simpl.
  rewrite andb_true_iff, negb_true_iff, orb_false_iff, !bool_decide_eq_false.
  tauto.
Qed.

(** A template without a brace is its own rendering. *)
Lemma go_plain render kwargs s :
  brace_free s = true → Format.go render kwargs None s = Ok s.
Proof.
  induction s as [|c s IH]; [done|].
  intros (Ho & Hc & Hs)%brace_free_cons. simpl.
  rewrite !bool_decide_eq_false_2 by done.
  by rewrite (IH Hs).
Qed.

(** Text without a brace after a template comes out after its
    rendering. *)
Lemma go_app render kwargs tail s :
  brace_free tail = true →
  ∀ inside out,
    Format.go render kwargs inside s = Ok out →
    Format.go render kwargs inside (s +:+ tail) = Ok (out +:+ tail).
Proof.
  intros Htail.
  remember (String.length s) as n eqn:Hn.
  revert s Hn. induction (lt_wf n) as [n _ IH]. intros s -> inside out H.
  destruct inside as [acc|].
  - destruct s as [|c s]; [done|].
    rewrite TextFacts.app_cons. simpl in *.
    case_bool_decide.
    + inv_bind H. inv_bind H. injection H as <-.
      rewrite E. simpl.
      rewrite (IH (String.length s) ltac:(simpl; lia) s eq_refl None _ E0). simpl.
      by rewrite TextFacts.app_assoc.
    + destruct (Format.special c); [done|].
      apply (IH (String.length s) ltac:(simpl; lia) s eq_refl _ _ H).
  - destruct s as [|c s].
    + injection H as <-. by apply go_plain.
    + rewrite TextFacts.app_cons. simpl in *.
      case_bool_decide.
      * destruct s as [|d s]; [done|].
        rewrite TextFacts.app_cons.
        case_bool_decide.
        -- inv_bind H. injection H as <-.
           by rewrite (IH (String.length s) ltac:(simpl; lia) s eq_refl None _ E).
        -- rewrite <- TextFacts.app_cons.
           apply (IH (String.length (String d s)) ltac:(simpl; lia) (String d s) eq_refl _ _ H).
      * case_bool_decide.
        -- destruct s as [|d s]; [done|].
           rewrite TextFacts.app_cons.
           case_bool_decide; [|done].
           inv_bind H. injection H as <-.
           by rewrite (IH (String.length s) ltac:(simpl; lia) s eq_refl None _ E).
        -- inv_bind H. injection H as <-.
           by rewrite (IH (String.length s) ltac:(simpl; lia) s eq_refl None _ E).
Qed.

End FormatFacts.

Module PathFacts.

Lemma take_drop n s : posixpath.take_chars n s +:+ posixpath.drop_chars n s = s.
Proof.
  revert s. induction n as [|n IH]; intros [|c s]; simpl; try done.
  rewrite TextFacts.app_cons. by rewrite IH.
Qed.

(** [splitext] cuts the path in two. *)
Lemma splitext_app p :
  (posixpath.splitext p).1 +:+ (posixpath.splitext p).2 = p.
Proof.
  unfold posixpath.splitext.
  destruct (posixpath.rfind "." p) as [i|]; simpl.
  - case_match; simpl; [apply take_drop|apply TextFacts.app_nil_r].
  - apply TextFacts.app_nil_r.
Qed.

End PathFacts.

Section URLs.
Variable repr_builtin : value → string.
Variable now : Z.

Abbreviation unicode := (unicode_ repr_builtin).

Lemma upper_app s t : Text.upper (s +:+ t) = Text.upper s +:+ Text.upper t.
Proof.
  induction s as [|c s IH]; [done|].
  rewrite TextFacts.app_cons. unfold Text.upper in *. simpl. by rewrite IH.
Qed.

Lemma fq_key_template_key c (b : bool) key :
  Text.upper (class_name c +:+ "_" +:+ (if b then key else "lang_" +:+ key))
  = template_key c b key.
Proof.
  unfold template_key. destruct b; rewrite !upper_app; reflexivity.
Qed.

(** C2: [url] and [save_as] format the template the settings hold under
    "<CLASSNAME>_URL" and "<CLASSNAME>_SAVE_AS" for an object in the
    default language, and under "<CLASSNAME>_LANG_URL" and
    "<CLASSNAME>_LANG_SAVE_AS" otherwise, with the parameters slug, lang,
    date, author and category; for an article of slug foo this gives
    "foo.html" from ARTICLE_URL = "{slug}.html" in the default language,
    and "<lang>/foo.html" from ARTICLE_LANG_URL = "{lang}/{slug}.html"
    outside it. *)
Theorem C2_url_from_template (self : Page) (b : bool) (default_category : value) :
  attrs self !! "in_default_lang" = Some (VBool b) →
  settings self !! "DEFAULT_CATEGORY" = Some default_category →
  url_format now self = Ok (parameters now self default_category)
  ∧ (∀ key template,
       settings self !! template_key (cls self) b key = Some (VStr template) →
       get_url_setting repr_builtin now self key
       = Format.format unicode template (parameters now self default_category))
  ∧ url repr_builtin now self = get_url_setting repr_builtin now self "url"
  ∧ save_as repr_builtin now self = get_url_setting repr_builtin now self "save_as"
  ∧ template_key ArticleC true "url" = "ARTICLE_URL"
  ∧ template_key ArticleC false "url" = "ARTICLE_LANG_URL"
  ∧ template_key ArticleC true "save_as" = "ARTICLE_SAVE_AS"
  ∧ template_key ArticleC false "save_as" = "ARTICLE_LANG_SAVE_AS"
  ∧ (cls self = ArticleC → b = true →
     attrs self !! "slug" = Some (VStr "foo") →
     settings self !! "ARTICLE_URL" = Some (VStr "{slug}.html") →
     url repr_builtin now self = Ok "foo.html")
  ∧ (∀ lang, cls self = ArticleC → b = false →
     attrs self !! "slug" = Some (VStr "foo") →
     attrs self !! "lang" = Some (VStr lang) →
     settings self !! "ARTICLE_LANG_URL" = Some (VStr "{lang}/{slug}.html") →
     url repr_builtin now self = Ok (lang +:+ "/foo.html")).
Proof.
  intros Hb Hdc.
  assert (url_format now self = Ok (parameters now self default_category)) as Hfmt.
  { unfold url_format, getitem. by rewrite Hdc. }
  assert (∀ key template,
       settings self !! template_key (cls self) b key = Some (VStr template) →
       get_url_setting repr_builtin now self key
       = Format.format unicode template (parameters now self default_category)) as Hgen.
  { intros key template Ht.
    unfold get_url_setting, getattr. rewrite Hb. simpl.
    unfold _expand_settings, getitem.
    rewrite fq_key_template_key, Ht. simpl. by rewrite Hfmt. }
  split_and!; try done.
  - intros Hc -> Hslug Ht. unfold url.
    rewrite (Hgen "url" "{slug}.html") by (by rewrite Hc).
    unfold parameters. rewrite Hslug. reflexivity.
  - intros lang Hc -> Hslug Hlang Ht. unfold url.
    rewrite (Hgen "url" "{lang}/{slug}.html") by (by rewrite Hc).
    unfold parameters. rewrite Hslug, Hlang. reflexivity.
Qed.

(** X16: what [url] and [save_as] raise.  The template is read under
    the key of the class and of the language case: a missing key is a
    KeyError of that key and a template that is not text an
    AttributeError; the parameters are built before the template is
    formatted, so settings without DEFAULT_CATEGORY are a KeyError even
    for an object that has a category. *)
Theorem url_setting_errors (self : Page) (b : bool) (key : string) :
  attrs self !! "in_default_lang" = Some (VBool b) →
  get_url_setting repr_builtin now self key
  = match settings self !! template_key (cls self) b key with
    | None => Raise (KeyError (template_key (cls self) b key))
    | Some (VStr template) =>
        match settings self !! "DEFAULT_CATEGORY" with
        | None => Raise (KeyError "DEFAULT_CATEGORY")
        | Some default_category =>
            Format.format unicode template (parameters now self default_category)
        end
    | Some _ => Raise (AttributeError "format")
    end.
Proof.
  intros Hb. unfold get_url_setting, getattr. rewrite Hb. simpl.
  unfold _expand_settings, getitem. rewrite fq_key_template_key.
  destruct (settings self !! template_key (cls self) b key) as [v|]; [|done].
  simpl. destruct v; try done.
  unfold url_format, getitem.
  by destruct (settings self !! "DEFAULT_CATEGORY").
Qed.

Lemma go_prefix render kwargs pre s :
  brace_free pre = true →
  Format.go render kwargs None (pre +:+ s)
  = (out ← Format.go render kwargs None s; Ok (pre +:+ out)).
Proof.
  induction pre as [|c pre IH].
  - intros _. change ("" +:+ s) with s.
    by destruct (Format.go render kwargs None s).
  - intros (Ho & Hc & Hs)%FormatFacts.brace_free_cons.
    rewrite TextFacts.app_cons. simpl.
    rewrite !bool_decide_eq_false_2 by done.
    rewrite (IH Hs). by destruct (Format.go render kwargs None s).
Qed.

(** X17: a template without a brace is the url of every object of the
    class, and a template of the form pre{field}post, with no other
    brace, gives pre, the text of the parameter and post. *)
Theorem template_rendering (self : Page) (b : bool) (key : string)
    (default_category : value) :
  attrs self !! "in_default_lang" = Some (VBool b) →
  settings self !! "DEFAULT_CATEGORY" = Some default_category →
  (∀ template,
     settings self !! template_key (cls self) b key = Some (VStr template) →
     brace_free template = true →
     get_url_setting repr_builtin now self key = Ok template)
  ∧ (∀ pre name post v,
       settings self !! template_key (cls self) b key
       = Some (VStr (pre +:+ "{" +:+ name +:+ "}" +:+ post)) →
       brace_free pre = true →
       brace_free post = true →
       Format.lookup_kw name (parameters now self default_category) = Some v →
       get_url_setting repr_builtin now self key
       = Ok (pre +:+ unicode v +:+ post)).
Proof.
  intros Hb Hdc.
  assert (∀ template,
            settings self !! template_key (cls self) b key = Some (VStr template) →
            get_url_setting repr_builtin now self key
            = Format.format unicode template (parameters now self default_category))
    as Hgen.
  { intros template Ht. unfold get_url_setting, getattr. rewrite Hb. simpl.
    unfold _expand_settings, getitem. rewrite fq_key_template_key, Ht. simpl.
    unfold url_format, getitem. by rewrite Hdc. }
  split.
  - intros template Ht Hplain. rewrite (Hgen _ Ht).
    by apply FormatFacts.go_plain.
  - intros pre name post v Ht Hpre Hpost Hv. rewrite (Hgen _ Ht).
    unfold Format.format. rewrite go_prefix by done.
    assert (Format.go unicode (parameters now self default_category) None
              ("{" +:+ name +:+ "}" +:+ post)
            = Ok (unicode v +:+ post)) as ->; [|done].
    assert (name ∈ ["slug"; "lang"; "date"; "author"; "category"]) as Hname.
    { unfold parameters in Hv. simpl in Hv.
      repeat (case_bool_decide; [subst name; apply (bool_decide_unpack _); vm_compute; exact I|]). done. }
    repeat (apply elem_of_cons in Hname as [->|Hname]);
      [..|by apply elem_of_nil in Hname];
      simpl; unfold Format.field; simpl; simpl in Hv; injection Hv as <-;
      change ("" +:+ post) with post;
      by rewrite (FormatFacts.go_plain _ _ _ Hpost).
Qed.

End URLs.

(** ** Link rewriting *)

Section Rewriting.
Variable repr_builtin : value → string.
Variable now : Z.
Variable cwd : string.

Abbreviation update_content := (_update_content repr_builtin now cwd).

(** [_update_content] finds the leftmost match of the pattern, puts the
    answer of [replacer] in its place and goes on after it. *)
Lemma _update_content_unfold self _context content siteurl :
  update_content self _context content siteurl =
    match Re.search hrefs content with
    | Some (pre, m, rest) =>
        t ← replacer repr_builtin now cwd self _context m;
        out ← update_content self _context rest siteurl;
        Ok (pre +:+ t +:+ out)
    | None => Ok content
    end.
Proof.
  unfold _update_content. apply ReFacts.sub_unfold, ReFacts.hrefs_nonempty.
Qed.

(** A match found by [search] has the five groups, and the content is
    the text before it, the match and the text after it. *)
Lemma search_hrefs content pre m rest :
  Re.search hrefs content = Some (pre, m, rest) →
  ∃ markup quote what value,
    m = hrefs_groups markup quote what value
    ∧ content = pre +:+ markup +:+ quote +:+ ("|" +:+ what +:+ "|" +:+ value)
                +:+ quote +:+ rest
    ∧ attribute_markup markup
    ∧ quote_mark quote.
Proof.
  intros H. apply ReFacts.search_sound in H as (s0 & -> & H).
  apply ReFacts.match_at_sound in H as (w & -> & H).
  apply ReFacts.hrefs_matches
    in H as (markup & quote & what & value & -> & -> & _ & Hm & Hq).
  exists markup, quote, what, value. split_and!; [done| |done..].
  by rewrite !TextFacts.app_assoc.
Qed.


(** Content in which [replacer] leaves every match as it is (no match is
    a reference to a file of [filenames]) is returned unchanged. *)
Lemma _update_content_unchanged self _context content siteurl :
  (∀ m, m ∈ Re.finditer hrefs content →
        replacer repr_builtin now cwd self _context m = matched m) →
  update_content self _context content siteurl = Ok content.
Proof.
  remember (S (String.length content)) as n eqn:Hn.
  assert (String.length content < n) as Hlt by lia. clear Hn.
  revert content Hlt. induction n as [|n IH]; intros content Hlt Hm; [lia|].
  rewrite _update_content_unfold.
  rewrite (ReFacts.finditer_unfold hrefs ReFacts.hrefs_nonempty) in Hm.
  destruct (Re.search hrefs content) as [[[pre m] rest]|] eqn:Hs; [|done].
  pose proof (ReFacts.search_shorter hrefs ReFacts.hrefs_nonempty _ _ _ _ Hs) as Hr.
  destruct (search_hrefs _ _ _ _ Hs)
    as (markup & quote & what & value & -> & -> & _ & _).
  rewrite (Hm _ (list_elem_of_here _ _)).
  rewrite IH; [|lia|intros m Hin; apply Hm; by right].
  simpl. by rewrite !TextFacts.app_assoc.
Qed.

(** Two calls of [get_content] with the same siteurl return the same
    text, the second one from the cache, which it leaves as it is. *)
Lemma get_content_twice self _context cache siteurl text cache' :
  coherent repr_builtin now cwd self _context cache →
  get_content_memoized repr_builtin now cwd self _context cache siteurl
  = Ok (text, cache') →
  get_content repr_builtin now cwd self _context siteurl = Ok text
  ∧ coherent repr_builtin now cwd self _context cache'
  ∧ get_content_memoized repr_builtin now cwd self _context cache' siteurl
    = Ok (text, cache').
Proof.
  unfold get_content_memoized, memoized. intros Hc H.
  destruct (cache !! siteurl) as [t|] eqn:E.
  - injection H as <- <-. rewrite E. split_and!; [by apply Hc|done..].
  - inv_bind H. injection H as <- <-.
    rewrite lookup_insert_eq. split_and!; [done| |done].
    intros u t Hu. destruct (decide (siteurl = u)) as [<-|Hne].
    + rewrite lookup_insert_eq in Hu. by injection Hu as <-.
    + rewrite lookup_insert_ne in Hu by done. by apply Hc.
Qed.

(** The rewriting does not read the siteurl. *)
Lemma _update_content_siteurl self _context content siteurl siteurl' :
  update_content self _context content siteurl
  = update_content self _context content siteurl'.
Proof. reflexivity. Qed.

(** *** What the rewriting leaves alone *)

Lemma all_app_inv p s t :
  Text.all p (s +:+ t) = true → Text.all p s = true ∧ Text.all p t = true.
Proof.
  induction s as [|c s IH]; [done|].
  rewrite TextFacts.app_cons. simpl.
  intros [Hc Hs]%andb_prop. rewrite Hc. by apply IH.
Qed.

(** Every match the pattern finds has the five groups. *)
Lemma finditer_hrefs content m :
  m ∈ Re.finditer hrefs content →
  ∃ markup quote what value, m = hrefs_groups markup quote what value.
Proof.
  remember (S (String.length content)) as n eqn:Hn.
  assert (String.length content < n) as Hlt by lia. clear Hn.
  revert content Hlt. induction n as [|n IH]; intros content Hlt Hm; [lia|].
  rewrite (ReFacts.finditer_unfold hrefs ReFacts.hrefs_nonempty) in Hm.
  destruct (Re.search hrefs content) as [[[pre m'] rest]|] eqn:Hs;
    [|by apply elem_of_nil in Hm].
  apply elem_of_cons in Hm as [->|Hm].
  - destruct (search_hrefs _ _ _ _ Hs) as (markup & quote & what & value & -> & _).
    by eexists _, _, _, _.
  - apply (IH rest); [|done].
    apply (ReFacts.search_shorter hrefs ReFacts.hrefs_nonempty) in Hs. lia.
Qed.

(** X21: content without a vertical bar has no placeholder: it is
    returned as it is, for any object and with or without a context. *)
Theorem content_without_bar_unchanged self _context content siteurl :
  Text.all (Re.not_ "|") content = true →
  update_content self _context content siteurl = Ok content.
Proof.
  intros Hall. rewrite _update_content_unfold.
  destruct (Re.search hrefs content) as [[[pre m] rest]|] eqn:Hs; [|done].
  destruct (search_hrefs _ _ _ _ Hs)
    as (markup & quote & what & value & _ & -> & _ & _).
  apply all_app_inv in Hall as [_ Hall].
  apply all_app_inv in Hall as [_ Hall].
  apply all_app_inv in Hall as [_ Hall].
  apply all_app_inv in Hall as [Hall _].
  done.
Qed.

(** X22: a placeholder of a kind other than filename, and a reference
    from the root to a file that [filenames] does not hold, are left as
    they are: content that has no other placeholder is returned
    unchanged. *)
Theorem unresolved_references_left_alone self _context content siteurl :
  (∀ m, m ∈ Re.finditer hrefs content →
        ∃ what value,
          Re.group m "what" = Ok what
          ∧ Re.group m "value" = Ok value
          ∧ (what ≠ "filename"
             ∨ ∃ context key,
                 _context = Some context
                 ∧ value = "/" +:+ key
                 ∧ filenames context !! key = None)) →
  update_content self _context content siteurl = Ok content.
Proof.
  intros H. apply _update_content_unchanged. intros m Hm.
  destruct (H m Hm) as (what & value & Hwhat & Hvalue & Hcase).
  destruct (finditer_hrefs _ _ Hm) as (markup & quote & what' & value' & ->).
  vm_compute in Hwhat. injection Hwhat as ->.
  vm_compute in Hvalue. injection Hvalue as ->.
  unfold replacer, matched. simpl.
  destruct Hcase as [Hne|(context & key & -> & -> & Hkey)].
  - destruct (Text.eqb what "filename") eqn:E; [|done].
    by apply TextFacts.eqb_eq in E.
  - destruct (Text.eqb what "filename"); [|done].
    change ("/" +:+ key) with (String "/"%char key). simpl. by rewrite Hkey.
Qed.

Lemma normpath_nonempty path : posixpath.normpath path ≠ "".
Proof.
  unfold posixpath.normpath. destruct (Text.eqb path ""); [done|]. cbv zeta.
  match goal with |- (if Text.eqb ?p "" then _ else _) ≠ _ =>
    destruct (Text.eqb p "") eqn:E; [done|] end.
  intros Hp. rewrite Hp in E. by rewrite TextFacts.eqb_refl in E.
Qed.

Lemma relpath_ok path start :
  path ≠ "" → ∃ rel, posixpath.relpath cwd path start = Ok rel.
Proof.
  intros Hp. unfold posixpath.relpath.
  destruct (Text.eqb path "") eqn:E; [by apply TextFacts.eqb_eq in E|].
  cbv zeta. case_match; by eexists.
Qed.

Lemma relative_dir_ok self f p :
  attrs self !! "filename" = Some (VStr f) →
  settings self !! "PATH" = Some (VStr p) →
  ∃ dir, relative_dir cwd self = Ok dir.
Proof.
  intros Hf Hp. unfold relative_dir, getattr, getitem. rewrite Hf, Hp. simpl.
  destruct (relpath_ok (posixpath.abspath cwd f) (posixpath.abspath cwd p))
    as [rel ->]; [apply normpath_nonempty|].
  by eexists.
Qed.

Lemma get_relative_filename_ok self f p filename :
  attrs self !! "filename" = Some (VStr f) →
  settings self !! "PATH" = Some (VStr p) →
  ∃ rel, get_relative_filename cwd self filename = Ok rel.
Proof.
  intros Hf Hp. unfold get_relative_filename, getattr, getitem. rewrite Hf, Hp.
  destruct (Text.eqb filename ""); simpl; apply relpath_ok, normpath_nonempty.
Qed.

(** The key under which [replacer] looks a reference up. *)
Lemma replacer_filename self context markup quote value f p :
  attrs self !! "filename" = Some (VStr f) →
  settings self !! "PATH" = Some (VStr p) →
  ∃ key,
    replacer repr_builtin now cwd self (Some context)
      (hrefs_groups markup quote "filename" value)
    = (origin ← match filenames context !! key with
                | Some target => url repr_builtin now target
                | None => Ok ("|filename|" +:+ value)
                end;
       Ok (markup +:+ quote +:+ origin +:+ quote)).
Proof.
  intros Hf Hp. unfold replacer. simpl.
  destruct value as [|c value'] eqn:Hv.
  - destruct (relative_dir_ok self f p Hf Hp) as [dir ->]. simpl.
    destruct (get_relative_filename_ok self f p (posixpath.join dir "") Hf Hp)
      as [key ->]. simpl.
    exists key. by destruct (filenames context !! key).
  - case_bool_decide.
    + exists value'. simpl. by destruct (filenames context !! value').
    + destruct (relative_dir_ok self f p Hf Hp) as [dir ->]. simpl.
      destruct (get_relative_filename_ok self f p
                  (posixpath.join dir (String c value')) Hf Hp) as [key ->].
      simpl. exists key. by destruct (filenames context !! key).
Qed.

(** X23: with an empty index of files nothing is rewritten: the content
    of an object that has a filename, under settings with a PATH, comes
    back unchanged, whatever placeholders it holds. *)
Theorem empty_index_rewrites_nothing self context content siteurl f p :
  attrs self !! "filename" = Some (VStr f) →
  settings self !! "PATH" = Some (VStr p) →
  filenames context = ∅ →
  update_content self (Some context) content siteurl = Ok content.
Proof.
  intros Hf Hp Hempty. apply _update_content_unchanged. intros m Hm.
  destruct (finditer_hrefs _ _ Hm) as (markup & quote & what & value & ->).
  destruct (decide (what = "filename")) as [->|Hne].
  - destruct (replacer_filename self context markup quote value f p Hf Hp)
      as [key ->].
    by rewrite Hempty, lookup_empty.
  - unfold replacer, matched. simpl.
    destruct (Text.eqb what "filename") eqn:E; [|done].
    by apply TextFacts.eqb_eq in E.
Qed.

Lemma _update_content_ok self _context content siteurl :
  (∀ m, m ∈ Re.finditer hrefs content →
        ∃ t, replacer repr_builtin now cwd self _context m = Ok t) →
  ∃ out, update_content self _context content siteurl = Ok out.
Proof.
  remember (S (String.length content)) as n eqn:Hn.
  assert (String.length content < n) as Hlt by lia. clear Hn.
  revert content Hlt. induction n as [|n IH]; intros content Hlt Hm; [lia|].
  rewrite _update_content_unfold.
  rewrite (ReFacts.finditer_unfold hrefs ReFacts.hrefs_nonempty) in Hm.
  destruct (Re.search hrefs content) as [[[pre m] rest]|] eqn:Hs; [|by eexists].
  pose proof (ReFacts.search_shorter hrefs ReFacts.hrefs_nonempty _ _ _ _ Hs) as Hr.
  destruct (Hm _ (list_elem_of_here _ _)) as [t ->].
  destruct (IH rest) as [out ->]; [lia|intros m' Hin; apply Hm; by right|].
  by eexists.
Qed.

(** X24: the rewriting never raises for an object that has a filename,
    under settings with a PATH and with a context, when the url of every
    file of the index can be formed. *)
Theorem rewriting_never_raises self context content siteurl f p :
  attrs self !! "filename" = Some (VStr f) →
  settings self !! "PATH" = Some (VStr p) →
  (∀ key target, filenames context !! key = Some target →
                 ∃ u, url repr_builtin now target = Ok u) →
  ∃ out, update_content self (Some context) content siteurl = Ok out.
Proof.
  intros Hf Hp Hurl. apply _update_content_ok. intros m Hm.
  destruct (finditer_hrefs _ _ Hm) as (markup & quote & what & value & ->).
  destruct (decide (what = "filename")) as [->|Hne].
  - destruct (replacer_filename self context markup quote value f p Hf Hp)
      as [key ->].
    destruct (filenames context !! key) as [target|] eqn:Hk; [|by eexists].
    destruct (Hurl _ _ Hk) as [u ->]. by eexists.
  - unfold replacer. simpl.
    destruct (Text.eqb what "filename") eqn:E; [|by eexists].
    by apply TextFacts.eqb_eq in E.
Qed.

End Rewriting.

(** ** Categories, tags and authors *)

(** ** Blanks around a name *)

Module StripFacts.

Lemma rev_onto_app s acc : Text.rev_onto s acc = Text.rev s +:+ acc.
Proof.
  unfold Text.rev. revert acc. induction s as [|c s IH]; intros acc; [done|].
  simpl. rewrite (IH (String c acc)), (IH (String c "")).
  by rewrite TextFacts.app_assoc.
Qed.

Lemma rev_cons c s : Text.rev (String c s) = Text.rev s +:+ String c "".
Proof. unfold Text.rev at 1. simpl. apply rev_onto_app. Qed.

Lemma rev_app s t : Text.rev (s +:+ t) = Text.rev t +:+ Text.rev s.
Proof.
  induction s as [|c s IH].
  - change ("" +:+ t) with t. by rewrite TextFacts.app_nil_r.
  - rewrite TextFacts.app_cons, !rev_cons, IH. apply TextFacts.app_assoc.
Qed.

Lemma rev_rev s : Text.rev (Text.rev s) = s.
Proof.
  induction s as [|c s IH]; [done|].
  rewrite rev_cons, rev_app, IH. reflexivity.
Qed.

Lemma blank_app s t : blank s = true → blank t = true → blank (s +:+ t) = true.
Proof. apply ReFacts.all_app. Qed.

Lemma blank_rev s : blank s = true → blank (Text.rev s) = true.
Proof.
  induction s as [|c s IH]; [done|]. unfold blank in *. simpl.
  intros [Hc Hs]%andb_prop. rewrite rev_cons.
  apply ReFacts.all_app; [by apply IH|]. simpl. by rewrite Hc.
Qed.

Lemma lstrip_blank_app pre s :
  blank pre = true → Text.lstrip (pre +:+ s) = Text.lstrip s.
Proof.
  induction pre as [|c pre IH]; [done|]. unfold blank in *. simpl.
  intros [Hc Hs]%andb_prop. rewrite Hc. by apply IH.
Qed.

Lemma lstrip_blank s : blank s = true → Text.lstrip s = "".
Proof.
  intros H. rewrite <- (TextFacts.app_nil_r s). by rewrite lstrip_blank_app.
Qed.

Lemma rstrip_app_blank s post :
  blank post = true → Text.rstrip (s +:+ post) = Text.rstrip s.
Proof.
  intros H. unfold Text.rstrip.
  by rewrite rev_app, lstrip_blank_app by by apply blank_rev.
Qed.

Lemma lstrip_app s t :
  Text.lstrip (s +:+ t) = Text.lstrip s +:+ t
  ∨ Text.lstrip s = "" ∧ Text.lstrip (s +:+ t) = Text.lstrip t.
Proof.
  induction s as [|c s IH]; [by right|].
  rewrite TextFacts.app_cons. simpl.
  destruct (Text.is_unicode_space c); [done|by left].
Qed.

(** What [lstrip] returns does not start with a blank. *)
Lemma lstrip_head s :
  Text.lstrip s = ""
  ∨ ∃ c s', Text.lstrip s = String c s' ∧ Text.is_unicode_space c = false.
Proof.
  induction s as [|c s IH]; [by left|]. simpl.
  destruct (Text.is_unicode_space c) eqn:E; [done|].
  right. by exists c, s.
Qed.

Lemma lstrip_lstrip s : Text.lstrip (Text.lstrip s) = Text.lstrip s.
Proof.
  destruct (lstrip_head s) as [->|(c & s' & -> & Hc)]; [done|].
  simpl. by rewrite Hc.
Qed.

Lemma lstrip_rstrip_lstrip s :
  Text.lstrip (Text.rstrip (Text.lstrip s)) = Text.rstrip (Text.lstrip s).
Proof.
  destruct (lstrip_head s) as [->|(c & s' & -> & Hc)]; [done|].
  unfold Text.rstrip. rewrite rev_cons.
  destruct (lstrip_app (Text.rev s') (String c "")) as [->|[_ ->]].
  - rewrite rev_app. change (Text.rev (String c "")) with (String c "").
    rewrite TextFacts.app_cons. simpl. by rewrite Hc.
  - simpl. rewrite Hc. change (Text.rev (String c "")) with (String c "").
    simpl. by rewrite Hc.
Qed.

Lemma rstrip_rstrip s : Text.rstrip (Text.rstrip s) = Text.rstrip s.
Proof. unfold Text.rstrip. by rewrite rev_rev, lstrip_lstrip. Qed.

Lemma strip_strip s : Text.strip (Text.strip s) = Text.strip s.
Proof.
  unfold Text.strip. by rewrite lstrip_rstrip_lstrip, rstrip_rstrip.
Qed.

Lemma strip_blank_around pre s post :
  blank pre = true → blank post = true →
  Text.strip (pre +:+ s +:+ post) = Text.strip s.
Proof.
  intros Hpre Hpost. unfold Text.strip. rewrite lstrip_blank_app by done.
  destruct (lstrip_app s post) as [->|[-> ->]].
  - by apply rstrip_app_blank.
  - by rewrite lstrip_blank.
Qed.

End StripFacts.

Section Wrappers.
Variable slugify : string → string.
Variable repr_builtin : value → string.
Variable hash : string → Z.

Lemma URLWrapper_eq_name (w : URLWrapper) (other : value) :
  URLWrapper_eq repr_builtin w other
  = bool_decide (name w = unicode_ repr_builtin other).
Proof. reflexivity. Qed.

(** C10: [__eq__] compares the name of the wrapper with the unicode
    rendering of the other operand, whatever that operand is: a wrapper
    equals the text of its name, and any wrapper of any class that has the
    same name. *)
Theorem C10_eq_against_unicode_rendering (w : URLWrapper) (other : value)
    (c' : wrapper_class) (slug' : string) (settings' : Settings) :
  URLWrapper_eq repr_builtin w other
  = bool_decide (name w = unicode_ repr_builtin other)
  ∧ URLWrapper_eq repr_builtin w (VStr (name w)) = true
  ∧ URLWrapper_eq repr_builtin w
      (wrapper_value {| w_class := c'; name := name w; slug := slug';
                        w_settings := settings' |}) = true.
Proof.
  split_and!; [done|..]; unfold URLWrapper_eq; simpl; apply TextFacts.eqb_refl.
Qed.

(** C6 (amended): tags made from "foo" and from "foo " are equal and
    have the same hash: a tag strips the blanks around its name, and
    equality and hash read the name only, not the class, the slug or the
    settings. *)
Theorem C6_tags_equal_up_to_blanks (settings1 settings2 : Settings)
    (c1 c2 : wrapper_class) (n slug1 slug2 : string) :
  (∃ t1 t2,
     Tag slugify repr_builtin (VStr "foo") settings1 = Ok t1
     ∧ Tag slugify repr_builtin (VStr "foo ") settings2 = Ok t2
     ∧ URLWrapper_eq repr_builtin t1 (wrapper_value t2) = true
     ∧ URLWrapper_eq repr_builtin t2 (wrapper_value t1) = true
     ∧ URLWrapper_hash hash t1 = URLWrapper_hash hash t2)
  ∧ (let w1 := {| w_class := c1; name := n; slug := slug1; w_settings := settings1 |} in
     let w2 := {| w_class := c2; name := n; slug := slug2; w_settings := settings2 |} in
     URLWrapper_eq repr_builtin w1 (wrapper_value w2) = true
     ∧ URLWrapper_hash hash w1 = URLWrapper_hash hash w2).
Proof.
  split.
  - eexists _, _. split_and!; reflexivity.
  - simpl. split; [|done]. unfold URLWrapper_eq. simpl. apply TextFacts.eqb_refl.
Qed.

(** X18: a tag keeps its name without the blanks around it: names that
    differ by blanks at either end give tags of the same name and slug,
    which are equal and hash alike, and the name of a tag gives the same
    tag again. *)
Theorem tag_name_is_stripped (settings1 settings2 : Settings)
    (pre s post : string) :
  blank pre = true →
  blank post = true →
  ∃ t1 t2,
    Tag slugify repr_builtin (VStr s) settings1 = Ok t1
    ∧ Tag slugify repr_builtin (VStr (pre +:+ s +:+ post)) settings2 = Ok t2
    ∧ name t1 = name t2
    ∧ slug t1 = slug t2
    ∧ URLWrapper_eq repr_builtin t1 (wrapper_value t2) = true
    ∧ URLWrapper_hash hash t1 = URLWrapper_hash hash t2
    ∧ Tag slugify repr_builtin (VStr (name t1)) settings1 = Ok t1.
Proof.
  intros Hpre Hpost. eexists _, _. split_and!; [reflexivity..| | | | |]; simpl.
  - by rewrite StripFacts.strip_blank_around.
  - by rewrite StripFacts.strip_blank_around.
  - unfold URLWrapper_eq. simpl.
    rewrite StripFacts.strip_blank_around by done. apply TextFacts.eqb_refl.
  - unfold URLWrapper_hash. simpl. by rewrite StripFacts.strip_blank_around.
  - unfold Tag, URLWrapper_init. simpl. by rewrite StripFacts.strip_strip.
Qed.

(** X19: equality of wrappers agrees with their hash and their slug:
    two constructed wrappers that are equal are so in both directions,
    hash alike, have the same slug and equal the same operands; a
    wrapper equal to a text hashes like the name that text is. *)
Theorem equal_wrappers_hash_alike (c1 c2 : wrapper_class) (n1 n2 : value)
    (settings1 settings2 : Settings) :
  let w1 := URLWrapper_init slugify repr_builtin c1 n1 settings1 in
  let w2 := URLWrapper_init slugify repr_builtin c2 n2 settings2 in
  URLWrapper_eq repr_builtin w1 (wrapper_value w2) = true →
  URLWrapper_eq repr_builtin w2 (wrapper_value w1) = true
  ∧ URLWrapper_hash hash w1 = URLWrapper_hash hash w2
  ∧ slug w1 = slug w2
  ∧ (∀ other, URLWrapper_eq repr_builtin w1 other
              = URLWrapper_eq repr_builtin w2 other)
  ∧ (∀ s, URLWrapper_eq repr_builtin w1 (VStr s) = true →
          URLWrapper_hash hash w2 = hash s).
Proof.
  intros w1 w2 H. unfold URLWrapper_eq in *. simpl in *.
  apply TextFacts.eqb_eq in H. unfold URLWrapper_hash. simpl.
  rewrite H. split_and!; try done.
  - apply TextFacts.eqb_refl.
  - intros s Hs. apply TextFacts.eqb_eq in Hs. by rewrite <- Hs.
Qed.

(** X20: the url of a category, tag or author is its page name followed
    by the extension of the template, when that extension has no brace;
    both come from the setting "<CLASSNAME>_URL", and a setting that is
    not text is the answer of both. *)
Theorem url_extends_page_name (w : URLWrapper) (v : value) :
  w_settings w !! (Text.upper (wrapper_class_name (w_class w)) +:+ "_URL") = Some v →
  match v with
  | VStr template =>
      brace_free (posixpath.splitext template).2 = true →
      ∀ page,
        URLWrapper_page_name repr_builtin w = Ok (VStr page) →
        URLWrapper_url repr_builtin w
        = Ok (VStr (page +:+ (posixpath.splitext template).2))
  | _ =>
      URLWrapper_page_name repr_builtin w = Ok v
      ∧ URLWrapper_url repr_builtin w = Ok v
  end.
Proof.
  intros Hv. unfold URLWrapper_page_name, URLWrapper_url, _from_settings, getitem.
  cbv zeta. change ("_" +:+ "URL") with "_URL". rewrite Hv. simpl.
  destruct v; try done.
  intros Hext page Hpage. inv_bind Hpage. injection Hpage as <-.
  unfold Format.format in *.
  rewrite <- (PathFacts.splitext_app s) at 1.
  by rewrite (FormatFacts.go_app _ _ _ _ Hext _ _ E).
Qed.

End Wrappers.


(** ** Static files *)

Section StaticFacts.
Variable _DEFAULT_CONFIG : Settings.

Lemma join_cases a b :
  if Text.startswith b "/" then posixpath.join a b = b
  else posixpath.join a b = a +:+ b ∨ posixpath.join a b = a +:+ "/" +:+ b.
Proof.
  unfold posixpath.join. destruct (Text.startswith b "/"); [done|].
  destruct (Text.eqb a "" || Text.endswith a "/"); [by left|by right].
Qed.

(** X25: a static file is read from under PATH and written under
    OUTPUT_PATH, at its url, which is its source path unless a
    non-empty destination is given; a source path or a url that is
    absolute is used as it stands, outside these directories. *)
Theorem static_content_paths src_ dst cfg sc :
  StaticContent_init _DEFAULT_CONFIG src_ dst cfg = Ok sc →
  ∃ path output_path,
    effective_settings _DEFAULT_CONFIG cfg !! "PATH" = Some (VStr path)
    ∧ effective_settings _DEFAULT_CONFIG cfg !! "OUTPUT_PATH" = Some (VStr output_path)
    ∧ src sc = src_
    ∧ static_url sc = match dst with
                      | Some d => if Text.eqb d "" then src_ else d
                      | None => src_
                      end
    ∧ (if Text.startswith src_ "/" then filepath sc = src_
       else filepath sc = path +:+ src_ ∨ filepath sc = path +:+ "/" +:+ src_)
    ∧ (if Text.startswith (static_url sc) "/"
       then static_save_as sc = static_url sc
       else static_save_as sc = output_path +:+ static_url sc
            ∨ static_save_as sc = output_path +:+ "/" +:+ static_url sc).
Proof.
  unfold StaticContent_init. fold (effective_settings _DEFAULT_CONFIG cfg).
  intros H. inv_bind H. rename a into path. inv_bind H. rename a into output_path.
  injection H as <-. simpl.
  inv_bind E. unfold getitem in E1.
  destruct (effective_settings _DEFAULT_CONFIG cfg !! "PATH") as [vp|];
    simpl in E1; [|done].
  injection E1 as ->. destruct a; simpl in E; try done. injection E as ->.
  inv_bind E0. unfold getitem in E.
  destruct (effective_settings _DEFAULT_CONFIG cfg !! "OUTPUT_PATH") as [vo|];
    simpl in E; [|done].
  injection E as ->. destruct a; simpl in E0; try done. injection E0 as ->.
  exists path, output_path. split_and!; [done..| |]; apply join_cases.
Qed.

End StaticFacts.

(** * Runs on the sample inputs *)

Lemma sample_dict_items_perm (m : gmap string value) :
  Sample.dict_items m ≡ₚ map_to_list m.
Proof. reflexivity. Defined.

Lemma sample_strftime_total (l : Locale) (t : Z) (fmt : string) :
  ∃ text, Sample.strftime l t fmt = Ok text.
Proof. by eexists. Defined.

(** C6, as stated, fails: the names "Foo" and "foo" differ in case, and
    the tags are not equal. *)
Lemma C6_counterexample :
  ∃ t1 t2,
    Tag Sample.slugify Sample.repr_builtin (VStr "Foo") ∅ = Ok t1
    ∧ Tag Sample.slugify Sample.repr_builtin (VStr "foo ") ∅ = Ok t2
    ∧ name t1 = "Foo" ∧ name t2 = "foo"
    ∧ URLWrapper_eq Sample.repr_builtin t1 (wrapper_value t2) = false
    ∧ URLWrapper_eq Sample.repr_builtin t2 (wrapper_value t1) = false.
Proof. eexists _, _. split_and!; reflexivity. Qed.

(** C9, as stated, fails: the metadata give the status "draft", the
    default metadata hold "published" under the key "Status", the loop
    over the merged metadata reaches "status" before "Status", and the
    object is published. *)
Lemma C9_counterexample :
  ∃ e loc,
    Page_init Sample.slugify Sample.repr_builtin ∅ Sample.dict_items Sample.now
      Sample.setlocale Sample.strftime PageC "" (Some metadata_draft)
      (Some config_status) None "C"
    = Ok (e, loc)
    ∧ metadata_draft !! "status" = Some (VStr "draft")
    ∧ metadata e !! "status" = Some (VStr "draft")
    ∧ metadata e !! "Status" = Some (VStr "published")
    ∧ filter (λ k, bool_decide (Text.lower k = "status"))
        (Sample.dict_items (metadata e)).*1 = ["status"; "Status"]
    ∧ attrs e !! "status" = Some (VStr "published").
Proof. eexists _, _. split_and!; vm_compute; reflexivity. Qed.

(** C1: a placeholder in a quoted href attribute whose key is in
    [filenames] stays unresolved.  Alone in its tag it is replaced by
    the url of its target; followed in the same tag by another
    placeholder it is not: the pattern matches once in the tag, with the
    last placeholder as its path, and the first is part of the markup
    that is copied. *)
Theorem C1_first_placeholder_left :
  filenames Site.context !! "images/x.png" = Some Site.picture
  ∧ url Sample.repr_builtin Sample.now Site.picture = Ok "pages/x.html"
  ∧ Site.rewrite "<a href='|filename|/images/x.png'>z</a>"
    = Ok "<a href='pages/x.html'>z</a>"
  ∧ Re.finditer hrefs "<a href='|filename|/images/x.png' src='|filename|b.md'>z</a>"
    = [hrefs_groups "<a href='|filename|/images/x.png' src=" "'" "filename" "b.md"]
  ∧ Site.rewrite "<a href='|filename|/images/x.png' src='|filename|b.md'>z</a>"
    = Ok "<a href='|filename|/images/x.png' src='fr/b.html'>z</a>".
Proof. split_and!; vm_compute; reflexivity. Qed.

(** C4, as stated, fails: the language "EN" is "en" once lower-cased, the
    default language is "en", and the object is not in the default
    language. *)
Lemma C4_counterexample :
  ∃ e loc,
    Sample.construct PageC "" [("title", VStr "Hello"); ("lang", VStr "EN")] None
    = Ok (e, loc)
    ∧ settings e !! "DEFAULT_LANG" = Some (VStr "en")
    ∧ attrs e !! "lang" = Some (VStr "EN")
    ∧ Text.lower "EN" = Text.lower "en"
    ∧ attrs e !! "in_default_lang" = Some (VBool false).
Proof. eexists _, _. split_and!; vm_compute; reflexivity. Qed.


(** The path functions on the paths of the site. *)
Example normpath_climbs : posixpath.normpath "content/posts/../images/./x.png"
                          = "content/images/x.png".
Proof. reflexivity. Qed.

Example relpath_under_root :
  posixpath.relpath Sample.cwd "/home/site/content/posts/a.md" "/home/site/content"
  = Ok "posts/a.md".
Proof. reflexivity. Qed.

Example relpath_outside_root :
  posixpath.relpath Sample.cwd "/home/other/a.md" "content" = Ok "../../other/a.md".
Proof. reflexivity. Qed.

Example relative_dir_of_referrer :
  relative_dir Sample.cwd Site.referrer = Ok "posts".
Proof. vm_compute. reflexivity. Qed.

(** The pattern on a tag: the groups of the match, and the last of two
    attributes when a tag carries two. *)
Example match_one_attribute :
  Re.search hrefs "see <a href='|filename|/a.md'>a</a>"
  = Some ("see ", hrefs_groups "<a href=" "'" "filename" "/a.md", ">a</a>").
Proof. vm_compute. reflexivity. Qed.

Example match_last_attribute :
  Re.search hrefs "<img src='|filename|/a.png' data-src='|filename|/b.png'>"
  = Some ("", hrefs_groups "<img src='|filename|/a.png' data-src=" "'" "filename"
                "/b.png", ">").
Proof. vm_compute. reflexivity. Qed.

Example no_match_across_lines :
  Re.search hrefs (String.append "<a href='|filename|/a" (String "010" ".md'>")) = None.
Proof. vm_compute. reflexivity. Qed.

(** The rewriting on the site, case by case: a reference from the root
    of the content, one relative to the directory of the referrer, one
    that climbs out of it, and one to a file that is not there. *)
Example rewrite_found :
  Site.rewrite "<a href='|filename|/images/x.png'>x</a>"
  = Ok "<a href='pages/x.html'>x</a>".
Proof. vm_compute. reflexivity. Qed.

Example rewrite_relative :
  Site.rewrite "<a href='|filename|b.md'> <img src='|filename|../images/x.png'>"
  = Ok "<a href='fr/b.html'> <img src='pages/x.html'>".
Proof. vm_compute. reflexivity. Qed.

Example rewrite_missing :
  Site.rewrite "<a href='|filename|/images/y.png'>y</a>"
  = Ok "<a href='|filename|/images/y.png'>y</a>".
Proof. vm_compute. reflexivity. Qed.

Example rewrite_other_kind :
  Site.rewrite "<a href='|category|misc'>misc</a>"
  = Ok "<a href='|category|misc'>misc</a>".
Proof. vm_compute. reflexivity. Qed.

(** C8: a second pass changes the output of the first.  Of the two
    references of one tag the pattern matches the last one only, so the
    first pass leaves the reference of [src] in place although its file
    is in [filenames]; the second pass, in which [data-src] holds a
    url, reaches it. *)
Theorem C8_second_pass_rewrites_more :
  let content := "<img src='|filename|/images/x.png' data-src='|filename|b.md'>" in
  filenames Site.context !! "images/x.png" = Some Site.picture
  ∧ url Sample.repr_builtin Sample.now Site.picture = Ok "pages/x.html"
  ∧ Site.rewrite content
    = Ok "<img src='|filename|/images/x.png' data-src='fr/b.html'>"
  ∧ (Site.rewrite content ≫= Site.rewrite)
    = Ok "<img src='pages/x.html' data-src='fr/b.html'>".
Proof. split_and!; vm_compute; reflexivity. Qed.

(** ** The theorems at concrete inputs *)

Lemma map_Forall_compute (m : gmap string value) (P : string → value → bool) :
  forallb (λ kv, P kv.1 kv.2) (map_to_list m) = true →
  ∀ k v, m !! k = Some v → P k v = true.
Proof.
  intros H k v Hk. apply elem_of_map_to_list in Hk.
  rewrite forallb_forall in H. apply list_elem_of_In in Hk.
  by apply (H (k, v)).
Qed.


(** The two relative references above, run: the sibling is found and
    its url put in, the picture is missing and its placeholder stays. *)
Example rewrite_sibling :
  Site.rewrite "<a href='|filename|b.md'>b</a>" = Ok "<a href='fr/b.html'>b</a>".
Proof. vm_compute. reflexivity. Qed.

Example rewrite_climbing :
  Site.rewrite "<img src='|filename|../images/y.png'>"
  = Ok "<img src='|filename|../images/y.png'>".
Proof. vm_compute. reflexivity. Qed.

Lemma C2_witness :
  url Sample.repr_builtin Sample.now article_en = Ok "foo.html".
Proof.
  destruct (C2_url_from_template Sample.repr_builtin Sample.now article_en true
              (VStr "misc"))
    as (_ & _ & _ & _ & _ & _ & _ & _ & H & _).
  - vm_compute. reflexivity.
  - vm_compute. reflexivity.
  - apply H.
    + vm_compute. reflexivity.
    + reflexivity.
    + vm_compute. reflexivity.
    + vm_compute. reflexivity.
Defined.

Lemma config_complete : complete Sample.config.
Proof.
  unfold complete. split_and!.
  - intros H. apply (f_equal (lookup "PATH")) in H. by vm_compute in H.
  - right. by exists "en".
  - exists []. split; [by vm_compute|]. intros l f. by simpl.
  - by eexists.
  - by eexists.
  - by eexists.
Defined.

Lemma C3_witness :
  ∃ e,
    Sample.construct ArticleC "" [("title", VStr "No date")] None = Ok (e, "C")
    ∧ check_properties e = Raise (NameError "date").
Proof.
  destruct (C3_lenient_construction_strict_check Sample.slugify
              Sample.repr_builtin ∅ Sample.dict_items Sample.now
              Sample.setlocale Sample.strftime sample_dict_items_perm
              ArticleC "" (list_to_map [("title", VStr "No date")])
              Sample.config None "C" ∅)
    as (e & He & _ & _ & Hcheck).
  - apply config_complete.
  - vm_compute. reflexivity.
  - apply (map_Forall_compute _ accepted). vm_compute. reflexivity.
  - apply sample_strftime_total.
  - exists e. split; [exact He|].
    rewrite (Hcheck eq_refl).
    unfold Sample.construct in He.
    assert (e = Sample.object
                  (Sample.construct ArticleC "" [("title", VStr "No date")] None))
      as ->.
    { unfold Sample.construct. by rewrite He. }
    vm_compute. reflexivity.
Defined.

Lemma no_key_spells (m : gmap string value) (x : string) :
  forallb (λ kv, negb (Text.eqb (Text.lower kv.1) x)) (map_to_list m) = true →
  ∀ k, is_Some (m !! k) → Text.lower k ≠ x.
Proof.
  intros H k [v Hk] Hx.
  apply (map_Forall_compute m (λ k _, negb (Text.eqb (Text.lower k) x)) H) in Hk.
  apply negb_true_iff in Hk. rewrite <- Hx in Hk.
  by rewrite TextFacts.eqb_refl in Hk.
Qed.

Lemma only_key_spells (m : gmap string value) (x : string) :
  forallb (λ kv, negb (Text.eqb (Text.lower kv.1) x) || Text.eqb kv.1 x)
    (map_to_list m) = true →
  ∀ k, is_Some (m !! k) → Text.lower k = x → k = x.
Proof.
  intros H k [v Hk] Hx.
  apply (map_Forall_compute m
           (λ k _, negb (Text.eqb (Text.lower k) x) || Text.eqb k x) H) in Hk.
  rewrite Hx, TextFacts.eqb_refl in Hk. by apply TextFacts.eqb_eq.
Qed.

Lemma construct_fr :
  Page_init Sample.slugify Sample.repr_builtin ∅ Sample.dict_items Sample.now
    Sample.setlocale Sample.strftime PageC "" (Some metadata_fr)
    (Some Sample.config) None "C"
  = Ok (page_fr, "C").
Proof. vm_compute. reflexivity. Defined.

Lemma C4_witness :
  match settings page_fr !! "DEFAULT_LANG" with
  | None => attrs page_fr !! "in_default_lang" = Some (VBool true)
  | Some d =>
      ∃ ds lang,
        d = VStr ds
        ∧ attrs page_fr !! "lang" = Some lang
        ∧ attrs page_fr !! "in_default_lang"
          = Some (VBool (eq_text lang (Text.lower ds)))
  end.
Proof.
  exact (C4_in_default_lang Sample.slugify Sample.repr_builtin ∅
           Sample.dict_items Sample.now Sample.setlocale Sample.strftime
           PageC "" (Some metadata_fr) (Some Sample.config) None "C" page_fr "C"
           construct_fr).
Defined.

Lemma construct_tomorrow :
  Page_init Sample.slugify Sample.repr_builtin ∅ Sample.dict_items Sample.now
    Sample.setlocale Sample.strftime PageC "" (Some metadata_tomorrow)
    (Some Sample.config) None "C"
  = Ok (page_tomorrow, "C").
Proof. vm_compute. reflexivity. Defined.

Lemma C5_witness :
  ∃ default_status with_future_dates,
    settings page_tomorrow !! "DEFAULT_STATUS" = Some default_status
    ∧ settings page_tomorrow !! "WITH_FUTURE_DATES" = Some with_future_dates
    ∧ attrs page_tomorrow !! "status" =
        Some (if negb (truthy with_future_dates)
                 && in_future Sample.now (attrs page_tomorrow !! "date")
              then VStr "draft" else default_status).
Proof.
  apply (C5_default_status Sample.slugify Sample.repr_builtin ∅
           Sample.dict_items Sample.now Sample.setlocale Sample.strftime
           sample_dict_items_perm
           PageC "" (Some metadata_tomorrow) (Some Sample.config) None "C"
           page_tomorrow "C" construct_tomorrow).
  apply no_key_spells. vm_compute. reflexivity.
Defined.

Example tomorrow_is_draft :
  attrs page_tomorrow !! "status" = Some (VStr "draft").
Proof. vm_compute. reflexivity. Qed.

Lemma construct_explicit :
  Page_init Sample.slugify Sample.repr_builtin ∅ Sample.dict_items Sample.now
    Sample.setlocale Sample.strftime PageC "Body" (Some metadata_explicit)
    (Some Sample.config) None "C"
  = Ok (page_explicit, "C").
Proof. vm_compute. reflexivity. Defined.

Lemma C9_witness : attrs page_explicit !! "status" = Some (VStr "published").
Proof.
  apply (C9_explicit_status_kept Sample.slugify Sample.repr_builtin ∅
           Sample.dict_items Sample.now Sample.setlocale Sample.strftime
           sample_dict_items_perm
           PageC "Body" metadata_explicit (Some Sample.config) None "C"
           page_explicit "C" (VStr "published") construct_explicit).
  - vm_compute. reflexivity.
  - apply only_key_spells. vm_compute. reflexivity.
Defined.

Lemma C7_witness :
  _get_summary Sample.repr_builtin Sample.now Sample.truncate_html_words
    Sample.cwd page_explicit (Some Site.context)
  = Ok (VStr "In <b>short</b>")
  ∧ ∃ e', _set_summary page_explicit (VStr "Other") = Ok e' ∧ e' = page_explicit
    ∧ _get_summary Sample.repr_builtin Sample.now Sample.truncate_html_words
        Sample.cwd e' (Some Site.context)
      = Ok (VStr "In <b>short</b>").
Proof.
  apply (C7_explicit_summary Sample.slugify Sample.repr_builtin ∅
           Sample.dict_items Sample.now Sample.setlocale Sample.strftime
           Sample.truncate_html_words Sample.cwd
           PageC "Body" metadata_explicit (Some Sample.config) None "C"
           page_explicit "C" (VStr "In <b>short</b>") construct_explicit).
  vm_compute. reflexivity.
Defined.

(** ** Runs of the further properties *)

Lemma one_key_spells (m : gmap string value) (x k0 : string) :
  forallb (λ kv, negb (Text.eqb (Text.lower kv.1) x) || Text.eqb kv.1 k0)
    (map_to_list m) = true →
  ∀ k, is_Some (m !! k) → Text.lower k = x → k = k0.
Proof.
  intros H k [v Hk] Hx.
  apply (map_Forall_compute m
           (λ k _, negb (Text.eqb (Text.lower k) x) || Text.eqb k k0) H) in Hk.
  rewrite Hx, TextFacts.eqb_refl in Hk. by apply TextFacts.eqb_eq.
Qed.

Lemma construct_cased :
  Page_init Sample.slugify Sample.repr_builtin ∅ Sample.dict_items Sample.now
    Sample.setlocale Sample.strftime ArticleC "" (Some metadata_cased)
    (Some Sample.config) None "C"
  = Ok (page_cased, "C").
Proof. vm_compute. reflexivity. Defined.

Lemma construct_dated :
  Page_init Sample.slugify Sample.repr_builtin ∅ Sample.dict_items Sample.now
    Sample.setlocale Sample.strftime PageC "" (Some metadata_dated)
    (Some config_fr) None "C"
  = Ok (page_dated, "fr_FR").
Proof. vm_compute. reflexivity. Defined.

Lemma construct_referrer :
  Page_init Sample.slugify Sample.repr_builtin ∅ Sample.dict_items Sample.now
    Sample.setlocale Sample.strftime PageC "" (Some metadata_referrer)
    (Some Sample.config) (Some "content/posts/a.md") "C"
  = Ok (Site.referrer, "C").
Proof. vm_compute. reflexivity. Defined.

Lemma metadata_key_becomes_attribute_witness :
  attrs page_cased !! "category" = Some (VStr "News").
Proof.
  apply (metadata_key_becomes_attribute Sample.slugify Sample.repr_builtin ∅
           Sample.dict_items Sample.now Sample.setlocale Sample.strftime
           sample_dict_items_perm
           ArticleC "" (Some metadata_cased) (Some Sample.config) None "C"
           page_cased "C" "Category" (VStr "News") construct_cased).
  - vm_compute. reflexivity.
  - apply (one_key_spells (metadata page_cased) "category" "Category").
    vm_compute. reflexivity.
  - apply (bool_decide_unpack _). vm_compute. exact I.
Defined.

Lemma readonly_key_refused_witness :
  Page_init Sample.slugify Sample.repr_builtin ∅ Sample.dict_items Sample.now
    Sample.setlocale Sample.strftime PageC "" (Some metadata_url)
    (Some Sample.config) None "C"
  = Raise (AttributeError "can't set attribute").
Proof.
  apply (readonly_key_refused Sample.slugify Sample.repr_builtin ∅
           Sample.dict_items Sample.now Sample.setlocale Sample.strftime
           sample_dict_items_perm
           PageC "" (Some metadata_url) (Some Sample.config) None "C" ∅ "URL").
  - vm_compute. reflexivity.
  - exists (VStr "clash.html"). vm_compute. reflexivity.
  - apply (bool_decide_unpack _). vm_compute. exact I.
  - intros k' [v Hk]. apply negb_true_iff. revert k' v Hk.
    apply (map_Forall_compute (default ∅ (Some metadata_url) ∪ ∅)
             (λ k _, negb (shadowing (Text.lower k)))).
    vm_compute. reflexivity.
Defined.

Lemma lang_defaults_to_default_lang_witness :
  attrs page_tomorrow !! "lang" = Some (VStr (Text.lower "en"))
  ∧ attrs page_tomorrow !! "in_default_lang" = Some (VBool true).
Proof.
  apply (lang_defaults_to_default_lang Sample.slugify Sample.repr_builtin ∅
           Sample.dict_items Sample.now Sample.setlocale Sample.strftime
           sample_dict_items_perm
           PageC "" (Some metadata_tomorrow) (Some Sample.config) None "C"
           page_tomorrow "C" "en" construct_tomorrow).
  - vm_compute. reflexivity.
  - apply no_key_spells. vm_compute. reflexivity.
Defined.

Lemma slug_comes_from_title_witness :
  attrs page_tomorrow !! "slug"
  = (λ title, VStr (Sample.slugify (unicode_ Sample.repr_builtin title)))
      <$> attrs page_tomorrow !! "title".
Proof.
  apply (slug_comes_from_title Sample.slugify Sample.repr_builtin ∅
           Sample.dict_items Sample.now Sample.setlocale Sample.strftime
           sample_dict_items_perm
           PageC "" (Some metadata_tomorrow) (Some Sample.config) None "C"
           page_tomorrow "C" construct_tomorrow).
  apply no_key_spells. vm_compute. reflexivity.
Defined.

Lemma author_comes_from_settings_witness :
  attrs page_tomorrow !! "author"
  = (λ n, VWrapper AuthorC (unicode_ Sample.repr_builtin n)
            (Sample.slugify (unicode_ Sample.repr_builtin n)))
      <$> settings page_tomorrow !! "AUTHOR".
Proof.
  apply (author_comes_from_settings Sample.slugify Sample.repr_builtin ∅
           Sample.dict_items Sample.now Sample.setlocale Sample.strftime
           sample_dict_items_perm
           PageC "" (Some metadata_tomorrow) (Some Sample.config) None "C"
           page_tomorrow "C" construct_tomorrow).
  apply no_key_spells. vm_compute. reflexivity.
Defined.

Lemma date_format_and_locale_witness :
  ∃ chosen,
    format_for (settings page_dated) (attrs page_dated !! "lang") = Some chosen
    ∧ match chosen with
      | VTuple items =>
          ∃ name fmt,
            items !! 0 = Some name ∧ items !! 1 = Some fmt
            ∧ attrs page_dated !! "date_format" = Some fmt
            ∧ (name = VNone ∧ "fr_FR" = "C"
               ∨ ∃ n, name = VStr n ∧ Sample.setlocale "C" n = Ok "fr_FR")
      | _ => attrs page_dated !! "date_format" = Some chosen ∧ "fr_FR" = "C"
      end.
Proof.
  apply (date_format_and_locale Sample.slugify Sample.repr_builtin ∅
           Sample.dict_items Sample.now Sample.setlocale Sample.strftime
           sample_dict_items_perm
           PageC "" (Some metadata_dated) (Some config_fr) None "C"
           page_dated "fr_FR" construct_dated).
  apply no_key_spells. vm_compute. reflexivity.
Defined.

Lemma construct_day :
  Page_init Sample.slugify Sample.repr_builtin ∅ Sample.dict_items Sample.now
    Sample.setlocale Sample.strftime PageC "" (Some metadata_day)
    (Some Sample.config) None "C"
  = Ok (page_day, "C").
Proof. vm_compute. reflexivity. Defined.

Lemma locale_date_from_date_witness :
  (∃ fmt text,
     attrs page_dated !! "date_format" = Some (VStr fmt)
     ∧ Sample.strftime "fr_FR" 500 fmt = Ok text
     ∧ attrs page_dated !! "locale_date" = Some (VStr text))
  ∧ (∃ fmt text,
       attrs page_day !! "date_format" = Some (VStr fmt)
       ∧ Sample.strftime "C" 500 fmt = Ok text
       ∧ attrs page_day !! "locale_date" = Some (VStr text)).
Proof.
  split.
  - apply (locale_date_from_date Sample.slugify Sample.repr_builtin ∅
             Sample.dict_items Sample.now Sample.setlocale Sample.strftime
             PageC "" (Some metadata_dated) (Some config_fr) None "C"
             page_dated "fr_FR" 500%Z construct_dated).
    left. vm_compute. reflexivity.
  - apply (locale_date_from_date Sample.slugify Sample.repr_builtin ∅
             Sample.dict_items Sample.now Sample.setlocale Sample.strftime
             PageC "" (Some metadata_day) (Some Sample.config) None "C"
             page_day "C" 500%Z construct_day).
    right. vm_compute. reflexivity.
Defined.

Lemma construct_plain :
  Page_init Sample.slugify Sample.repr_builtin ∅ Sample.dict_items Sample.now
    Sample.setlocale Sample.strftime PageC "Body text" (Some metadata_plain)
    (Some config_summary) None "C"
  = Ok (page_plain, "C").
Proof. vm_compute. reflexivity. Defined.

Lemma default_summary_is_not_kept_witness :
  (metadata page_plain !! "summary" = Some (VStr "A summary for every page")
   ∧ attrs page_plain !! "summary" = None
   ∧ attrs page_plain !! "_summary" = None
   ∧ _get_summary Sample.repr_builtin Sample.now Sample.truncate_html_words
       Sample.cwd page_plain (Some Site.context)
     = Ok (VStr "Body text"))
  ∧ (attrs page_explicit !! "summary" = None
     ∧ attrs page_explicit !! "_summary" = Some (VStr "In <b>short</b>")).
Proof.
  split.
  - destruct (default_summary_is_not_kept Sample.slugify Sample.repr_builtin ∅
                Sample.dict_items Sample.now Sample.setlocale Sample.strftime
                Sample.truncate_html_words Sample.cwd sample_dict_items_perm
                PageC "Body text" (Some metadata_plain) (Some config_summary)
                None "C" page_plain "C" construct_plain) as (Hnever & _ & Hnone).
    destruct Hnone as [Hnone Hget].
    { vm_compute. reflexivity. }
    { apply no_key_spells. vm_compute. reflexivity. }
    split_and!; [vm_compute; reflexivity|exact Hnever|exact Hnone|].
    rewrite Hget. vm_compute. reflexivity.
  - destruct (default_summary_is_not_kept Sample.slugify Sample.repr_builtin ∅
                Sample.dict_items Sample.now Sample.setlocale Sample.strftime
                Sample.truncate_html_words Sample.cwd sample_dict_items_perm
                PageC "Body" (Some metadata_explicit) (Some Sample.config)
                None "C" page_explicit "C" construct_explicit) as (Hnever & Hkept & _).
    split; [exact Hnever|]. apply Hkept. vm_compute. reflexivity.
Defined.

Lemma valid_when_metadata_spell_mandatory_witness :
  ∃ b, is_valid_content page_cased = Ok b
       ∧ (b = true ↔
          ∀ p, p ∈ mandatory_properties ArticleC →
               ∃ k, is_Some (metadata page_cased !! k) ∧ Text.lower k = p).
Proof.
  apply (valid_when_metadata_spell_mandatory Sample.slugify Sample.repr_builtin ∅
           Sample.dict_items Sample.now Sample.setlocale Sample.strftime
           sample_dict_items_perm
           ArticleC "" (Some metadata_cased) (Some Sample.config) None "C"
           page_cased "C" construct_cased).
Defined.

Lemma translation_uses_lang_template_witness :
  url Sample.repr_builtin Sample.now page_fr
  = _expand_settings Sample.repr_builtin Sample.now page_fr
      (if Text.eqb "fr" (Text.lower "en") then "url" else "lang_url")
  ∧ save_as Sample.repr_builtin Sample.now page_fr
    = _expand_settings Sample.repr_builtin Sample.now page_fr
        (if Text.eqb "fr" (Text.lower "en") then "save_as" else "lang_save_as").
Proof.
  apply (translation_uses_lang_template Sample.slugify Sample.repr_builtin ∅
           Sample.dict_items Sample.now Sample.setlocale Sample.strftime
           PageC "" (Some metadata_fr) (Some Sample.config) None "C"
           page_fr "C" "en" "fr" construct_fr).
  - vm_compute. reflexivity.
  - vm_compute. reflexivity.
Defined.

Lemma template_is_never_none_witness :
  ∃ t, attrs page_tomorrow !! "template" = Some t
       ∧ t ≠ VNone
       ∧ ((∀ k, is_Some (metadata page_tomorrow !! k) → Text.lower k ≠ "template") →
          t = VStr (default_template PageC))
       ∧ (∀ k v,
            metadata page_tomorrow !! k = Some v →
            Text.lower k = "template" →
            (∀ k', is_Some (metadata page_tomorrow !! k') →
                   Text.lower k' = "template" → k' = k) →
            t = match v with VNone => VStr (default_template PageC) | _ => v end).
Proof.
  apply (template_is_never_none Sample.slugify Sample.repr_builtin ∅
           Sample.dict_items Sample.now Sample.setlocale Sample.strftime
           sample_dict_items_perm
           PageC "" (Some metadata_tomorrow) (Some Sample.config) None "C"
           page_tomorrow "C" construct_tomorrow).
Defined.

Lemma filename_argument_wins_witness :
  (∀ f, Some "content/posts/a.md" = Some f → f ≠ "" →
        attrs Site.referrer !! "filename" = Some (VStr f))
  ∧ ((Some "content/posts/a.md" = None ∨ Some "content/posts/a.md" = Some "") →
     (∀ k, is_Some (metadata Site.referrer !! k) → Text.lower k ≠ "filename") →
     attrs Site.referrer !! "filename" = None
     ∧ relative_dir Sample.cwd Site.referrer = Raise (AttributeError "filename")).
Proof.
  apply (filename_argument_wins Sample.slugify Sample.repr_builtin ∅
           Sample.dict_items Sample.now Sample.setlocale Sample.strftime
           Sample.cwd sample_dict_items_perm
           PageC "" (Some metadata_referrer) (Some Sample.config)
           (Some "content/posts/a.md") "C"
           Site.referrer "C" construct_referrer).
Defined.

Lemma attributes_after_construction_witness :
  is_Some (attrs page_dated !! "template")
  ∧ is_Some (attrs page_dated !! "in_default_lang")
  ∧ is_Some (attrs page_dated !! "date_format")
  ∧ is_Some (attrs page_dated !! "status")
  ∧ (is_Some (settings page_dated !! "DEFAULT_LANG") →
     is_Some (attrs page_dated !! "lang"))
  ∧ (is_Some (settings page_dated !! "AUTHOR") →
     is_Some (attrs page_dated !! "author"))
  ∧ (is_Some (attrs page_dated !! "title") → is_Some (attrs page_dated !! "slug"))
  ∧ (is_Some (attrs page_dated !! "date") →
     is_Some (attrs page_dated !! "locale_date")).
Proof.
  apply (attributes_after_construction Sample.slugify Sample.repr_builtin ∅
           Sample.dict_items Sample.now Sample.setlocale Sample.strftime
           PageC "" (Some metadata_dated) (Some config_fr) None "C"
           page_dated "fr_FR" construct_dated).
Defined.

Lemma url_setting_errors_witness :
  get_url_setting Sample.repr_builtin Sample.now page_fr "save_as"
  = Raise (KeyError "PAGE_LANG_SAVE_AS").
Proof.
  rewrite (url_setting_errors Sample.repr_builtin Sample.now page_fr false "save_as").
  - vm_compute. reflexivity.
  - vm_compute. reflexivity.
Defined.

Lemma template_rendering_witness :
  get_url_setting Sample.repr_builtin Sample.now page_home "save_as"
  = Ok "index.html"
  ∧ get_url_setting Sample.repr_builtin Sample.now article_en "url"
    = Ok ("" +:+ unicode_ Sample.repr_builtin (VStr "foo") +:+ ".html").
Proof.
  split.
  - destruct (template_rendering Sample.repr_builtin Sample.now page_home true
                "save_as" (VStr "misc")) as [Hplain _].
    { vm_compute. reflexivity. }
    { vm_compute. reflexivity. }
    apply Hplain; vm_compute; reflexivity.
  - destruct (template_rendering Sample.repr_builtin Sample.now article_en true
                "url" (VStr "misc")) as [_ Hfield].
    { vm_compute. reflexivity. }
    { vm_compute. reflexivity. }
    apply (Hfield "" "slug" ".html" (VStr "foo")); vm_compute; reflexivity.
Defined.

Lemma tag_name_is_stripped_witness :
  ∃ t1 t2,
    Tag Sample.slugify Sample.repr_builtin (VStr "Foo bar") ∅ = Ok t1
    ∧ Tag Sample.slugify Sample.repr_builtin (VStr (" " +:+ "Foo bar" +:+ "  ")) ∅
      = Ok t2
    ∧ name t1 = name t2
    ∧ slug t1 = slug t2
    ∧ URLWrapper_eq Sample.repr_builtin t1 (wrapper_value t2) = true
    ∧ URLWrapper_hash Sample.hash t1 = URLWrapper_hash Sample.hash t2
    ∧ Tag Sample.slugify Sample.repr_builtin (VStr (name t1)) ∅ = Ok t1.
Proof.
  apply (tag_name_is_stripped Sample.slugify Sample.repr_builtin Sample.hash
           ∅ ∅ " " "Foo bar" "  ").
  - vm_compute. reflexivity.
  - vm_compute. reflexivity.
Defined.

Lemma equal_wrappers_hash_alike_witness :
  let w1 := URLWrapper_init Sample.slugify Sample.repr_builtin CategoryC
              (VStr "misc") ∅ in
  let w2 := URLWrapper_init Sample.slugify Sample.repr_builtin TagC
              (VStr "misc") Sample.config in
  URLWrapper_eq Sample.repr_builtin w2 (wrapper_value w1) = true
  ∧ URLWrapper_hash Sample.hash w1 = URLWrapper_hash Sample.hash w2
  ∧ slug w1 = slug w2
  ∧ (∀ other, URLWrapper_eq Sample.repr_builtin w1 other
              = URLWrapper_eq Sample.repr_builtin w2 other)
  ∧ (∀ s, URLWrapper_eq Sample.repr_builtin w1 (VStr s) = true →
          URLWrapper_hash Sample.hash w2 = Sample.hash s).
Proof.
  apply (equal_wrappers_hash_alike Sample.slugify Sample.repr_builtin Sample.hash
           CategoryC TagC (VStr "misc") (VStr "misc") ∅ Sample.config).
  vm_compute. reflexivity.
Defined.

Lemma url_extends_page_name_witness :
  URLWrapper_url Sample.repr_builtin category_misc
  = Ok (VStr ("category/misc"
              +:+ (posixpath.splitext "category/{slug}.html").2)).
Proof.
  apply (url_extends_page_name Sample.repr_builtin category_misc
           (VStr "category/{slug}.html")).
  - vm_compute. reflexivity.
  - vm_compute. reflexivity.
  - vm_compute. reflexivity.
Defined.

Lemma content_without_bar_unchanged_witness :
  _update_content Sample.repr_builtin Sample.now Sample.cwd Site.referrer None
    "<a href='about.html'>about</a>" "."
  = Ok "<a href='about.html'>about</a>".
Proof.
  apply (content_without_bar_unchanged Sample.repr_builtin Sample.now Sample.cwd
           Site.referrer None "<a href='about.html'>about</a>" ".").
  vm_compute. reflexivity.
Defined.

Lemma unresolved_references_left_alone_witness :
  _update_content Sample.repr_builtin Sample.now Sample.cwd Site.referrer
    (Some Site.context)
    "<a href='|category|misc'>misc</a><img src='|filename|/images/y.png'>" "."
  = Ok "<a href='|category|misc'>misc</a><img src='|filename|/images/y.png'>".
Proof.
  apply (unresolved_references_left_alone Sample.repr_builtin Sample.now
           Sample.cwd Site.referrer (Some Site.context)
           "<a href='|category|misc'>misc</a><img src='|filename|/images/y.png'>"
           ".").
  assert (Re.finditer hrefs
            "<a href='|category|misc'>misc</a><img src='|filename|/images/y.png'>"
          = [hrefs_groups "<a href=" "'" "category" "misc";
             hrefs_groups "<img src=" "'" "filename" "/images/y.png"]) as ->.
  { vm_compute. reflexivity. }
  intros m Hm.
  apply elem_of_cons in Hm as [->|Hm];
    [|apply elem_of_cons in Hm as [->|Hm]; [|by apply elem_of_nil in Hm]].
  - exists "category", "misc". split_and!; [reflexivity..|]. by left.
  - exists "filename", "/images/y.png". split_and!; [reflexivity..|].
    right. exists Site.context, "images/y.png".
    split_and!; [reflexivity..|]. vm_compute. reflexivity.
Defined.

Lemma empty_index_rewrites_nothing_witness :
  _update_content Sample.repr_builtin Sample.now Sample.cwd Site.referrer
    (Some context_empty) "<a href='|filename|b.md'>b</a>" "."
  = Ok "<a href='|filename|b.md'>b</a>".
Proof.
  apply (empty_index_rewrites_nothing Sample.repr_builtin Sample.now Sample.cwd
           Site.referrer context_empty "<a href='|filename|b.md'>b</a>" "."
           "content/posts/a.md" "content").
  - vm_compute. reflexivity.
  - vm_compute. reflexivity.
  - reflexivity.
Defined.

Lemma index_forall (l : list (string * Page)) (P : Page → Prop) :
  Forall (λ kv, P kv.2) l →
  ∀ key target, (list_to_map l : gmap string Page) !! key = Some target → P target.
Proof.
  intros HF key target H. apply elem_of_list_to_map_2 in H.
  rewrite Forall_forall in HF. apply (HF (key, target) H).
Qed.

Lemma rewriting_never_raises_witness :
  ∃ out,
    _update_content Sample.repr_builtin Sample.now Sample.cwd Site.referrer
      (Some Site.context) "<a href='|filename|b.md'>b</a>" "."
    = Ok out.
Proof.
  apply (rewriting_never_raises Sample.repr_builtin Sample.now Sample.cwd
           Site.referrer Site.context "<a href='|filename|b.md'>b</a>" "."
           "content/posts/a.md" "content").
  - vm_compute. reflexivity.
  - vm_compute. reflexivity.
  - apply (index_forall
             [("images/x.png", Site.picture); ("posts/b.md", Site.sibling)]
             (λ target, ∃ u, url Sample.repr_builtin Sample.now target = Ok u)).
    constructor; [|constructor; [|constructor]].
    + exists "pages/x.html". vm_compute. reflexivity.
    + exists "fr/b.html". vm_compute. reflexivity.
Defined.

Lemma static_content_paths_witness :
  ∃ path output_path,
    effective_settings ∅ (Some config_static) !! "PATH" = Some (VStr path)
    ∧ effective_settings ∅ (Some config_static) !! "OUTPUT_PATH"
      = Some (VStr output_path)
    ∧ src stylesheet = "css/main.css"
    ∧ static_url stylesheet = match Some "theme/main.css" with
                              | Some d => if Text.eqb d "" then "css/main.css" else d
                              | None => "css/main.css"
                              end
    ∧ (if Text.startswith "css/main.css" "/"
       then filepath stylesheet = "css/main.css"
       else filepath stylesheet = path +:+ "css/main.css"
            ∨ filepath stylesheet = path +:+ "/" +:+ "css/main.css")
    ∧ (if Text.startswith (static_url stylesheet) "/"
       then static_save_as stylesheet = static_url stylesheet
       else static_save_as stylesheet = output_path +:+ static_url stylesheet
            ∨ static_save_as stylesheet
              = output_path +:+ "/" +:+ static_url stylesheet).
Proof.
  apply (static_content_paths ∅ "css/main.css" (Some "theme/main.css")
           (Some config_static) stylesheet).
  vm_compute. reflexivity.
Defined.
